(** * Training reports: a shallow embedding of [jun_kim_trainings.py]

    The program reads a list of people, each with a list of training
    completions, and derives three reports: a count per training
    ([get_training_count]), the people who completed given trainings in a
    fiscal year ([get_completed_trainings]) and the people whose most recent
    trainings are expired or about to expire
    ([get_expired_or_expiring_trainings], on top of
    [get_most_recent_completions]).

    Modelling choices.
    - The JSON input is typed as the spec's data model has it: a field, when
      present, is a string (a list of completions for [completions]); a field
      that may be absent is an [option].  [dict.get(k)] on an absent key is
      [None].
    - The tests [if v:] of the program do not tell an absent field from one
      that holds the empty string; where the specification speaks of a
      missing, absent or present field, the statements below read it by
      that test ([truthy], [missing]).
    - Strings are Rocq strings, read as sequences of code points below 256;
      on those the regular expression class [\d] is exactly [0-9].
    - A Python [dict] keeps insertion order, and [json.dump] writes it in
      that order, so a dict is an association list with unique keys.
    - A naive [datetime] is its position on the proleptic Gregorian time
      line, counted in microseconds from 0001-01-01T00:00:00.  Comparison of
      datetimes is comparison of positions; the range 0001..9999 of the type
      is kept, with the errors Python raises at its ends: [ValueError] from
      the constructor ([OverflowError] when an argument does not even fit
      a C [int]) and [OverflowError] from the sum with a [timedelta].
    - An exception aborts the report: functions that can raise return a
      [result].  Writing the JSON file is outside the model: a function
      returns the value it would dump. *)

From Stdlib Require Import ZArith String Ascii List Bool Lia Permutation.
Import ListNotations.

Local Open Scope string_scope.
Local Open Scope list_scope.
Local Open Scope Z_scope.

(** ** Exceptions *)

Inductive exn : Type :=
| KeyError
| ValueError
| OverflowError.

Inductive result (A : Type) : Type :=
| Ok (a : A)
| Raise (e : exn).

Arguments Ok {A} a.
Arguments Raise {A} e.

Definition bind {A B : Type} (r : result A) (k : A -> result B) : result B :=
  match r with
  | Ok a => k a
  | Raise e => Raise e
  end.

Notation "x <- e ;; k" := (bind e (fun x => k))
  (at level 61, e at next level, right associativity).

(** A [for] loop whose body may raise: the state is threaded through the
    elements in order and the first exception ends the loop. *)
Fixpoint for_each {A S : Type} (body : S -> A -> result S) (l : list A) (s : S)
  : result S :=
  match l with
  | [] => Ok s
  | x :: l' => s' <- body s x ;; for_each body l' s'
  end.

(** ** Insertion-ordered dictionaries *)

Module Dict.
Section Dict.
Context {V : Type}.

Definition t : Type := list (string * V).

Definition empty : t := [].

Fixpoint get (d : t) (k : string) : option V :=
  match d with
  | [] => None
  | (k', v) :: d' => if String.eqb k' k then Some v else get d' k
  end.

(** [k in d] *)
Definition contains (d : t) (k : string) : bool :=
  match get d k with
  | Some _ => true
  | None => false
  end.

(** [d[k] = v]: an existing key keeps its place, a new key goes last. *)
Fixpoint set (d : t) (k : string) (v : V) : t :=
  match d with
  | [] => [(k, v)]
  | (k', v') :: d' =>
      if String.eqb k' k then (k', v) :: d' else (k', v') :: set d' k v
  end.

Definition keys (d : t) : list string := map fst d.
Definition values (d : t) : list V := map snd d.
Definition items (d : t) : list (string * V) := d.
End Dict.
Arguments t : clear implicits.
End Dict.

(** ** Dates *)

Module Datetime.

(** Microseconds since 0001-01-01T00:00:00. *)
Definition t : Type := Z.

Definition MINYEAR : Z := 1.
Definition MAXYEAR : Z := 9999.
(** [date(9999, 12, 31).toordinal()] *)
Definition MAXORDINAL : Z := 3652059.
Definition us_per_day : Z := 86400000000.

Definition is_leap (year : Z) : bool :=
  (year mod 4 =? 0) && (negb (year mod 100 =? 0) || (year mod 400 =? 0)).

Definition days_before_year (year : Z) : Z :=
  let y := year - 1 in
  y * 365 + y / 4 - y / 100 + y / 400.

Definition DAYS_IN_MONTH : list Z :=
  [0; 31; 28; 31; 30; 31; 30; 31; 31; 30; 31; 30; 31].

Definition DAYS_BEFORE_MONTH : list Z :=
  [0; 0; 31; 59; 90; 120; 151; 181; 212; 243; 273; 304; 334].

Definition days_in_month (year month : Z) : Z :=
  if (month =? 2) && is_leap year then 29
  else nth (Z.to_nat month) DAYS_IN_MONTH 0.

Definition days_before_month (year month : Z) : Z :=
  nth (Z.to_nat month) DAYS_BEFORE_MONTH 0
  + (if (month >? 2) && is_leap year then 1 else 0).

(** Day number of a date, 0001-01-01 being day 1. *)
Definition ymd2ord (year month day : Z) : Z :=
  days_before_year year + days_before_month year month + day.

Definition valid_date (year month day : Z) : bool :=
  (MINYEAR <=? year) && (year <=? MAXYEAR)
  && (1 <=? month) && (month <=? 12)
  && (1 <=? day) && (day <=? days_in_month year month).

Definition of_ordinal (n : Z) : t := (n - 1) * us_per_day.

Definition toordinal (d : t) : Z := d / us_per_day + 1.

(** The arguments of the constructor are converted to C [int]s before
    anything else is looked at. *)
Definition INT_MIN : Z := -2147483648.
Definition INT_MAX : Z := 2147483647.

Definition fits_int (n : Z) : bool := (INT_MIN <=? n) && (n <=? INT_MAX).

(** [datetime(year, month, day)]: midnight of that day; [OverflowError]
    when an argument does not fit a C [int], [ValueError] when the fields
    fit and are out of range. *)
Definition make (year month day : Z) : result t :=
  if fits_int year && fits_int month && fits_int day then
    if valid_date year month day then Ok (of_ordinal (ymd2ord year month day))
    else Raise ValueError
  else Raise OverflowError.

(** [d + timedelta(days=n)]: [OverflowError] when the day of the sum is
    not in 0001-01-01 .. 9999-12-31. *)
Definition add_days (d : t) (n : Z) : result t :=
  let r := d + n * us_per_day in
  if (0 <? toordinal r) && (toordinal r <=? MAXORDINAL) then Ok r
  else Raise OverflowError.

Definition leb (a b : t) : bool := a <=? b.
Definition gtb (a b : t) : bool := a >? b.

(** A value of the type: within 0001-01-01T00:00:00 .. 9999-12-31T23:59:59.999999. *)
Definition in_range (d : t) : Prop := 0 <= d < MAXORDINAL * us_per_day.

End Datetime.

(** ** [datetime.strptime(s, "%m/%d/%Y")]

    The format compiles to the regular expression
    [(?P<m>1[0-2]|0[1-9]|[1-9])/(?P<d>3[01]|[12]\d|0[1-9]|[1-9]| [1-9])/(?P<Y>\d\d\d\d)],
    matched at the start of the string with ordered alternatives and
    backtracking; text left after the match is an error, and so is a date
    that does not exist. Each group below takes the rest of the match as a
    continuation, which gives the backtracking. *)

Module Strptime.

Definition digit (c : ascii) : option Z :=
  let n := Z.of_N (N_of_ascii c) in
  if (48 <=? n) && (n <=? 57) then Some (n - 48) else None.

Definition digit_in (lo hi : Z) (c : ascii) : option Z :=
  match digit c with
  | Some v => if (lo <=? v) && (v <=? hi) then Some v else None
  | None => None
  end.

Definition orelse {A : Type} (x y : option A) : option A :=
  match x with
  | Some a => Some a
  | None => y
  end.

(** One character in a range of digits, then the continuation. *)
Definition one {A : Type} (lo hi : Z) (s : string) (k : Z -> string -> option A)
  : option A :=
  match s with
  | String c r =>
      match digit_in lo hi c with
      | Some v => k v r
      | None => None
      end
  | EmptyString => None
  end.

(** A given character, then the continuation. *)
Definition lit {A : Type} (c : ascii) (s : string) (k : string -> option A)
  : option A :=
  match s with
  | String c' r => if Ascii.eqb c' c then k r else None
  | EmptyString => None
  end.

(** [1[0-2]|0[1-9]|[1-9]] *)
Definition re_m {A : Type} (s : string) (k : Z -> string -> option A) : option A :=
  orelse (lit "1" s (fun r => one 0 2 r (fun v => k (10 + v))))
 (orelse (lit "0" s (fun r => one 1 9 r k))
         (one 1 9 s k)).

(** [3[01]|[12]\d|0[1-9]|[1-9]| [1-9]] *)
Definition re_d {A : Type} (s : string) (k : Z -> string -> option A) : option A :=
  orelse (lit "3" s (fun r => one 0 1 r (fun v => k (30 + v))))
 (orelse (one 1 2 s (fun t r => one 0 9 r (fun v => k (10 * t + v))))
 (orelse (lit "0" s (fun r => one 1 9 r k))
 (orelse (one 1 9 s k)
         (lit " " s (fun r => one 1 9 r k))))).

(** [\d\d\d\d] *)
Definition re_Y {A : Type} (s : string) (k : Z -> string -> option A) : option A :=
  one 0 9 s (fun a r1 =>
  one 0 9 r1 (fun b r2 =>
  one 0 9 r2 (fun c r3 =>
  one 0 9 r3 (fun d => k (1000 * a + 100 * b + 10 * c + d))))).

(** The match: month, day, year and the text after them. *)
Definition re_match (s : string) : option (Z * Z * Z * string) :=
  re_m s (fun m s1 =>
  lit "/" s1 (fun s2 =>
  re_d s2 (fun d s3 =>
  lit "/" s3 (fun s4 =>
  re_Y s4 (fun y rest => Some (m, d, y, rest)))))).

Definition strptime (date_string : string) : result Datetime.t :=
  match re_match date_string with
  | Some (m, d, y, EmptyString) => Datetime.make y m d
  | Some (_, _, _, String _ _) => Raise ValueError
  | None => Raise ValueError
  end.

End Strptime.

Definition strptime := Strptime.strptime.

(** ** Input records *)

(** A completion: the values of [completion.get('name')],
    [completion.get('timestamp')] and [completion.get('expires')]. *)
Module Completion.
Record t : Type := make {
  name : option string;
  timestamp : option string;
  expires : option string
}.
End Completion.

(** A person: the fields [name] and [completions], each possibly absent. *)
Module Person.
Record t : Type := make {
  name : option string;
  completions : option (list Completion.t)
}.

(** [person.get('completions', [])] *)
Definition get_completions (person : t) : list Completion.t :=
  match completions person with
  | Some l => l
  | None => []
  end.

(** [person['name']] *)
Definition getitem_name (person : t) : result string :=
  match name person with
  | Some n => Ok n
  | None => Raise KeyError
  end.
End Person.

(** The test [if v:] on the value of [d.get(k)]: [None] (absent key) and
    the empty string are false, every other string is true.  The result
    carries the string when the test passes. *)
Definition truthy (v : option string) : option string :=
  match v with
  | Some (String c r) => Some (String c r)
  | Some EmptyString => None
  | None => None
  end.

(** ** Task 1: [get_training_count] *)

(** [training_count[training_name] += 1] on a [defaultdict(int)]. *)
Definition increment (training_count : Dict.t nat) (training_name : string)
  : Dict.t nat :=
  match Dict.get training_count training_name with
  | Some n => Dict.set training_count training_name (n + 1)%nat
  | None => Dict.set training_count training_name 1%nat
  end.

(** The body of the inner loop (lines 25-27). *)
Definition count_completion (training_count : Dict.t nat) (completion : Completion.t)
  : Dict.t nat :=
  match truthy (Completion.name completion) with
  | Some training_name => increment training_count training_name
  | None => training_count
  end.

(** Lines 19-27; the value is the dictionary that is dumped. *)
Definition get_training_count (data : list Person.t) : Dict.t nat :=
  fold_left
    (fun training_count person =>
       fold_left count_completion (Person.get_completions person) training_count)
    data Dict.empty.

(** ** Task 2: [get_completed_trainings] *)

(** [training_results[training_name].append(x)] *)
Definition append_to (training_results : Dict.t (list string))
  (training_name : string) (x : string) : result (Dict.t (list string)) :=
  match Dict.get training_results training_name with
  | Some l => Ok (Dict.set training_results training_name (l ++ [x]))
  | None => Raise KeyError
  end.

(** The body of the inner loop (lines 53-59). *)
Definition check_completion (fiscal_start fiscal_end : Datetime.t) (person : Person.t)
  (training_results : Dict.t (list string)) (completion : Completion.t)
  : result (Dict.t (list string)) :=
  let training_name := Completion.name completion in
  let timestamp := Completion.timestamp completion in
  match training_name, truthy timestamp with
  | Some training_name, Some timestamp =>
      if Dict.contains training_results training_name then
        date <- strptime timestamp ;;
        if Datetime.leb fiscal_start date && Datetime.leb date fiscal_end then
          person_name <- Person.getitem_name person ;;
          append_to training_results training_name person_name
        else Ok training_results
      else Ok training_results
  | _, _ => Ok training_results
  end.

(** Lines 45-59; the value is the dictionary that is dumped. *)
Definition get_completed_trainings (data : list Person.t) (trainings : list string)
  (fiscal_year : Z) : result (Dict.t (list string)) :=
  let training_results :=
    fold_left (fun d training => Dict.set d training []) trainings Dict.empty in
  fiscal_start <- Datetime.make (fiscal_year - 1) 7 1 ;;
  fiscal_end <- Datetime.make fiscal_year 6 30 ;;
  for_each
    (fun training_results person =>
       for_each (check_completion fiscal_start fiscal_end person)
         (Person.get_completions person) training_results)
    data training_results.

(** ** [get_most_recent_completions] *)

(** An entry of the resolved mapping: [{'timestamp': ..., 'expires': ...}]. *)
Module Details.
Record t : Type := make {
  timestamp : Datetime.t;
  expires : option string
}.
End Details.

(** [(training_name not in most_recent) or
     (completion_date > most_recent[training_name]['timestamp'])] *)
Definition is_more_recent (most_recent : Dict.t Details.t) (training_name : string)
  (completion_date : Datetime.t) : bool :=
  match Dict.get most_recent training_name with
  | None => true
  | Some details => Datetime.gtb completion_date (Details.timestamp details)
  end.

(** The body of the loop (lines 80-92). *)
Definition update_most_recent (most_recent : Dict.t Details.t)
  (completion : Completion.t) : result (Dict.t Details.t) :=
  let training_name := Completion.name completion in
  let timestamp := Completion.timestamp completion in
  let expiry := Completion.expires completion in
  match truthy training_name, truthy timestamp with
  | Some training_name, Some timestamp =>
      completion_date <- strptime timestamp ;;
      if is_more_recent most_recent training_name completion_date then
        Ok (Dict.set most_recent training_name
              (Details.make completion_date expiry))
      else Ok most_recent
  | _, _ => Ok most_recent
  end.

(** Lines 76-95. *)
Definition get_most_recent_completions (completions : list Completion.t)
  : result (Dict.t Details.t) :=
  for_each update_most_recent completions Dict.empty.

(** ** Task 3: [get_expired_or_expiring_trainings] *)

(** [{'training': ..., 'status': ...}] *)
Module Flag.
Record t : Type := make {
  training : string;
  status : string
}.
End Flag.

(** [{'name': ..., 'trainings': [...]}] *)
Module Report.
Record t : Type := make {
  name : string;
  trainings : list Flag.t
}.
End Report.

(** The status of an expiry date: [status = None], then the two tests in
    order.  The sum [reference_date + timedelta(days=30)] is only computed
    when the first test fails. *)
Definition expiry_status (reference_date expiry_date : Datetime.t)
  : result (option string) :=
  if Datetime.gtb reference_date expiry_date then Ok (Some "expired")
  else
    limit <- Datetime.add_days reference_date 30 ;;
    if Datetime.leb expiry_date limit then Ok (Some "expires soon")
    else Ok None.

(** The body of the loop over the resolved trainings (lines 116-132). *)
Definition check_training (reference_date : Datetime.t)
  (expired_or_expiring_trainings : list Flag.t) (item : string * Details.t)
  : result (list Flag.t) :=
  let '(training_name, details) := item in
  match truthy (Details.expires details) with
  | Some expiry_str =>
      expiry_date <- strptime expiry_str ;;
      status <- expiry_status reference_date expiry_date ;;
      match status with
      | Some status =>
          Ok (expired_or_expiring_trainings ++ [Flag.make training_name status])
      | None => Ok expired_or_expiring_trainings
      end
  | None => Ok expired_or_expiring_trainings
  end.

(** The body of the loop over the people (lines 111-139). *)
Definition check_person (reference_date : Datetime.t) (results : list Report.t)
  (person : Person.t) : result (list Report.t) :=
  most_recent_trainings <-
    get_most_recent_completions (Person.get_completions person) ;;
  expired_or_expiring_trainings <-
    for_each (check_training reference_date)
      (Dict.items most_recent_trainings) [] ;;
  match expired_or_expiring_trainings with
  | [] => Ok results
  | _ :: _ =>
      person_name <- Person.getitem_name person ;;
      Ok (results ++ [Report.make person_name expired_or_expiring_trainings])
  end.

(** Lines 107-139; the value is the list that is dumped. *)
Definition get_expired_or_expiring_trainings (data : list Person.t)
  (reference_date : Datetime.t) : result (list Report.t) :=
  for_each (check_person reference_date) data [].

(** * Notions the statements are written with *)

(** ** Fields *)

(** A field is missing when its key is absent or holds the empty string:
    the two cases in which [if v:] fails on [d.get(k)]. *)
Definition missing (v : option string) : Prop := v = None \/ v = Some "".

(** ** Counting *)

(** All completions of the dataset, person after person. *)
Definition all_completions (data : list Person.t) : list Completion.t :=
  flat_map Person.get_completions data.

(** The completion has a non-empty [name]. *)
Definition has_name (c : Completion.t) : bool :=
  match Completion.name c with
  | Some m => negb (String.eqb m "")
  | None => false
  end.

(** The completion carries the non-empty name [n]. *)
Definition carries (n : string) (c : Completion.t) : bool :=
  match Completion.name c with
  | Some m => String.eqb m n && negb (String.eqb m "")
  | None => false
  end.

(** The value of a key in a counter, 0 when the key is not there. *)
Definition count_of (d : Dict.t nat) (k : string) : nat :=
  match Dict.get d k with
  | Some n => n
  | None => O
  end.

(** ** The most recent completion *)

(** What the resolver reads off a completion: its name and timestamp when
    both pass the test [if training_name and timestamp]. *)
Definition reading (c : Completion.t) : option (string * string) :=
  match truthy (Completion.name c), truthy (Completion.timestamp c) with
  | Some n, Some ts => Some (n, ts)
  | _, _ => None
  end.

(** The completion is read, and is skipped when this is false: [name] or
    [timestamp] is missing (absent or empty). *)
Definition is_read (c : Completion.t) : bool :=
  match reading c with
  | Some _ => true
  | None => false
  end.

(** The training names of the completions the resolver reads, in order. *)
Definition read_names (cs : list Completion.t) : list string :=
  flat_map (fun c => match reading c with Some (n, _) => [n] | None => [] end) cs.

(** The completion is one of training [n], completed at [t]. *)
Definition dated_for (n : string) (t : Datetime.t) (c : Completion.t) : Prop :=
  exists ts, reading c = Some (n, ts) /\ strptime ts = Ok t.

(** The completion raises nothing in the resolver: it is skipped, or its
    timestamp parses. *)
Definition parses (c : Completion.t) : bool :=
  match reading c with
  | Some (_, ts) =>
      match strptime ts with
      | Ok _ => true
      | Raise _ => false
      end
  | None => true
  end.

(** [d] is the entry of the most recent completion of training [n] in [cs]:
    a completion of [n] with the largest date, the first of them in the
    list, passes on its date and its [expires]. *)
Definition most_recent_of (cs : list Completion.t) (n : string) (d : Details.t) : Prop :=
  exists l1 c l2,
    cs = l1 ++ c :: l2
    /\ dated_for n (Details.timestamp d) c
    /\ Details.expires d = Completion.expires c
    /\ (forall c' t', In c' l1 -> dated_for n t' c' -> t' < Details.timestamp d)
    /\ (forall c' t', In c' l2 -> dated_for n t' c' -> t' <= Details.timestamp d).

(** What a dictionary of entries must hold after the completions [cs]. *)
Definition resolves (cs : list Completion.t) (m : Dict.t Details.t) : Prop :=
  NoDup (Dict.keys m)
  /\ forall n,
       match Dict.get m n with
       | Some d => most_recent_of cs n d
       | None => forall c ts, In c cs -> reading c <> Some (n, ts)
       end.

(** The training and parsed date of a completion the resolver reads. *)
Definition stamp (c : Completion.t) : option (string * Datetime.t) :=
  match reading c with
  | Some (n, ts) =>
      match strptime ts with
      | Ok t => Some (n, t)
      | Raise _ => None
      end
  | None => None
  end.

(** The trainings and parsed dates of the completions the resolver reads
    and can parse. *)
Definition stamps (cs : list Completion.t) : list (string * Datetime.t) :=
  flat_map (fun c => match stamp c with Some x => [x] | None => [] end) cs.

(** Two results of the resolver are the same mapping: the same exception, or
    dictionaries with the same value at every key (equality of Python
    dicts, which does not look at insertion order). *)
Definition same_mapping (r1 r2 : result (Dict.t Details.t)) : Prop :=
  match r1, r2 with
  | Ok m1, Ok m2 => forall n, Dict.get m1 n = Dict.get m2 n
  | Raise e1, Raise e2 => e1 = e2
  | _, _ => False
  end.

(** ** The loops of the expiry report as recursive functions *)

(** The three loops of [get_expired_or_expiring_trainings] without their
    accumulators: the same computations in the same order, exceptions
    included, as functions over the list that is iterated.  They are the
    form in which the facts about the report are proved. *)
Module Loops.

(** Lines 116-125: the status of one resolved training, [None] when the
    training is skipped or not flagged. *)
Definition status (reference_date : Datetime.t) (details : Details.t)
  : result (option string) :=
  match truthy (Details.expires details) with
  | None => Ok None
  | Some expiry_str =>
      expiry_date <- strptime expiry_str ;;
      if Datetime.gtb reference_date expiry_date then Ok (Some "expired")
      else
        limit <- Datetime.add_days reference_date 30 ;;
        if Datetime.leb expiry_date limit then Ok (Some "expires soon")
        else Ok None
  end.

(** Lines 115-132: the flagged trainings of a person, in the order of the
    resolved mapping. *)
Fixpoint flags (reference_date : Datetime.t) (most_recent : list (string * Details.t))
  : result (list Flag.t) :=
  match most_recent with
  | [] => Ok []
  | (training_name, details) :: rest =>
      s <- status reference_date details ;;
      fs <- flags reference_date rest ;;
      Ok (match s with
          | Some st => Flag.make training_name st :: fs
          | None => fs
          end)
  end.

(** Lines 111-139: the entry of a person, [None] when nothing is flagged. *)
Definition entry (reference_date : Datetime.t) (person : Person.t)
  : result (option Report.t) :=
  most_recent <- get_most_recent_completions (Person.get_completions person) ;;
  trainings <- flags reference_date (Dict.items most_recent) ;;
  match trainings with
  | [] => Ok None
  | _ :: _ =>
      name <- Person.getitem_name person ;;
      Ok (Some (Report.make name trainings))
  end.

(** Lines 107-139: the entries of the people that have one, in input order. *)
Fixpoint report (data : list Person.t) (reference_date : Datetime.t)
  : result (list Report.t) :=
  match data with
  | [] => Ok []
  | person :: rest =>
      e <- entry reference_date person ;;
      r <- report rest reference_date ;;
      Ok (match e with
          | Some x => x :: r
          | None => r
          end)
  end.

End Loops.

(** The point of the time line [n] days after [d]. *)
Definition days_after (n : Z) (d : Datetime.t) : Datetime.t :=
  d + n * Datetime.us_per_day.

(** ** The fiscal-year report *)

(** July 1 of the year before the fiscal year, and June 30 of the fiscal
    year, as points of the time line. *)
Definition fiscal_start_of (fiscal_year : Z) : Datetime.t :=
  Datetime.of_ordinal (Datetime.ymd2ord (fiscal_year - 1) 7 1).

(** June 30 of the fiscal year. *)
Definition fiscal_end_of (fiscal_year : Z) : Datetime.t :=
  Datetime.of_ordinal (Datetime.ymd2ord fiscal_year 6 30).

(** The date lies in the window of the fiscal year, both ends included. *)
Definition in_fiscal_year (fiscal_year : Z) (d : Datetime.t) : bool :=
  Datetime.leb (fiscal_start_of fiscal_year) d
  && Datetime.leb d (fiscal_end_of fiscal_year).

(** The completion counts for [training] in the fiscal year: its [name] is
    that training, its [timestamp] is present and parses, and the parsed
    date lies in the window, both ends included. *)
Definition qualifies (fiscal_year : Z) (training : string) (c : Completion.t) : bool :=
  match Completion.name c, truthy (Completion.timestamp c) with
  | Some n, Some ts =>
      String.eqb n training
      && match strptime ts with
         | Ok d => in_fiscal_year fiscal_year d
         | Raise _ => false
         end
  | _, _ => false
  end.

(** The name of a person as a list: empty when the field is absent. *)
Definition name_list (p : Person.t) : list string :=
  match Person.name p with
  | Some n => [n]
  | None => []
  end.

(** The names of the people whose completions count for [training], one
    per such completion, in input order. *)
Definition completers (fiscal_year : Z) (training : string) (data : list Person.t)
  : list string :=
  flat_map
    (fun p =>
       flat_map (fun c => if qualifies fiscal_year training c then name_list p else [])
         (Person.get_completions p))
    data.

(** The names of a list in the order given, each at its first place. *)
Fixpoint first_occurrences (l : list string) : list string :=
  match l with
  | [] => []
  | x :: l' => x :: filter (fun y => negb (String.eqb y x)) (first_occurrences l')
  end.

(** The mapping the filter is to return. *)
Definition fiscal_report (data : list Person.t) (trainings : list string)
  (fiscal_year : Z) : Dict.t (list string) :=
  map (fun t => (t, completers fiscal_year t data)) (first_occurrences trainings).

(** The timestamp the filter parses for a completion: the one of a
    completion of a requested training, when it is not empty. *)
Definition examined (trainings : list string) (c : Completion.t) : option string :=
  match Completion.name c, truthy (Completion.timestamp c) with
  | Some n, Some ts => if existsb (String.eqb n) trainings then Some ts else None
  | _, _ => None
  end.

(** The completion raises nothing: what is parsed for it parses, and the
    person has a [name] when the date lies in the window. *)
Definition completion_ok (fiscal_year : Z) (trainings : list string) (p : Person.t)
  (c : Completion.t) : bool :=
  match examined trainings c with
  | None => true
  | Some ts =>
      match strptime ts with
      | Raise _ => false
      | Ok d =>
          if in_fiscal_year fiscal_year d
          then match Person.name p with Some _ => true | None => false end
          else true
      end
  end.

(** The input on which the filter returns: a fiscal year whose window lies
    in the years 1 .. 9999, and completions that raise nothing. *)
Definition well_formed (data : list Person.t) (trainings : list string)
  (fiscal_year : Z) : bool :=
  (2 <=? fiscal_year) && (fiscal_year <=? 9999)
  && forallb
       (fun p => forallb (completion_ok fiscal_year trainings p) (Person.get_completions p))
       data.

(** A dictionary with the keys [ks], in that order, and the value [f k] at [k]. *)
Definition table {V : Type} (ks : list string) (f : string -> V) : Dict.t V :=
  map (fun k => (k, f k)) ks.

(** ** The expiry report of the specification *)

(** MostRecentCompletionResolver and ExpiryStatusReporter as the
    specification words them.  Nothing here is taken from the program but
    the parser of dates and the reading of the fields: the resolver is
    given by the maximum of the parsed timestamps, the 30 days are added
    on the time line, and the name of a person is an optional field like
    the others.  A date that does not parse is the one error. *)
Module Spec.

(** Resolver, first rule: a completion missing [name] or [timestamp] is
    skipped; the timestamps of the others are parsed. *)
Fixpoint parsed (completions : list Completion.t)
  : result (list (string * Details.t)) :=
  match completions with
  | [] => Ok []
  | c :: rest =>
      match reading c with
      | None => parsed rest
      | Some (training, timestamp) =>
          date <- strptime timestamp ;;
          ps <- parsed rest ;;
          Ok ((training, Details.make date (Completion.expires c)) :: ps)
      end
  end.

(** The parsed completions of one training, in the order of the list. *)
Definition of_training (training : string) (ps : list (string * Details.t))
  : list Details.t :=
  map snd (filter (fun p => String.eqb (fst p) training) ps).

(** Resolver, second rule: the completion with the maximum parsed
    timestamp, the first encountered of those that share it. *)
Definition latest (ds : list Details.t) : option Details.t :=
  find (fun d =>
          forallb (fun d' => Details.timestamp d' <=? Details.timestamp d) ds)
       ds.

(** The resolved mapping, a training at the place where it is first
    encountered; the [expires] of an entry is the one of the winning
    completion. *)
Definition resolve (completions : list Completion.t)
  : result (list (string * Details.t)) :=
  ps <- parsed completions ;;
  Ok (flat_map
        (fun training =>
           match latest (of_training training ps) with
           | Some d => [(training, d)]
           | None => []
           end)
        (first_occurrences (map fst ps))).

(** Steps 2 and 3: no status when [expires] is absent (or empty);
    otherwise the two tests in their order, on the time line. *)
Definition status (referenceDate : Datetime.t) (expires : option string)
  : result (option string) :=
  match expires with
  | None => Ok None
  | Some EmptyString => Ok None
  | Some expires =>
      expiryDate <- strptime expires ;;
      Ok (if referenceDate >? expiryDate then Some "expired"
          else if expiryDate <=? days_after 30 referenceDate then Some "expires soon"
          else None)
  end.

(** Step 4: the flagged trainings, in the order of the resolved mapping. *)
Fixpoint flags (referenceDate : Datetime.t) (mostRecent : list (string * Details.t))
  : result (list Flag.t) :=
  match mostRecent with
  | [] => Ok []
  | (trainingName, details) :: rest =>
      s <- status referenceDate (Details.expires details) ;;
      fs <- flags referenceDate rest ;;
      Ok (match s with
          | Some st => Flag.make trainingName st :: fs
          | None => fs
          end)
  end.

(** An entry of the report, with the name as the person has it. *)
Module Entry.
Record t : Type := make {
  name : option string;
  trainings : list Flag.t
}.
End Entry.

(** Steps 1 and 5: the entry of a person, [None] when nothing is flagged. *)
Definition entry (referenceDate : Datetime.t) (person : Person.t)
  : result (option Entry.t) :=
  mostRecent <- resolve (Person.get_completions person) ;;
  trainings <- flags referenceDate mostRecent ;;
  Ok (match trainings with
      | [] => None
      | _ :: _ => Some (Entry.make (Person.name person) trainings)
      end).

(** The report: the entries of the people that have one, in input order. *)
Fixpoint report (people : list Person.t) (referenceDate : Datetime.t)
  : result (list Entry.t) :=
  match people with
  | [] => Ok []
  | person :: rest =>
      e <- entry referenceDate person ;;
      r <- report rest referenceDate ;;
      Ok (match e with
          | Some x => x :: r
          | None => r
          end)
  end.

(** An entry of the program's report as an entry of this one. *)
Definition of_report (r : Report.t) : Entry.t :=
  Entry.make (Some (Report.name r)) (Report.trainings r).

End Spec.

(** ** People *)

(** The person without the [name] field. *)
Definition without_name (p : Person.t) : Person.t :=
  Person.make None (Person.completions p).

(** [q] is [p], or [p] with the empty list in the place of an absent
    [completions] field. *)
Definition filled (p q : Person.t) : Prop :=
  q = p \/ (Person.completions p = None /\ q = Person.make (Person.name p) (Some [])).

(** ** Sample data *)

Definition alice : Person.t :=
  Person.make (Some "Alice")
    (Some [Completion.make (Some "X-Ray Safety") (Some "01/15/2024") (Some "01/15/2025");
           Completion.make (Some "Lab Safety") (Some "7/1/2023") None;
           Completion.make (Some "X-Ray Safety") (Some "01/15/2023") (Some "01/15/2024");
           Completion.make (Some "") (Some "01/15/2023") None;
           Completion.make None (Some "01/15/2023") None]).

Definition bob : Person.t :=
  Person.make (Some "Bob")
    (Some [Completion.make (Some "Lab Safety") (Some "6/30/2024") (Some "10/31/2023");
           Completion.make (Some "Lab Safety") (Some "7/1/2024") (Some "11/1/2023");
           Completion.make (Some "Lab Safety") (Some "6/30/2023") (Some "9/30/2023")]).

Definition carol : Person.t := Person.make (Some "Carol") None.

Definition dana : Person.t :=
  Person.make (Some "Dana")
    (Some [Completion.make (Some "Lab Safety") (Some "7/1/2023") None;
           Completion.make (Some "Lab Safety") (Some "6/30/2023") None;
           Completion.make (Some "Lab Safety") (Some "06/30/2024") (Some "06/30/2025");
           Completion.make (Some "Lab Safety") (Some "7/1/2024") None;
           Completion.make (Some "Welding") (Some "01/15/2024") None]).

Definition erin : Person.t :=
  Person.make (Some "Erin")
    (Some [Completion.make (Some "Lab Safety") (Some "12/25/2023") None]).

(** One date spelled in two ways, with different [expires]. *)
Definition padded : Completion.t :=
  Completion.make (Some "Lab Safety") (Some "01/05/2024") (Some "01/05/2025").

Definition unpadded : Completion.t :=
  Completion.make (Some "Lab Safety") (Some "1/5/2024") (Some "01/05/2026").

(** Completions with an empty string in one of the fields. *)
Definition frank : Person.t :=
  Person.make (Some "Frank")
    (Some [Completion.make (Some "") (Some "01/05/2024") (Some "01/05/2025");
           Completion.make (Some "Lab Safety") (Some "") (Some "01/05/2025");
           Completion.make (Some "Welding") (Some "01/05/2024") (Some "")]).

(** A timestamp in another format. *)
Definition mallory : Person.t :=
  Person.make (Some "Mallory")
    (Some [Completion.make (Some "Lab Safety") (Some "2023-07-01") None]).

(** An expiry that is no date. *)
Definition trent : Person.t :=
  Person.make (Some "Trent")
    (Some [Completion.make (Some "Lab Safety") (Some "7/1/2023") (Some "July 2024")]).

(** A person without [name] whose training expired on 2023-09-30. *)
Definition nameless : Person.t :=
  Person.make None
    (Some [Completion.make (Some "Lab Safety") (Some "9/30/2022") (Some "9/30/2023")]).

(** 2025-01-01. *)
Definition new_year_2025 : Datetime.t :=
  Datetime.of_ordinal (Datetime.ymd2ord 2025 1 1).

(** 2023-10-01, the reference date of the program's own run. *)
Definition october_first : Datetime.t := Datetime.of_ordinal 738794.

(** 9999-12-31, the last day of the date type. *)
Definition last_day : Datetime.t := Datetime.of_ordinal Datetime.MAXORDINAL.

(** A resolved training that expires on the last day. *)
Definition last_day_training : Details.t :=
  Details.make (Datetime.of_ordinal 3651713) (Some "12/31/9999").

(** A person whose training expires on the last day. *)
Definition last_day_person : Person.t :=
  Person.make (Some "Alice")
    (Some [Completion.make (Some "X-Ray Safety") (Some "01/15/9999") (Some "12/31/9999")]).

(** 9999-12-15. *)
Definition mid_december_9999 : Datetime.t :=
  Datetime.of_ordinal (Datetime.ymd2ord 9999 12 15).

(** One training completed twice, the later completion second or first. *)
Definition early : Completion.t :=
  Completion.make (Some "Lab Safety") (Some "3/1/2022") (Some "3/1/2023").

Definition late : Completion.t :=
  Completion.make (Some "Lab Safety") (Some "3/1/2023") (Some "1/15/2025").

(** ** Tactics *)

(** Evaluates the month tables at a given month. *)
Ltac eval_month :=
  repeat match goal with
    | |- context [Z.to_nat ?n] =>
        let v := eval vm_compute in (Z.to_nat n) in change (Z.to_nat n) with v
    | H : context [Z.to_nat ?n] |- _ =>
        let v := eval vm_compute in (Z.to_nat n) in change (Z.to_nat n) with v in H
    end;
  cbn [nth Datetime.DAYS_IN_MONTH Datetime.DAYS_BEFORE_MONTH
       Z.eqb Z.gtb Z.compare Pos.compare Pos.compare_cont Pos.eqb andb] in *.

(** ** Further notions *)

(** The non-empty training names of the dataset, completion after
    completion. *)
Definition counted_names (data : list Person.t) : list string :=
  flat_map
    (fun c => match truthy (Completion.name c) with Some n => [n] | None => [] end)
    (all_completions data).

(** The completion is one of a requested training. *)
Definition requested (trainings : list string) (c : Completion.t) : bool :=
  match Completion.name c with
  | Some n => existsb (String.eqb n) trainings
  | None => false
  end.

(** The person with only the completions of the requested trainings. *)
Definition restrict_to (trainings : list string) (p : Person.t) : Person.t :=
  Person.make (Person.name p)
    (Some (filter (requested trainings) (Person.get_completions p))).

(** The completion has the name [t]. *)
Definition named (t : string) (c : Completion.t) : bool :=
  match Completion.name c with
  | Some n => String.eqb n t
  | None => false
  end.

(** The keys of the dictionary are the requested trainings. *)
Definition keys_are (trainings : list string) (tr : Dict.t (list string)) : Prop :=
  forall n, Dict.contains tr n = existsb (String.eqb n) trainings.

(** [m'] has the keys of [m] first and in the same order, and at each of
    them an entry that is not older. *)
Definition extends (m m' : Dict.t Details.t) : Prop :=
  (exists rest, Dict.keys m' = Dict.keys m ++ rest)
  /\ forall n d, Dict.get m n = Some d ->
       exists d', Dict.get m' n = Some d'
                  /\ Details.timestamp d <= Details.timestamp d'.

(** [l1] is [l2] with some elements left out. *)
Inductive subseq {A : Type} : list A -> list A -> Prop :=
| subseq_nil : subseq [] []
| subseq_skip (x : A) (l1 l2 : list A) : subseq l1 l2 -> subseq l1 (x :: l2)
| subseq_take (x : A) (l1 l2 : list A) : subseq l1 l2 -> subseq (x :: l1) (x :: l2).

(** The person has a [name], and the non-empty timestamps and expiry dates
    of the person's completions parse. *)
Definition clean (p : Person.t) : Prop :=
  Person.name p <> None
  /\ forall c, In c (Person.get_completions p) ->
       (forall ts, truthy (Completion.timestamp c) = Some ts ->
                   exists d, strptime ts = Ok d)
       /\ (forall e, truthy (Completion.expires c) = Some e ->
                     exists d, strptime e = Ok d).

(** ** The program *)

(** What [json.dump] writes to a file: the value one of the three tasks
    returns. *)
Inductive dumped : Type :=
| Counts (training_count : Dict.t nat)
| Completed (training_results : Dict.t (list string))
| Expiring (results : list Report.t).

Module Main.

(** Line 155. *)
Definition trainings : list string :=
  ["Electrical Safety for Labs"; "X-Ray Safety"; "Laboratory Safety Training"].

(** Line 156. *)
Definition fiscal_year : Z := 2024.

(** Line 160. *)
Definition reference_date : result Datetime.t := strptime "10/1/2023".

(** The program on the loaded data (lines 151-161): the three tasks in
    order, each writing its file once its value is computed.  The value is
    the files written, oldest first, and the exception that ended the
    run, if any. *)
Definition main (data : list Person.t) : list (string * dumped) * option exn :=
  let files := [("task_1_training_count.json", Counts (get_training_count data))] in
  match get_completed_trainings data trainings fiscal_year with
  | Raise e => (files, Some e)
  | Ok training_results =>
      let files :=
        files ++ [("task_2_completed_trainings.json", Completed training_results)] in
      match reference_date with
      | Raise e => (files, Some e)
      | Ok reference_date =>
          match get_expired_or_expiring_trainings data reference_date with
          | Raise e => (files, Some e)
          | Ok results =>
              (files ++ [("task_3_expired_or_expiring_trainings.json", Expiring results)],
               None)
          end
      end
  end.

End Main.

(** * Facts about the building blocks *)

(** ** Loops *)

Lemma for_each_app {A S : Type} (body : S -> A -> result S) (l1 l2 : list A) (s : S) :
  for_each body (l1 ++ l2) s = (s' <- for_each body l1 s ;; for_each body l2 s').
Proof.
  revert s. induction l1 as [|x l1 IH]; intros s; simpl; [reflexivity|].
  destruct (body s x) as [s'|e]; simpl; [apply IH | reflexivity].
Qed.

Lemma for_each_ext {A S : Type} (f g : S -> A -> result S) (l : list A) (s : S) :
  (forall s x, In x l -> f s x = g s x) -> for_each f l s = for_each g l s.
Proof.
  revert s. induction l as [|x l IH]; intros s H; simpl; [reflexivity|].
  rewrite (H s x (or_introl eq_refl)).
  destruct (g s x) as [s'|e]; simpl; [|reflexivity].
  apply IH. intros s0 y Hy. apply H. right. exact Hy.
Qed.

(** An invariant of the state that makes the body raise at one element
    makes the loop raise. *)
Lemma for_each_raises {A S : Type} (body : S -> A -> result S) (I : S -> Prop)
  (x : A) (l : list A) :
  (forall s y s', I s -> body s y = Ok s' -> I s') ->
  (forall s, I s -> exists e, body s x = Raise e) ->
  In x l ->
  forall s, I s -> exists e, for_each body l s = Raise e.
Proof.
  intros Hstep Hx. induction l as [|y l IH]; intros Hin s Hs; [destruct Hin|].
  simpl. destruct Hin as [->|Hin].
  - destruct (Hx s Hs) as [e ->]. exists e. reflexivity.
  - destruct (body s y) as [s'|e] eqn:E; simpl.
    + apply IH; [exact Hin | eapply Hstep; eauto].
    + exists e. reflexivity.
Qed.

(** ** Dictionaries *)

Section DictFacts.
Context {V : Type}.
Implicit Types (d : Dict.t V) (k : string) (v : V).

Lemma get_set_eq d k v : Dict.get (Dict.set d k v) k = Some v.
Proof.
  induction d as [|[k' v'] d IH]; simpl.
  - rewrite String.eqb_refl. reflexivity.
  - destruct (String.eqb k' k) eqn:E; simpl; rewrite E; [reflexivity | exact IH].
Qed.

Lemma get_set_ne d k k' v : k <> k' -> Dict.get (Dict.set d k v) k' = Dict.get d k'.
Proof.
  intros Hne. induction d as [|[k0 v0] d IH]; simpl.
  - destruct (String.eqb_spec k k'); [contradiction | reflexivity].
  - destruct (String.eqb_spec k0 k) as [->|Hk]; simpl.
    + destruct (String.eqb_spec k k'); [contradiction | reflexivity].
    + destruct (String.eqb k0 k'); [reflexivity | exact IH].
Qed.

Lemma get_set d k k' v :
  Dict.get (Dict.set d k v) k' = if String.eqb k k' then Some v else Dict.get d k'.
Proof.
  destruct (String.eqb_spec k k') as [->|Hne];
    [apply get_set_eq | apply get_set_ne; exact Hne].
Qed.

Lemma get_None_keys d k : Dict.get d k = None <-> ~ In k (Dict.keys d).
Proof.
  induction d as [|[k' v'] d IH]; simpl; [tauto|].
  destruct (String.eqb_spec k' k) as [->|Hne].
  - split; [discriminate | intros H; exfalso; apply H; left; reflexivity].
  - rewrite IH. split.
    + intros H [Heq|Hin]; [contradiction | exact (H Hin)].
    + intros H Hin. apply H. right. exact Hin.
Qed.

(** Assigning to a key that is present changes no key. *)
Lemma keys_set_present d k v :
  Dict.get d k <> None -> Dict.keys (Dict.set d k v) = Dict.keys d.
Proof.
  induction d as [|[k' v'] d IH]; simpl; [congruence|].
  destruct (String.eqb k' k); simpl; [reflexivity|].
  intros H. rewrite (IH H). reflexivity.
Qed.

(** Assigning to a new key puts it last. *)
Lemma set_absent d k v : Dict.get d k = None -> Dict.set d k v = d ++ [(k, v)].
Proof.
  induction d as [|[k' v'] d IH]; simpl; [reflexivity|].
  destruct (String.eqb k' k); [discriminate|].
  intros H. rewrite (IH H). reflexivity.
Qed.

Lemma keys_set_absent d k v :
  Dict.get d k = None -> Dict.keys (Dict.set d k v) = Dict.keys d ++ [k].
Proof.
  intros H. rewrite (set_absent _ _ _ H). unfold Dict.keys. rewrite map_app.
  reflexivity.
Qed.

Lemma NoDup_keys_set d k v : NoDup (Dict.keys d) -> NoDup (Dict.keys (Dict.set d k v)).
Proof.
  intros Hnd. destruct (Dict.get d k) eqn:E.
  - rewrite keys_set_present; [exact Hnd | congruence].
  - rewrite (keys_set_absent _ _ _ E).
    apply NoDup_app; [exact Hnd | repeat constructor; intros [] |].
    intros x Hx [<-|[]]. apply get_None_keys in E. exact (E Hx).
Qed.
End DictFacts.

(** * Task 1: the count per training *)

Lemma fold_left_flat_map {A B S : Type} (f : S -> B -> S) (inner : A -> list B)
  (l : list A) (s : S) :
  fold_left (fun s x => fold_left f (inner x) s) l s = fold_left f (flat_map inner l) s.
Proof.
  revert s. induction l as [|x l IH]; intros s; simpl; [reflexivity|].
  rewrite fold_left_app. apply IH.
Qed.

Lemma get_training_count_flat data :
  get_training_count data = fold_left count_completion (all_completions data) Dict.empty.
Proof. apply fold_left_flat_map. Qed.

Lemma truthy_name_carries c n :
  truthy (Completion.name c) = Some n -> forall k, carries k c = String.eqb n k.
Proof.
  unfold carries. destruct (Completion.name c) as [[|a r]|]; simpl; try discriminate.
  intros [= <-] k. apply andb_true_r.
Qed.

Lemma truthy_name_None c : truthy (Completion.name c) = None -> forall k, carries k c = false.
Proof.
  unfold carries. destruct (Completion.name c) as [[|a r]|]; simpl; try discriminate.
  - intros _ k. apply andb_false_r.
  - reflexivity.
Qed.

Lemma get_count_completion d c k :
  Dict.get (count_completion d c) k
  = if carries k c then Some (S (count_of d k)) else Dict.get d k.
Proof.
  unfold count_completion, increment.
  destruct (truthy (Completion.name c)) as [n|] eqn:E.
  - rewrite (truthy_name_carries _ _ E).
    destruct (String.eqb_spec n k) as [->|Hne].
    + unfold count_of. destruct (Dict.get d k) as [m|]; rewrite get_set_eq;
        [f_equal; lia | reflexivity].
    + destruct (Dict.get d n); apply get_set_ne; exact Hne.
  - rewrite (truthy_name_None _ E). reflexivity.
Qed.

Lemma get_count_fold cs : forall d k,
  Dict.get (fold_left count_completion cs d) k
  = match length (filter (carries k) cs) with
    | O => Dict.get d k
    | S m => Some (count_of d k + S m)%nat
    end.
Proof.
  induction cs as [|c cs IH]; intros d k; simpl; [reflexivity|].
  rewrite IH. unfold count_of at 1. rewrite get_count_completion.
  destruct (carries k c); simpl.
  - destruct (length (filter (carries k) cs)); f_equal; lia.
  - reflexivity.
Qed.

Lemma NoDup_keys_count_completion d c :
  NoDup (Dict.keys d) -> NoDup (Dict.keys (count_completion d c)).
Proof.
  intros H. unfold count_completion, increment.
  destruct (truthy (Completion.name c)); [|exact H].
  destruct (Dict.get d s); apply NoDup_keys_set; exact H.
Qed.

Lemma NoDup_keys_count_fold cs : forall d,
  NoDup (Dict.keys d) -> NoDup (Dict.keys (fold_left count_completion cs d)).
Proof.
  induction cs as [|c cs IH]; intros d H; simpl; [exact H|].
  apply IH, NoDup_keys_count_completion, H.
Qed.

Lemma sum_values_set_succ (d : Dict.t nat) k :
  list_sum (Dict.values (Dict.set d k (S (count_of d k)))) = S (list_sum (Dict.values d)).
Proof.
  unfold count_of. induction d as [|[k' v'] d IH]; simpl; [reflexivity|].
  destruct (String.eqb k' k); simpl; [reflexivity|].
  rewrite IH. lia.
Qed.

Lemma sum_values_count_completion d c :
  list_sum (Dict.values (count_completion d c))
  = ((if has_name c then 1 else 0) + list_sum (Dict.values d))%nat.
Proof.
  unfold count_completion, increment, has_name.
  destruct (Completion.name c) as [[|a r]|]; simpl; try reflexivity.
  pose proof (sum_values_set_succ d (String a r)) as H. unfold count_of in H.
  destruct (Dict.get d (String a r)) as [m|].
  - replace (m + 1)%nat with (S m) by lia. exact H.
  - exact H.
Qed.

Lemma sum_values_count_fold cs : forall d,
  list_sum (Dict.values (fold_left count_completion cs d))
  = (length (filter has_name cs) + list_sum (Dict.values d))%nat.
Proof.
  induction cs as [|c cs IH]; intros d; simpl; [reflexivity|].
  rewrite IH, sum_values_count_completion.
  destruct (has_name c); simpl; lia.
Qed.

(** C4. [get_training_count] maps each training name to the number of
    completions, over all people, that carry that non-empty name; a name
    carried by no completion is not a key; each key occurs once, and the
    values add up to the number of completions with a non-empty name. *)
Theorem get_training_count_counts (data : list Person.t) :
  (forall n : string,
      Dict.get (get_training_count data) n
      = match length (filter (carries n) (all_completions data)) with
        | O => None
        | S m => Some (S m)
        end)
  /\ (forall n : string,
         In n (Dict.keys (get_training_count data))
         <-> (0 < length (filter (carries n) (all_completions data)))%nat)
  /\ NoDup (Dict.keys (get_training_count data))
  /\ list_sum (Dict.values (get_training_count data))
     = length (filter has_name (all_completions data)).
Proof.
  rewrite get_training_count_flat.
  assert (Hget : forall n,
    Dict.get (fold_left count_completion (all_completions data) Dict.empty) n
    = match length (filter (carries n) (all_completions data)) with
      | O => None
      | S m => Some (S m)
      end).
  { intros n. rewrite get_count_fold. reflexivity. }
  split; [exact Hget|]. split; [|split].
  - intros n. specialize (Hget n).
    destruct (length (filter (carries n) (all_completions data))) as [|m].
    + apply get_None_keys in Hget. split; [contradiction | lia].
    + split; [lia|]. intros _.
      destruct (in_dec string_dec n
        (Dict.keys (fold_left count_completion (all_completions data) Dict.empty)))
        as [Hin|Hout]; [exact Hin|].
      apply get_None_keys in Hout. congruence.
  - apply NoDup_keys_count_fold. constructor.
  - rewrite sum_values_count_fold. simpl. lia.
Qed.

(** * The most recent completion per training *)

(** What the groups of the pattern can match. *)
Lemma one_Some {A : Type} lo hi s (k : Z -> string -> option A) x :
  Strptime.one lo hi s k = Some x -> exists v r, lo <= v <= hi /\ k v r = Some x.
Proof.
  unfold Strptime.one, Strptime.digit_in. destruct s as [|c r]; [discriminate|].
  destruct (Strptime.digit c) as [v|]; [|discriminate].
  destruct (Z.leb_spec lo v), (Z.leb_spec v hi); simpl; try discriminate.
  intros Hk. exists v, r. split; [lia | exact Hk].
Qed.

Lemma lit_Some {A : Type} c s (k : string -> option A) x :
  Strptime.lit c s k = Some x -> exists r, k r = Some x.
Proof.
  unfold Strptime.lit. destruct s as [|c' r]; [discriminate|].
  destruct (Ascii.eqb c' c); [|discriminate]. intros H. exists r. exact H.
Qed.

Lemma orelse_Some {A : Type} (x y : option A) a :
  Strptime.orelse x y = Some a -> x = Some a \/ y = Some a.
Proof. destruct x; simpl; intros H; [left | right]; exact H. Qed.

Lemma re_m_Some {A : Type} s (k : Z -> string -> option A) x :
  Strptime.re_m s k = Some x -> exists v r, 1 <= v <= 12 /\ k v r = Some x.
Proof.
  unfold Strptime.re_m. intros H.
  apply orelse_Some in H. destruct H as [H|H]; [|apply orelse_Some in H; destruct H as [H|H]].
  - apply lit_Some in H. destruct H as [r H]. apply one_Some in H.
    destruct H as (v & r' & Hv & H). exists (10 + v), r'. split; [lia | exact H].
  - apply lit_Some in H. destruct H as [r H]. apply one_Some in H.
    destruct H as (v & r' & Hv & H). exists v, r'. split; [lia | exact H].
  - apply one_Some in H. destruct H as (v & r' & Hv & H). exists v, r'.
    split; [lia | exact H].
Qed.

Lemma re_d_Some {A : Type} s (k : Z -> string -> option A) x :
  Strptime.re_d s k = Some x -> exists v r, 1 <= v <= 31 /\ k v r = Some x.
Proof.
  unfold Strptime.re_d. intros H.
  repeat (apply orelse_Some in H; destruct H as [H|H]).
  - apply lit_Some in H. destruct H as [r H]. apply one_Some in H.
    destruct H as (v & r' & Hv & H). exists (30 + v), r'. split; [lia | exact H].
  - apply one_Some in H. destruct H as (t & r & Ht & H). apply one_Some in H.
    destruct H as (v & r' & Hv & H). exists (10 * t + v), r'. split; [lia | exact H].
  - apply lit_Some in H. destruct H as [r H]. apply one_Some in H.
    destruct H as (v & r' & Hv & H). exists v, r'. split; [lia | exact H].
  - apply one_Some in H. destruct H as (v & r' & Hv & H). exists v, r'.
    split; [lia | exact H].
  - apply lit_Some in H. destruct H as [r H]. apply one_Some in H.
    destruct H as (v & r' & Hv & H). exists v, r'. split; [lia | exact H].
Qed.

Lemma re_Y_Some {A : Type} s (k : Z -> string -> option A) x :
  Strptime.re_Y s k = Some x -> exists v r, 0 <= v <= 9999 /\ k v r = Some x.
Proof.
  unfold Strptime.re_Y. intros H.
  apply one_Some in H. destruct H as (a & r1 & Ha & H).
  apply one_Some in H. destruct H as (b & r2 & Hb & H).
  apply one_Some in H. destruct H as (c & r3 & Hc & H).
  apply one_Some in H. destruct H as (d & r4 & Hd & H).
  exists (1000 * a + 100 * b + 10 * c + d), r4. split; [lia | exact H].
Qed.

Lemma re_match_bounds s m d y rest :
  Strptime.re_match s = Some (m, d, y, rest) ->
  1 <= m <= 12 /\ 1 <= d <= 31 /\ 0 <= y <= 9999.
Proof.
  unfold Strptime.re_match. intros H.
  apply re_m_Some in H. destruct H as (m' & s1 & Hm & H).
  apply lit_Some in H. destruct H as (s2 & H).
  apply re_d_Some in H. destruct H as (d' & s3 & Hd & H).
  apply lit_Some in H. destruct H as (s4 & H).
  apply re_Y_Some in H. destruct H as (y' & r & Hy & H).
  injection H as <- <- <- _. repeat split; lia.
Qed.

(** The constructor on arguments that fit a C [int]. *)
Lemma fits_int_spec n :
  Datetime.fits_int n = true <-> Datetime.INT_MIN <= n <= Datetime.INT_MAX.
Proof. unfold Datetime.fits_int. rewrite andb_true_iff, !Z.leb_le. tauto. Qed.

Lemma make_fits y m d :
  Datetime.fits_int y = true -> 1 <= m <= 12 -> 1 <= d <= 31 ->
  Datetime.make y m d
  = if Datetime.valid_date y m d
    then Ok (Datetime.of_ordinal (Datetime.ymd2ord y m d))
    else Raise ValueError.
Proof.
  intros Hy Hm Hd. unfold Datetime.make. rewrite Hy.
  assert (Em : Datetime.fits_int m = true).
  { apply fits_int_spec. unfold Datetime.INT_MIN, Datetime.INT_MAX. lia. }
  assert (Ed : Datetime.fits_int d = true).
  { apply fits_int_spec. unfold Datetime.INT_MIN, Datetime.INT_MAX. lia. }
  rewrite Em, Ed. reflexivity.
Qed.

(** The parser raises nothing but [ValueError]: the fields it reads are
    small numbers. *)
Lemma strptime_raises s e : strptime s = Raise e -> e = ValueError.
Proof.
  unfold strptime, Strptime.strptime.
  destruct (Strptime.re_match s) as [[[[m d] y] [|a r]]|] eqn:E; try congruence.
  apply re_match_bounds in E. destruct E as (Hm & Hd & Hy).
  rewrite make_fits; try assumption.
  - destruct (Datetime.valid_date y m d); congruence.
  - apply fits_int_spec. unfold Datetime.INT_MIN, Datetime.INT_MAX. lia.
Qed.

(** The loop body in terms of what is read off the completion. *)
Lemma update_most_recent_eq m c :
  update_most_recent m c
  = match reading c with
    | Some (n, ts) =>
        t <- strptime ts ;;
        if is_more_recent m n t
        then Ok (Dict.set m n (Details.make t (Completion.expires c)))
        else Ok m
    | None => Ok m
    end.
Proof.
  unfold update_most_recent, reading.
  destruct (truthy (Completion.name c)); [|reflexivity].
  destruct (truthy (Completion.timestamp c)); reflexivity.
Qed.

Lemma update_most_recent_skip m c : is_read c = false -> update_most_recent m c = Ok m.
Proof.
  unfold is_read. rewrite update_most_recent_eq.
  destruct (reading c) as [[n ts]|]; [discriminate | reflexivity].
Qed.

Lemma get_most_recent_completions_snoc cs c :
  get_most_recent_completions (cs ++ [c])
  = (m <- get_most_recent_completions cs ;; update_most_recent m c).
Proof.
  unfold get_most_recent_completions. rewrite for_each_app. simpl.
  destruct (for_each update_most_recent cs Dict.empty) as [m|e]; simpl; [|reflexivity].
  destruct (update_most_recent m c); reflexivity.
Qed.

Lemma dated_for_fun n n' t t' c : dated_for n t c -> dated_for n' t' c -> n = n' /\ t = t'.
Proof.
  intros [ts [H1 H2]] [ts' [H1' H2']]. rewrite H1 in H1'. injection H1' as <- <-.
  rewrite H2 in H2'. injection H2' as <-. split; reflexivity.
Qed.

Lemma most_recent_of_snoc_keep cs n d c :
  most_recent_of cs n d ->
  (forall t', dated_for n t' c -> t' <= Details.timestamp d) ->
  most_recent_of (cs ++ [c]) n d.
Proof.
  intros (l1 & c0 & l2 & -> & Hc0 & He & Hl1 & Hl2) Hc.
  exists l1, c0, (l2 ++ [c]). rewrite <- app_assoc. simpl.
  repeat split; try assumption.
  intros c' t' Hin Hd. apply in_app_or in Hin. destruct Hin as [Hin|[<-|[]]].
  - exact (Hl2 _ _ Hin Hd).
  - exact (Hc _ Hd).
Qed.

Lemma most_recent_of_snoc_new cs n t c :
  dated_for n t c ->
  (forall c' t', In c' cs -> dated_for n t' c' -> t' < t) ->
  most_recent_of (cs ++ [c]) n (Details.make t (Completion.expires c)).
Proof.
  intros Hc Hcs. exists cs, c, []. simpl. repeat split; try assumption.
  intros c' t' [].
Qed.

Lemma most_recent_of_bound cs n d c t :
  most_recent_of cs n d -> In c cs -> dated_for n t c -> t <= Details.timestamp d.
Proof.
  intros (l1 & c0 & l2 & -> & Hc0 & He & Hl1 & Hl2) Hin Hd.
  apply in_app_or in Hin. destruct Hin as [Hin|[<-|Hin]].
  - pose proof (Hl1 _ _ Hin Hd). lia.
  - destruct (dated_for_fun _ _ _ _ _ Hc0 Hd) as [_ <-]. lia.
  - exact (Hl2 _ _ Hin Hd).
Qed.

(** One more completion keeps the dictionary right for the longer list. *)
Lemma resolves_step cs m c m' :
  resolves cs m -> update_most_recent m c = Ok m' -> resolves (cs ++ [c]) m'.
Proof.
  intros [Hnd Hm]. rewrite update_most_recent_eq.
  destruct (reading c) as [[n0 ts0]|] eqn:Er.
  - destruct (strptime ts0) as [t0|e] eqn:Ep; simpl; [|discriminate].
    assert (Hc : dated_for n0 t0 c) by (exists ts0; split; assumption).
    unfold is_more_recent. pose proof (Hm n0) as Hn0.
    destruct (Dict.get m n0) as [d0|] eqn:Eg.
    + unfold Datetime.gtb. destruct (Z.gtb_spec t0 (Details.timestamp d0)) as [Hgt|Hle];
        intros [= <-].
      * split; [apply NoDup_keys_set; exact Hnd|]. intros n. rewrite get_set.
        destruct (String.eqb_spec n0 n) as [<-|Hne].
        -- apply most_recent_of_snoc_new; [exact Hc|].
           intros c' t' Hin Hd. pose proof (most_recent_of_bound _ _ _ _ _ Hn0 Hin Hd). lia.
        -- specialize (Hm n). destruct (Dict.get m n) as [d|].
           ++ apply most_recent_of_snoc_keep; [exact Hm|].
              intros t' Hd. destruct (dated_for_fun _ _ _ _ _ Hc Hd) as [E _]. contradiction.
           ++ intros c' ts' Hin. apply in_app_or in Hin. destruct Hin as [Hin|[<-|[]]].
              ** exact (Hm _ _ Hin).
              ** rewrite Er. congruence.
      * split; [exact Hnd|]. intros n. specialize (Hm n).
        destruct (Dict.get m n) as [d|] eqn:Egn.
        -- apply most_recent_of_snoc_keep; [exact Hm|].
           intros t' Hd. destruct (dated_for_fun _ _ _ _ _ Hc Hd) as [<- <-].
           rewrite Eg in Egn. injection Egn as <-. exact Hle.
        -- intros c' ts' Hin. apply in_app_or in Hin. destruct Hin as [Hin|[<-|[]]].
           ++ exact (Hm _ _ Hin).
           ++ rewrite Er. intros [= <- <-]. congruence.
    + intros [= <-].
      split; [apply NoDup_keys_set; exact Hnd|]. intros n. rewrite get_set.
      destruct (String.eqb_spec n0 n) as [<-|Hne].
      * apply most_recent_of_snoc_new; [exact Hc|].
        intros c' t' Hin [ts' [Hr _]]. exfalso. exact (Hn0 _ _ Hin Hr).
      * specialize (Hm n). destruct (Dict.get m n) as [d|].
        -- apply most_recent_of_snoc_keep; [exact Hm|].
           intros t' Hd. destruct (dated_for_fun _ _ _ _ _ Hc Hd) as [E _]. contradiction.
        -- intros c' ts' Hin. apply in_app_or in Hin. destruct Hin as [Hin|[<-|[]]].
           ++ exact (Hm _ _ Hin).
           ++ rewrite Er. congruence.
  - intros [= <-]. split; [exact Hnd|]. intros n. specialize (Hm n).
    destruct (Dict.get m n) as [d|].
    + apply most_recent_of_snoc_keep; [exact Hm|].
      intros t' [ts' [Hr _]]. congruence.
    + intros c' ts' Hin. apply in_app_or in Hin. destruct Hin as [Hin|[<-|[]]].
      * exact (Hm _ _ Hin).
      * congruence.
Qed.

(** So what the resolver returns is right for its input. *)
Lemma get_most_recent_completions_resolves cs : forall m,
  get_most_recent_completions cs = Ok m -> resolves cs m.
Proof.
  induction cs as [|c cs IH] using rev_ind; intros m.
  - intros [= <-]. split; [constructor|]. intros n c ts [].
  - rewrite get_most_recent_completions_snoc.
    destruct (get_most_recent_completions cs) as [m0|e]; simpl; [|discriminate].
    intros H. exact (resolves_step _ _ _ _ (IH _ eq_refl) H).
Qed.

(** The resolver returns exactly when every timestamp it reads parses, and
    raises [ValueError] otherwise. *)
Lemma get_most_recent_completions_total cs :
  if forallb parses cs
  then exists m, get_most_recent_completions cs = Ok m
  else get_most_recent_completions cs = Raise ValueError.
Proof.
  unfold get_most_recent_completions. generalize (@Dict.empty Details.t).
  induction cs as [|c cs IH]; intros m; simpl; [eexists; reflexivity|].
  rewrite update_most_recent_eq. unfold parses at 1.
  destruct (reading c) as [[n ts]|]; simpl; [|apply IH].
  destruct (strptime ts) as [t|e] eqn:Ep; simpl.
  - destruct (is_more_recent m n t); apply IH.
  - rewrite (strptime_raises _ _ Ep). reflexivity.
Qed.

(** Skipped completions can be left out of the list. *)
Lemma get_most_recent_completions_filter cs :
  get_most_recent_completions cs = get_most_recent_completions (filter is_read cs).
Proof.
  unfold get_most_recent_completions. generalize (@Dict.empty Details.t).
  induction cs as [|c cs IH]; intros m; simpl; [reflexivity|].
  destruct (is_read c) eqn:E; simpl.
  - destruct (update_most_recent m c); simpl; [apply IH | reflexivity].
  - rewrite (update_most_recent_skip _ _ E). simpl. apply IH.
Qed.

(** ** The order of the keys *)

Lemma In_first_occurrences x l : In x (first_occurrences l) <-> In x l.
Proof.
  induction l as [|y l IH]; simpl; [tauto|].
  rewrite filter_In, IH. destruct (String.eqb_spec x y) as [->|Hne]; simpl.
  - split; [intros _; left; reflexivity | intros _; left; reflexivity].
  - split.
    + intros [E|[H _]]; [left; exact E | right; exact H].
    + intros [E|H]; [left; exact E | right; split; [exact H | reflexivity]].
Qed.

Lemma first_occurrences_snoc l x :
  first_occurrences (l ++ [x])
  = if in_dec string_dec x l then first_occurrences l else first_occurrences l ++ [x].
Proof.
  induction l as [|y l IH]; simpl; [reflexivity|].
  rewrite IH. destruct (in_dec string_dec x l) as [Hin|Hout].
  - destruct (string_dec y x); reflexivity.
  - destruct (string_dec y x) as [->|Hne].
    + rewrite filter_app. simpl. rewrite String.eqb_refl. simpl.
      rewrite app_nil_r. reflexivity.
    + rewrite filter_app. simpl.
      destruct (String.eqb_spec x y) as [->|_]; [contradiction | reflexivity].
Qed.

Lemma read_names_snoc cs c :
  read_names (cs ++ [c])
  = read_names cs ++ match reading c with Some (n, _) => [n] | None => [] end.
Proof. unfold read_names. rewrite flat_map_app. simpl. rewrite app_nil_r. reflexivity. Qed.

Lemma keys_update_most_recent cs m c m' :
  Dict.keys m = first_occurrences (read_names cs) ->
  update_most_recent m c = Ok m' ->
  Dict.keys m' = first_occurrences (read_names (cs ++ [c])).
Proof.
  intros Hk. rewrite update_most_recent_eq, read_names_snoc.
  destruct (reading c) as [[n ts]|]; [|intros [= <-]; rewrite app_nil_r; exact Hk].
  destruct (strptime ts) as [t|e]; cbn [bind]; [|discriminate].
  rewrite first_occurrences_snoc. unfold is_more_recent.
  destruct (Dict.get m n) as [d|] eqn:Eg.
  - assert (Hin : In n (read_names cs)).
    { apply In_first_occurrences. rewrite <- Hk.
      destruct (in_dec string_dec n (Dict.keys m)) as [H|H]; [exact H|].
      apply get_None_keys in H. congruence. }
    destruct (in_dec string_dec n (read_names cs)); [|contradiction].
    destruct (Datetime.gtb t (Details.timestamp d)); intros [= <-]; [|exact Hk].
    rewrite keys_set_present; [exact Hk | congruence].
  - intros [= <-]. rewrite (keys_set_absent _ _ _ Eg), Hk.
    destruct (in_dec string_dec n (read_names cs)) as [Hin|_]; [|reflexivity].
    exfalso. apply get_None_keys in Eg. apply Eg. rewrite Hk.
    apply In_first_occurrences. exact Hin.
Qed.

(** The keys of the resolved mapping are the training names read, each at
    its first place. *)
Lemma get_most_recent_completions_keys cs : forall m,
  get_most_recent_completions cs = Ok m ->
  Dict.keys m = first_occurrences (read_names cs).
Proof.
  induction cs as [|c cs IH] using rev_ind; intros m.
  - intros [= <-]. reflexivity.
  - rewrite get_most_recent_completions_snoc.
    destruct (get_most_recent_completions cs) as [m0|e]; simpl; [|discriminate].
    intros H. exact (keys_update_most_recent _ _ _ _ (IH _ eq_refl) H).
Qed.

Lemma missing_truthy v : missing v -> truthy v = None.
Proof. intros [->| ->]; reflexivity. Qed.

Lemma missing_not_read c :
  missing (Completion.name c) \/ missing (Completion.timestamp c) -> is_read c = false.
Proof.
  unfold is_read, reading. intros [H|H]; rewrite (missing_truthy _ H).
  - reflexivity.
  - destruct (truthy (Completion.name c)); reflexivity.
Qed.

(** C3. [get_most_recent_completions] skips every completion whose [name]
    or [timestamp] is missing; it returns exactly when every timestamp it
    reads parses; and the mapping it returns has, for each training name
    among the remaining completions and for no other name, the entry of the
    completion with the largest parsed timestamp, the first one in the list
    when several share that timestamp, with that completion's [expires]
    as it stands (possibly absent).  Its keys stand in the order in which
    the training names are first read. *)
Theorem get_most_recent_completions_correct (cs : list Completion.t) :
  (forall c m,
      missing (Completion.name c) \/ missing (Completion.timestamp c) ->
      update_most_recent m c = Ok m)
  /\ get_most_recent_completions cs = get_most_recent_completions (filter is_read cs)
  /\ (if forallb parses cs
      then exists m, get_most_recent_completions cs = Ok m
      else get_most_recent_completions cs = Raise ValueError)
  /\ (forall m, get_most_recent_completions cs = Ok m ->
      Dict.keys m = first_occurrences (read_names cs)
      /\ forall n,
           match Dict.get m n with
           | Some d => most_recent_of cs n d
           | None => forall c ts, In c cs -> reading c <> Some (n, ts)
           end).
Proof.
  split; [|split; [|split]].
  - intros c m H. apply update_most_recent_skip, missing_not_read, H.
  - apply get_most_recent_completions_filter.
  - apply get_most_recent_completions_total.
  - intros m H. split; [exact (get_most_recent_completions_keys _ _ H)|].
    exact (proj2 (get_most_recent_completions_resolves _ _ H)).
Qed.

Lemma get_most_recent_completions_correct_witness :
  (exists m, get_most_recent_completions (Person.get_completions alice) = Ok m)
  /\ most_recent_of (Person.get_completions alice) "X-Ray Safety"
       (Details.make (Datetime.of_ordinal (Datetime.ymd2ord 2024 1 15))
          (Some "01/15/2025"))
  /\ (forall c ts, In c (Person.get_completions alice) -> reading c <> Some ("", ts)).
Proof.
  destruct (get_most_recent_completions_correct (Person.get_completions alice))
    as (_ & _ & Htotal & Hentries).
  split; [exact Htotal|].
  destruct (Hentries
              [("X-Ray Safety",
                Details.make (Datetime.of_ordinal (Datetime.ymd2ord 2024 1 15))
                  (Some "01/15/2025"));
               ("Lab Safety",
                Details.make (Datetime.of_ordinal (Datetime.ymd2ord 2023 7 1)) None)]
              eq_refl) as [_ H].
  split; [exact (H "X-Ray Safety") | exact (H "")].
Defined.

(** * The resolver does not depend on the order of the list *)

Lemma dated_for_stamp n t c : dated_for n t c <-> stamp c = Some (n, t).
Proof.
  unfold dated_for, stamp. split.
  - intros [ts [-> ->]]. reflexivity.
  - destruct (reading c) as [[n' ts]|]; [|discriminate].
    destruct (strptime ts) eqn:E; [|discriminate].
    intros [= -> ->]. exists ts. split; [reflexivity | exact E].
Qed.

Lemma In_stamps c x cs : In c cs -> stamp c = Some x -> In x (stamps cs).
Proof.
  intros Hin Hs. unfold stamps. apply in_flat_map. exists c. split; [exact Hin|].
  rewrite Hs. left. reflexivity.
Qed.

(** With distinct stamps, a stamp names its completion. *)
Lemma stamps_inj cs a b x :
  NoDup (stamps cs) -> In a cs -> In b cs -> stamp a = Some x -> stamp b = Some x -> a = b.
Proof.
  induction cs as [|c cs IH]; simpl; [intros _ []|].
  intros Hnd Ha Hb Hsa Hsb.
  destruct Ha as [->|Ha], Hb as [->|Hb]; try reflexivity.
  - rewrite Hsa in Hnd. simpl in Hnd. inversion Hnd as [|? ? Hx _]; subst.
    exfalso. apply Hx. exact (In_stamps _ _ _ Hb Hsb).
  - rewrite Hsb in Hnd. simpl in Hnd. inversion Hnd as [|? ? Hx _]; subst.
    exfalso. apply Hx. exact (In_stamps _ _ _ Ha Hsa).
  - apply IH; try assumption.
    destruct (stamp c); simpl in Hnd; [inversion Hnd; assumption | exact Hnd].
Qed.

Lemma forallb_Permutation {A : Type} (f : A -> bool) (l1 l2 : list A) :
  Permutation l1 l2 -> forallb f l1 = forallb f l2.
Proof.
  intros H. induction H; simpl.
  - reflexivity.
  - rewrite IHPermutation. reflexivity.
  - destruct (f x), (f y); reflexivity.
  - congruence.
Qed.

Lemma most_recent_of_winner cs n d :
  most_recent_of cs n d ->
  exists c, In c cs /\ dated_for n (Details.timestamp d) c
            /\ Details.expires d = Completion.expires c.
Proof.
  intros (l1 & c & l2 & -> & Hc & He & _). exists c. split; [|split; assumption].
  apply in_or_app. right. left. reflexivity.
Qed.

(** Two dictionaries that are right for permuted lists agree at every key. *)
Lemma resolves_same cs1 cs2 m1 m2 :
  Permutation cs1 cs2 -> NoDup (stamps cs1) ->
  resolves cs1 m1 -> resolves cs2 m2 ->
  forall n, Dict.get m1 n = Dict.get m2 n.
Proof.
  intros Hp Hnd [_ H1] [_ H2] n. specialize (H1 n). specialize (H2 n).
  destruct (Dict.get m1 n) as [d1|], (Dict.get m2 n) as [d2|].
  - destruct (most_recent_of_winner _ _ _ H1) as (c1 & Hin1 & Hd1 & He1).
    destruct (most_recent_of_winner _ _ _ H2) as (c2 & Hin2 & Hd2 & He2).
    pose proof (most_recent_of_bound _ _ _ _ _ H2 (Permutation_in _ Hp Hin1) Hd1) as B1.
    pose proof (most_recent_of_bound _ _ _ _ _ H1
                  (Permutation_in _ (Permutation_sym Hp) Hin2) Hd2) as B2.
    assert (Et : Details.timestamp d1 = Details.timestamp d2) by lia.
    rewrite <- Et in Hd2.
    apply dated_for_stamp in Hd1, Hd2.
    assert (c1 = c2) as <-.
    { exact (stamps_inj _ _ _ _ Hnd Hin1 (Permutation_in _ (Permutation_sym Hp) Hin2) Hd1 Hd2). }
    destruct d1, d2; simpl in *. congruence.
  - exfalso. destruct (most_recent_of_winner _ _ _ H1) as (c1 & Hin1 & [ts [Hr _]] & _).
    exact (H2 _ _ (Permutation_in _ Hp Hin1) Hr).
  - exfalso. destruct (most_recent_of_winner _ _ _ H2) as (c2 & Hin2 & [ts [Hr _]] & _).
    exact (H1 _ _ (Permutation_in _ (Permutation_sym Hp) Hin2) Hr).
  - reflexivity.
Qed.

(** C7. When two lists of completions are permutations of each other and
    the completions of each training have pairwise distinct (parsed)
    timestamps, [get_most_recent_completions] gives the same mapping on
    both: the same entry at every training name, or the same exception. *)
Theorem get_most_recent_completions_order (cs1 cs2 : list Completion.t) :
  Permutation cs1 cs2 ->
  NoDup (stamps cs1) ->
  same_mapping (get_most_recent_completions cs1) (get_most_recent_completions cs2).
Proof.
  intros Hp Hnd.
  pose proof (get_most_recent_completions_total cs1) as T1.
  pose proof (get_most_recent_completions_total cs2) as T2.
  rewrite <- (forallb_Permutation parses _ _ Hp) in T2.
  destruct (forallb parses cs1).
  - destruct T1 as [m1 E1], T2 as [m2 E2]. rewrite E1, E2. simpl.
    apply (resolves_same cs1 cs2); try assumption;
      apply get_most_recent_completions_resolves; assumption.
  - rewrite T1, T2. reflexivity.
Qed.

Lemma get_most_recent_completions_order_witness :
  same_mapping (get_most_recent_completions (Person.get_completions alice))
    (get_most_recent_completions (rev (Person.get_completions alice))).
Proof.
  apply get_most_recent_completions_order.
  - apply Permutation_rev.
  - vm_compute. repeat (constructor; [simpl; intuition discriminate|]). constructor.
Defined.

(** * The loops of the expiry report *)

(** The loop bodies and loops of the program, through their recursive
    forms. *)
Lemma check_training_status ref acc n d :
  check_training ref acc (n, d)
  = (s <- Loops.status ref d ;;
     Ok (match s with
         | Some st => acc ++ [Flag.make n st]
         | None => acc
         end)).
Proof.
  unfold check_training, Loops.status, expiry_status.
  destruct (truthy (Details.expires d)) as [e|]; [|reflexivity].
  destruct (strptime e) as [x|err]; simpl; [|reflexivity].
  destruct (Datetime.gtb ref x); simpl; [reflexivity|].
  destruct (Datetime.add_days ref 30) as [limit|err]; simpl; [|reflexivity].
  destruct (Datetime.leb x limit); reflexivity.
Qed.

Lemma check_training_loop ref items : forall acc,
  for_each (check_training ref) items acc
  = (fs <- Loops.flags ref items ;; Ok (acc ++ fs)).
Proof.
  induction items as [|[n d] items IH]; intros acc; cbn [for_each Loops.flags].
  - simpl. rewrite app_nil_r. reflexivity.
  - rewrite check_training_status.
    destruct (Loops.status ref d) as [[st|]|err]; simpl; [| |reflexivity].
    + rewrite IH. destruct (Loops.flags ref items) as [fs|err]; simpl; [|reflexivity].
      rewrite <- app_assoc. reflexivity.
    + rewrite IH. destruct (Loops.flags ref items); reflexivity.
Qed.

Lemma check_person_entry ref results p :
  check_person ref results p
  = (e <- Loops.entry ref p ;;
     Ok (match e with
         | Some x => results ++ [x]
         | None => results
         end)).
Proof.
  unfold check_person, Loops.entry.
  destruct (get_most_recent_completions (Person.get_completions p)) as [m|err]; simpl;
    [|reflexivity].
  rewrite check_training_loop.
  destruct (Loops.flags ref (Dict.items m)) as [[|f fs]|err]; simpl; try reflexivity.
  destruct (Person.getitem_name p); reflexivity.
Qed.

Lemma check_person_loop ref data : forall results,
  for_each (check_person ref) data results
  = (r <- Loops.report data ref ;; Ok (results ++ r)).
Proof.
  induction data as [|p data IH]; intros results; cbn [for_each Loops.report].
  - simpl. rewrite app_nil_r. reflexivity.
  - rewrite check_person_entry.
    destruct (Loops.entry ref p) as [[x|]|err]; simpl; [| |reflexivity].
    + rewrite IH. destruct (Loops.report data ref) as [r|err]; simpl; [|reflexivity].
      rewrite <- app_assoc. reflexivity.
    + rewrite IH. destruct (Loops.report data ref); reflexivity.
Qed.

Lemma loops_report_flagged data ref : forall results,
  Loops.report data ref = Ok results ->
  Forall (fun r => Report.trainings r <> []) results.
Proof.
  induction data as [|p data IH]; simpl; intros results.
  - intros [= <-]. constructor.
  - destruct (Loops.entry ref p) as [e|err] eqn:Ee; simpl; [|discriminate].
    destruct (Loops.report data ref) as [r|err]; simpl; [|discriminate].
    intros [= <-]. specialize (IH _ eq_refl).
    destruct e as [x|]; [|exact IH]. constructor; [|exact IH].
    unfold Loops.entry in Ee.
    destruct (get_most_recent_completions (Person.get_completions p)); simpl in Ee;
      [|discriminate].
    destruct (Loops.flags ref (Dict.items a)) as [[|f fs]|]; simpl in Ee; try discriminate.
    destruct (Person.getitem_name p); simpl in Ee; [|discriminate].
    injection Ee as <-. simpl. discriminate.
Qed.

(** * The calendar *)

(** A year has 365 days, or 366 when it is a leap year. *)
Lemma days_before_year_succ y :
  Datetime.days_before_year (y + 1)
  = Datetime.days_before_year y + 365 + (if Datetime.is_leap y then 1 else 0).
Proof.
  unfold Datetime.days_before_year, Datetime.is_leap. cbv zeta.
  replace (y + 1 - 1) with y by lia.
  destruct (Z.eqb_spec (y mod 4) 0), (Z.eqb_spec (y mod 100) 0),
    (Z.eqb_spec (y mod 400) 0); simpl; Z.div_mod_to_equations; lia.
Qed.

Lemma days_before_year_mono a b :
  a <= b -> Datetime.days_before_year a <= Datetime.days_before_year b.
Proof.
  unfold Datetime.days_before_year. cbv zeta. intros H. Z.div_mod_to_equations. lia.
Qed.

Lemma month_cases m :
  1 <= m <= 12 ->
  m = 1 \/ m = 2 \/ m = 3 \/ m = 4 \/ m = 5 \/ m = 6 \/ m = 7 \/ m = 8 \/ m = 9
  \/ m = 10 \/ m = 11 \/ m = 12.
Proof. lia. Qed.

Lemma day_of_year_bound y m d :
  1 <= m <= 12 -> 1 <= d <= Datetime.days_in_month y m ->
  1 <= Datetime.days_before_month y m + d <= 365 + (if Datetime.is_leap y then 1 else 0).
Proof.
  intros Hm Hd. unfold Datetime.days_in_month, Datetime.days_before_month in *.
  destruct (Datetime.is_leap y);
  destruct (month_cases m Hm)
    as [->|[->|[->|[->|[->|[->|[->|[->|[->|[->|[->| ->]]]]]]]]]]];
    eval_month; lia.
Qed.

Lemma valid_date_spec y m d :
  Datetime.valid_date y m d = true
  <-> 1 <= y <= 9999 /\ 1 <= m <= 12 /\ 1 <= d <= Datetime.days_in_month y m.
Proof.
  unfold Datetime.valid_date, Datetime.MINYEAR, Datetime.MAXYEAR.
  rewrite !andb_true_iff, !Z.leb_le. lia.
Qed.

(** The day number of a date of the calendar is in 1 .. [MAXORDINAL]. *)
Lemma ymd2ord_range y m d :
  Datetime.valid_date y m d = true ->
  1 <= Datetime.ymd2ord y m d <= Datetime.MAXORDINAL.
Proof.
  intros H. apply valid_date_spec in H. destruct H as (Hy & Hm & Hd).
  pose proof (day_of_year_bound y m d Hm Hd) as B.
  pose proof (days_before_year_succ y) as S.
  pose proof (days_before_year_mono 1 y (proj1 Hy)) as L.
  pose proof (days_before_year_mono (y + 1) 10000 ltac:(lia)) as U.
  change (Datetime.days_before_year 1) with 0 in L.
  change (Datetime.days_before_year 10000) with 3652059 in U.
  unfold Datetime.ymd2ord, Datetime.MAXORDINAL. lia.
Qed.

(** The order of day numbers is the order of dates: year first, then
    month, then day. *)
Lemma ymd2ord_lt y1 m1 d1 y2 m2 d2 :
  Datetime.valid_date y1 m1 d1 = true ->
  Datetime.valid_date y2 m2 d2 = true ->
  y1 < y2 \/ (y1 = y2 /\ (m1 < m2 \/ (m1 = m2 /\ d1 < d2))) ->
  Datetime.ymd2ord y1 m1 d1 < Datetime.ymd2ord y2 m2 d2.
Proof.
  intros H1 H2 Hlt. apply valid_date_spec in H1, H2.
  destruct H1 as (Hy1 & Hm1 & Hd1), H2 as (Hy2 & Hm2 & Hd2).
  unfold Datetime.ymd2ord. destruct Hlt as [Hy|[<- [Hm|[<- Hd]]]].
  - pose proof (day_of_year_bound y1 m1 d1 Hm1 Hd1).
    pose proof (day_of_year_bound y2 m2 d2 Hm2 Hd2).
    pose proof (days_before_year_succ y1).
    pose proof (days_before_year_mono (y1 + 1) y2 ltac:(lia)). lia.
  - unfold Datetime.days_in_month, Datetime.days_before_month in *.
    destruct (Datetime.is_leap y1);
    destruct (month_cases m1 Hm1)
      as [->|[->|[->|[->|[->|[->|[->|[->|[->|[->|[->| ->]]]]]]]]]]];
    destruct (month_cases m2 Hm2)
      as [->|[->|[->|[->|[->|[->|[->|[->|[->|[->|[->| ->]]]]]]]]]]];
    try lia; eval_month; lia.
  - lia.
Qed.

Lemma make_Ok y m d x :
  Datetime.make y m d = Ok x ->
  Datetime.valid_date y m d = true /\ x = Datetime.of_ordinal (Datetime.ymd2ord y m d).
Proof.
  unfold Datetime.make.
  destruct (Datetime.fits_int y && Datetime.fits_int m && Datetime.fits_int d);
    [|discriminate].
  destruct (Datetime.valid_date y m d); [|discriminate].
  intros [= <-]. split; reflexivity.
Qed.

(** A date of the calendar is built, whatever else holds. *)
Lemma make_valid y m d :
  Datetime.valid_date y m d = true ->
  Datetime.make y m d = Ok (Datetime.of_ordinal (Datetime.ymd2ord y m d)).
Proof.
  intros Hv. pose proof Hv as H. apply valid_date_spec in H.
  destruct H as (Hy & Hm & Hd).
  assert (Hd' : 1 <= d <= 31).
  { unfold Datetime.days_in_month in Hd.
    destruct ((m =? 2) && Datetime.is_leap y); [lia|].
    destruct (month_cases m Hm)
      as [->|[->|[->|[->|[->|[->|[->|[->|[->|[->|[->| ->]]]]]]]]]]];
      eval_month; lia. }
  rewrite make_fits, Hv; try assumption; [reflexivity|].
  apply fits_int_spec. unfold Datetime.INT_MIN, Datetime.INT_MAX. lia.
Qed.

(** Outside the calendar the constructor raises: [ValueError] when the
    year fits a C [int], [OverflowError] when it does not. *)
Lemma make_invalid y m d :
  1 <= m <= 12 -> 1 <= d <= 31 ->
  Datetime.valid_date y m d = false ->
  Datetime.make y m d
  = Raise (if Datetime.fits_int y then ValueError else OverflowError).
Proof.
  intros Hm Hd Hv. destruct (Datetime.fits_int y) eqn:Ey.
  - rewrite make_fits, Hv; try assumption. reflexivity.
  - unfold Datetime.make. rewrite Ey. reflexivity.
Qed.

(** A parsed date is the midnight of a day of the calendar. *)
Lemma strptime_Ok s x :
  strptime s = Ok x ->
  exists k, 1 <= k <= Datetime.MAXORDINAL /\ x = Datetime.of_ordinal k.
Proof.
  unfold strptime, Strptime.strptime.
  destruct (Strptime.re_match s) as [[[[m d] y] [|a r]]|]; try discriminate.
  intros H. apply make_Ok in H. destruct H as [Hv ->].
  eexists. split; [apply ymd2ord_range; exact Hv | reflexivity].
Qed.

Lemma toordinal_of_ordinal k : Datetime.toordinal (Datetime.of_ordinal k) = k.
Proof.
  unfold Datetime.toordinal, Datetime.of_ordinal, Datetime.us_per_day.
  rewrite Z.div_mul by lia. lia.
Qed.

Lemma of_ordinal_plus k n :
  Datetime.of_ordinal k + n * Datetime.us_per_day = Datetime.of_ordinal (k + n).
Proof. unfold Datetime.of_ordinal. lia. Qed.

(** Thirty days after a date that is at most 9999-12-01. *)
Lemma add_days_30 ref :
  0 <= ref -> Datetime.toordinal ref + 30 <= Datetime.MAXORDINAL ->
  Datetime.add_days ref 30 = Ok (ref + 30 * Datetime.us_per_day).
Proof.
  intros H0 Hmax. unfold Datetime.add_days.
  assert (E : Datetime.toordinal (ref + 30 * Datetime.us_per_day)
              = Datetime.toordinal ref + 30).
  { unfold Datetime.toordinal, Datetime.us_per_day. rewrite Z.div_add by lia. lia. }
  rewrite E.
  assert (0 < Datetime.toordinal ref).
  { unfold Datetime.toordinal, Datetime.us_per_day.
    pose proof (Z.div_pos ref 86400000000 H0 ltac:(lia)). lia. }
  destruct (Z.ltb_spec 0 (Datetime.toordinal ref + 30)); [|lia].
  destruct (Z.leb_spec (Datetime.toordinal ref + 30) Datetime.MAXORDINAL); [|lia].
  reflexivity.
Qed.

(** * The boundaries of the expiry status *)

(** An expiry from the reference day to 30 days after it is flagged
    "expires soon", when that last day exists. *)
Lemma expires_soon_at ref acc n d e k :
  truthy (Details.expires d) = Some e ->
  strptime e = Ok (Datetime.of_ordinal k) ->
  (exists j, ref = Datetime.of_ordinal j /\ j <= k <= j + 30
             /\ 1 <= j + 30 <= Datetime.MAXORDINAL) ->
  check_training ref acc (n, d) = Ok (acc ++ [Flag.make n "expires soon"]).
Proof.
  intros He Hp (j & -> & Hjk & Hj).
  unfold check_training. rewrite He, Hp. cbn [bind].
  unfold expiry_status, Datetime.gtb, Datetime.leb, Datetime.add_days.
  rewrite of_ordinal_plus, toordinal_of_ordinal.
  unfold Datetime.of_ordinal, Datetime.us_per_day, Datetime.MAXORDINAL in *.
  destruct (Z.gtb_spec ((j - 1) * 86400000000) ((k - 1) * 86400000000)); [lia|].
  destruct (Z.ltb_spec 0 (j + 30)); [|lia].
  destruct (Z.leb_spec (j + 30) 3652059); [|lia]. cbn [andb bind].
  destruct (Z.leb_spec ((k - 1) * 86400000000) ((j + 30 - 1) * 86400000000)); [|lia].
  reflexivity.
Qed.

(** C5, as amended. For a resolved training whose [expires] is non-empty
    and parses, and a reference date of the date type: an expiry exactly
    30 days after the reference date is flagged "expires soon"; an expiry
    31 days after it is not flagged; an expiry equal to the reference date
    is flagged "expires soon" when the reference date is at most
    9999-12-01, so that the date 30 days later exists; an expiry one day
    before the reference date is flagged "expired". *)
Theorem expiry_status_boundaries (reference_date : Datetime.t) (acc : list Flag.t)
  (training_name : string) (details : Details.t) (expiry_str : string) :
  Datetime.in_range reference_date ->
  truthy (Details.expires details) = Some expiry_str ->
  (strptime expiry_str = Ok (days_after 30 reference_date) ->
   check_training reference_date acc (training_name, details)
   = Ok (acc ++ [Flag.make training_name "expires soon"]))
  /\ (strptime expiry_str = Ok (days_after 31 reference_date) ->
      check_training reference_date acc (training_name, details) = Ok acc)
  /\ (strptime expiry_str = Ok reference_date ->
      Datetime.toordinal reference_date + 30 <= Datetime.MAXORDINAL ->
      check_training reference_date acc (training_name, details)
      = Ok (acc ++ [Flag.make training_name "expires soon"]))
  /\ (strptime expiry_str = Ok (days_after (-1) reference_date) ->
      check_training reference_date acc (training_name, details)
      = Ok (acc ++ [Flag.make training_name "expired"])).
Proof.
  intros Hr He. unfold Datetime.in_range in Hr.
  split; [|split; [|split]]; intros Hp.
  - destruct (strptime_Ok _ _ Hp) as (k & Hk & Ek). rewrite Ek in Hp.
    apply (expires_soon_at _ _ _ _ _ _ He Hp). exists (k - 30).
    unfold days_after, Datetime.of_ordinal in *. split; lia.
  - destruct (strptime_Ok _ _ Hp) as (k & Hk & Ek).
    unfold check_training. rewrite He, Hp. cbn [bind].
    unfold expiry_status, Datetime.gtb, Datetime.leb, Datetime.add_days.
    assert (Er : reference_date = Datetime.of_ordinal (k - 31))
      by (unfold days_after, Datetime.of_ordinal in *; lia).
    rewrite Er, of_ordinal_plus, toordinal_of_ordinal.
    unfold days_after, Datetime.of_ordinal, Datetime.us_per_day,
      Datetime.MAXORDINAL in *.
    destruct (Z.gtb_spec ((k - 31 - 1) * 86400000000)
                ((k - 31 - 1) * 86400000000 + 31 * 86400000000)); [lia|].
    destruct (Z.ltb_spec 0 (k - 31 + 30)); [|lia].
    destruct (Z.leb_spec (k - 31 + 30) 3652059); [|lia]. cbn [andb bind].
    destruct (Z.leb_spec ((k - 31 - 1) * 86400000000 + 31 * 86400000000)
                ((k - 31 + 30 - 1) * 86400000000)); [lia|].
    reflexivity.
  - intros Hmax. destruct (strptime_Ok _ _ Hp) as (k & Hk & Ek).
    rewrite Ek in Hp, Hmax. rewrite toordinal_of_ordinal in Hmax.
    apply (expires_soon_at _ _ _ _ _ _ He Hp). exists k. split; [exact Ek | lia].
  - unfold check_training. rewrite He, Hp. cbn [bind].
    unfold expiry_status, Datetime.gtb, days_after, Datetime.us_per_day.
    destruct (Z.gtb_spec reference_date (reference_date + -1 * 86400000000)); [|lia].
    reflexivity.
Qed.

Lemma expiry_status_boundaries_witness :
  check_training october_first []
    ("Lab Safety", Details.make october_first (Some "10/31/2023"))
  = Ok [Flag.make "Lab Safety" "expires soon"]
  /\ check_training october_first []
       ("Lab Safety", Details.make october_first (Some "11/01/2023"))
     = Ok []
  /\ check_training october_first []
       ("Lab Safety", Details.make october_first (Some "10/01/2023"))
     = Ok [Flag.make "Lab Safety" "expires soon"]
  /\ check_training october_first []
       ("Lab Safety", Details.make october_first (Some "09/30/2023"))
     = Ok [Flag.make "Lab Safety" "expired"].
Proof.
  assert (Hr : Datetime.in_range october_first) by (vm_compute; split; congruence).
  split; [|split; [|split]].
  - apply (proj1 (expiry_status_boundaries october_first [] "Lab Safety"
                    (Details.make october_first (Some "10/31/2023")) "10/31/2023"
                    Hr eq_refl)).
    reflexivity.
  - apply (proj1 (proj2 (expiry_status_boundaries october_first [] "Lab Safety"
                    (Details.make october_first (Some "11/01/2023")) "11/01/2023"
                    Hr eq_refl))).
    reflexivity.
  - apply (proj1 (proj2 (proj2 (expiry_status_boundaries october_first [] "Lab Safety"
                    (Details.make october_first (Some "10/01/2023")) "10/01/2023"
                    Hr eq_refl)))).
    + reflexivity.
    + vm_compute. congruence.
  - apply (proj2 (proj2 (proj2 (expiry_status_boundaries october_first [] "Lab Safety"
                    (Details.make october_first (Some "09/30/2023")) "09/30/2023"
                    Hr eq_refl)))).
    reflexivity.
Defined.

(** On the last day of the date type an expiry equal to the reference date
    is parsed, found not to be in the past, and then the date 30 days
    after the reference date does not exist: the report ends with
    [OverflowError] instead of the status "expires soon". *)
Lemma expiry_on_last_day_overflows :
  strptime "12/31/9999" = Ok last_day
  /\ Datetime.in_range last_day
  /\ check_training last_day [] ("X-Ray Safety", last_day_training)
     = Raise OverflowError
  /\ get_expired_or_expiring_trainings [last_day_person] last_day = Raise OverflowError.
Proof.
  split; [reflexivity|]. split; [vm_compute; split; congruence|].
  split; reflexivity.
Qed.

(** * Task 3 against the algorithm of the specification *)

(** ** The resolver of the specification *)

Lemma parsed_total cs :
  if forallb parses cs
  then exists ps, Spec.parsed cs = Ok ps
  else Spec.parsed cs = Raise ValueError.
Proof.
  induction cs as [|c cs IH]; cbn [forallb Spec.parsed]; [eexists; reflexivity|].
  unfold parses at 1. destruct (reading c) as [[n ts]|]; cbn [andb]; [|exact IH].
  destruct (strptime ts) as [t|e] eqn:Ep; cbn [andb bind].
  - destruct (forallb parses cs).
    + destruct IH as [ps ->]. eexists. reflexivity.
    + rewrite IH. reflexivity.
  - rewrite (strptime_raises _ _ Ep). reflexivity.
Qed.

Lemma parsed_app l1 l2 :
  Spec.parsed (l1 ++ l2)
  = (ps1 <- Spec.parsed l1 ;; ps2 <- Spec.parsed l2 ;; Ok (ps1 ++ ps2)).
Proof.
  induction l1 as [|c l1 IH]; cbn [app Spec.parsed bind].
  - destruct (Spec.parsed l2); reflexivity.
  - destruct (reading c) as [[n ts]|]; [|exact IH].
    destruct (strptime ts) as [t|e]; cbn [bind]; [|reflexivity].
    rewrite IH. destruct (Spec.parsed l1) as [ps1|e]; cbn [bind]; [|reflexivity].
    destruct (Spec.parsed l2); reflexivity.
Qed.

Lemma parsed_one n t c :
  dated_for n t c ->
  Spec.parsed [c] = Ok [(n, Details.make t (Completion.expires c))].
Proof.
  intros (ts & Hr & Hp). cbn [Spec.parsed]. rewrite Hr, Hp. reflexivity.
Qed.

(** A parsed completion comes from a completion of the list. *)
Lemma parsed_In cs : forall ps n d,
  Spec.parsed cs = Ok ps -> In (n, d) ps ->
  exists c, In c cs /\ dated_for n (Details.timestamp d) c.
Proof.
  induction cs as [|c cs IH]; cbn [Spec.parsed]; intros ps n d.
  - intros [= <-] [].
  - destruct (reading c) as [[n0 ts]|] eqn:Er.
    + destruct (strptime ts) as [t|e] eqn:Ep; cbn [bind]; [|discriminate].
      destruct (Spec.parsed cs) as [ps0|e]; cbn [bind]; [|discriminate].
      intros [= <-] [[= <- <-]|Hin].
      * exists c. split; [left; reflexivity|]. exists ts. split; assumption.
      * destruct (IH _ _ _ eq_refl Hin) as (c' & Hc' & Hd).
        exists c'. split; [right; exact Hc' | exact Hd].
    + intros H Hin. destruct (IH _ _ _ H Hin) as (c' & Hc' & Hd).
      exists c'. split; [right; exact Hc' | exact Hd].
Qed.

Lemma parsed_names cs : forall ps,
  Spec.parsed cs = Ok ps -> map fst ps = read_names cs.
Proof.
  induction cs as [|c cs IH]; cbn [Spec.parsed]; intros ps.
  - intros [= <-]. reflexivity.
  - unfold read_names. cbn [flat_map]. fold (read_names cs).
    destruct (reading c) as [[n ts]|].
    + destruct (strptime ts) as [t|e]; cbn [bind]; [|discriminate].
      destruct (Spec.parsed cs) as [ps0|e]; cbn [bind]; [|discriminate].
      intros [= <-]. cbn [map fst app]. rewrite (IH _ eq_refl). reflexivity.
    + exact (IH ps).
Qed.

Lemma of_training_app n ps1 ps2 :
  Spec.of_training n (ps1 ++ ps2) = Spec.of_training n ps1 ++ Spec.of_training n ps2.
Proof. unfold Spec.of_training. rewrite filter_app, map_app. reflexivity. Qed.

Lemma of_training_In n ps d : In d (Spec.of_training n ps) -> In (n, d) ps.
Proof.
  unfold Spec.of_training. rewrite in_map_iff. intros ([n' d'] & <- & Hin).
  apply filter_In in Hin. destruct Hin as [Hin E]. cbn [fst snd] in *.
  apply String.eqb_eq in E. subst n'. exact Hin.
Qed.

Lemma find_app_skip {A : Type} (f : A -> bool) l1 l2 :
  (forall x, In x l1 -> f x = false) -> find f (l1 ++ l2) = find f l2.
Proof.
  induction l1 as [|x l1 IH]; intros H; cbn [app find]; [reflexivity|].
  rewrite (H x (or_introl eq_refl)). apply IH. intros y Hy. apply H. right. exact Hy.
Qed.

(** The completion that is later than those before it and not earlier
    than those after it is the one the specification retains. *)
Lemma latest_split ds1 d ds2 :
  (forall x, In x ds1 -> Details.timestamp x < Details.timestamp d) ->
  (forall x, In x ds2 -> Details.timestamp x <= Details.timestamp d) ->
  Spec.latest (ds1 ++ d :: ds2) = Some d.
Proof.
  intros H1 H2. unfold Spec.latest. rewrite find_app_skip.
  - cbn [find].
    replace (forallb _ (ds1 ++ d :: ds2)) with true; [reflexivity|].
    symmetry. apply forallb_forall. intros x Hx. apply Z.leb_le.
    apply in_app_or in Hx. destruct Hx as [Hx|[<-|Hx]].
    + pose proof (H1 _ Hx). lia.
    + lia.
    + exact (H2 _ Hx).
  - intros x Hx.
    destruct (forallb (fun d' => Details.timestamp d' <=? Details.timestamp x)
                (ds1 ++ d :: ds2)) eqn:E; [|reflexivity].
    exfalso. rewrite forallb_forall in E.
    assert (Hd : In d (ds1 ++ d :: ds2)) by (apply in_or_app; right; left; reflexivity).
    specialize (E d Hd).
    apply Z.leb_le in E. pose proof (H1 _ Hx). lia.
Qed.

(** The most recent completion, as the program's resolver is shown to
    return it, is the one retained by the specification. *)
Lemma most_recent_of_latest cs ps n d :
  Spec.parsed cs = Ok ps -> most_recent_of cs n d ->
  Spec.latest (Spec.of_training n ps) = Some d.
Proof.
  intros Hps (l1 & c & l2 & -> & Hc & He & Hl1 & Hl2).
  rewrite parsed_app in Hps.
  destruct (Spec.parsed l1) as [ps1|] eqn:E1; cbn [bind] in Hps; [|discriminate].
  change (c :: l2) with ([c] ++ l2) in Hps. rewrite parsed_app in Hps.
  rewrite (parsed_one _ _ _ Hc) in Hps. cbn [bind] in Hps.
  destruct (Spec.parsed l2) as [ps2|] eqn:E2; cbn [bind] in Hps; [|discriminate].
  injection Hps as <-. rewrite !of_training_app.
  unfold Spec.of_training at 2. cbn [filter fst]. rewrite String.eqb_refl.
  cbn [map snd app].
  replace (Details.make (Details.timestamp d) (Completion.expires c)) with d
    by (destruct d; cbn in *; congruence).
  apply latest_split.
  - intros x Hx. apply of_training_In in Hx.
    destruct (parsed_In _ _ _ _ E1 Hx) as (c' & Hin & Hd). exact (Hl1 _ _ Hin Hd).
  - intros x Hx. apply of_training_In in Hx.
    destruct (parsed_In _ _ _ _ E2 Hx) as (c' & Hin & Hd). exact (Hl2 _ _ Hin Hd).
Qed.

Lemma flat_map_ext_In {A B : Type} (f g : A -> list B) l :
  (forall x, In x l -> f x = g x) -> flat_map f l = flat_map g l.
Proof.
  induction l as [|x l IH]; intros H; cbn [flat_map]; [reflexivity|].
  rewrite (H x (or_introl eq_refl)), IH; [reflexivity|].
  intros y Hy. apply H. right. exact Hy.
Qed.

(** The items of a dictionary, from its keys. *)
Lemma items_by_keys {V : Type} (d : Dict.t V) :
  NoDup (Dict.keys d) ->
  Dict.items d
  = flat_map (fun k => match Dict.get d k with Some v => [(k, v)] | None => [] end)
      (Dict.keys d).
Proof.
  unfold Dict.items, Dict.keys. induction d as [|[k v] d IH]; cbn [map fst flat_map];
    [reflexivity|].
  intros Hnd. inversion Hnd as [|? ? Hk Hnd']; subst.
  cbn [Dict.get]. rewrite String.eqb_refl. cbn [app]. f_equal.
  rewrite (IH Hnd') at 1. apply flat_map_ext_In. intros k' Hk'.
  destruct (String.eqb_spec k k') as [->|_]; [contradiction | reflexivity].
Qed.

(** The program's resolver returns the mapping of the specification, and
    raises when the specification has an error. *)
Lemma resolve_eq cs :
  Spec.resolve cs = (m <- get_most_recent_completions cs ;; Ok (Dict.items m)).
Proof.
  unfold Spec.resolve.
  pose proof (get_most_recent_completions_total cs) as T.
  pose proof (parsed_total cs) as P.
  destruct (forallb parses cs).
  - destruct T as [m Hm], P as [ps Hps]. rewrite Hm, Hps. cbn [bind]. f_equal.
    destruct (get_most_recent_completions_resolves _ _ Hm) as [Hnd Hget].
    rewrite (items_by_keys m Hnd), (get_most_recent_completions_keys _ _ Hm).
    rewrite (parsed_names _ _ Hps). apply flat_map_ext_In. intros n Hn.
    specialize (Hget n). destruct (Dict.get m n) as [d|] eqn:Eg.
    + rewrite (most_recent_of_latest _ _ _ _ Hps Hget). reflexivity.
    + exfalso. apply get_None_keys in Eg. apply Eg.
      rewrite (get_most_recent_completions_keys _ _ Hm). exact Hn.
  - rewrite T, P. reflexivity.
Qed.

(** ** The report of the specification *)

Lemma days_after_30 ref :
  0 <= ref -> Datetime.toordinal ref + 30 <= Datetime.MAXORDINAL ->
  Datetime.add_days ref 30 = Ok (days_after 30 ref).
Proof. intros H0 Hmax. rewrite (add_days_30 ref H0 Hmax). reflexivity. Qed.

Lemma status_eq ref d :
  0 <= ref -> Datetime.toordinal ref + 30 <= Datetime.MAXORDINAL ->
  Loops.status ref d = Spec.status ref (Details.expires d).
Proof.
  intros H0 Hmax. unfold Loops.status, Spec.status.
  destruct (Details.expires d) as [[|a r]|]; cbn [truthy]; try reflexivity.
  destruct (strptime (String a r)) as [x|e]; cbn [bind]; [|reflexivity].
  unfold Datetime.gtb, Datetime.leb. destruct (ref >? x); [reflexivity|].
  rewrite (days_after_30 ref H0 Hmax). cbn [bind].
  destruct (x <=? days_after 30 ref); reflexivity.
Qed.

Lemma flags_eq ref items :
  0 <= ref -> Datetime.toordinal ref + 30 <= Datetime.MAXORDINAL ->
  Loops.flags ref items = Spec.flags ref items.
Proof.
  intros H0 Hmax. induction items as [|[n d] items IH]; cbn [Loops.flags Spec.flags];
    [reflexivity|].
  rewrite (status_eq ref d H0 Hmax), IH. reflexivity.
Qed.

Lemma entry_eq ref p :
  0 <= ref -> Datetime.toordinal ref + 30 <= Datetime.MAXORDINAL ->
  (forall e, Spec.entry ref p = Ok (Some e) -> Person.name p <> None) ->
  match Loops.entry ref p with
  | Ok x => Spec.entry ref p = Ok (option_map Spec.of_report x)
  | Raise e => Spec.entry ref p = Raise e
  end.
Proof.
  intros H0 Hmax. unfold Loops.entry, Spec.entry. rewrite resolve_eq.
  destruct (get_most_recent_completions (Person.get_completions p)) as [m|e];
    cbn [bind]; [|reflexivity].
  rewrite (flags_eq ref (Dict.items m) H0 Hmax).
  destruct (Spec.flags ref (Dict.items m)) as [[|f fs]|e]; cbn [bind]; try reflexivity.
  intros Hn. unfold Person.getitem_name.
  destruct (Person.name p) as [n|]; cbn [bind]; [reflexivity|].
  exfalso. exact (Hn _ eq_refl eq_refl).
Qed.

Lemma report_eq ref data :
  0 <= ref -> Datetime.toordinal ref + 30 <= Datetime.MAXORDINAL ->
  (forall p e, In p data -> Spec.entry ref p = Ok (Some e) -> Person.name p <> None) ->
  match Loops.report data ref with
  | Ok results => Spec.report data ref = Ok (map Spec.of_report results)
  | Raise e => Spec.report data ref = Raise e
  end.
Proof.
  intros H0 Hmax. induction data as [|p data IH]; intros Hn;
    cbn [Loops.report Spec.report]; [reflexivity|].
  pose proof (entry_eq ref p H0 Hmax (fun e => Hn p e (or_introl eq_refl))) as E.
  specialize (IH (fun q e Hq => Hn q e (or_intror Hq))).
  destruct (Loops.entry ref p) as [x|err]; rewrite E; cbn [bind]; [|reflexivity].
  destruct (Loops.report data ref) as [rs|err]; rewrite IH; cbn [bind]; [|reflexivity].
  destruct x; reflexivity.
Qed.

(** ** Two completions of one training *)

Lemma get_most_recent_completions_two n t1 t2 c1 c2 :
  dated_for n t1 c1 -> dated_for n t2 c2 -> t1 < t2 ->
  get_most_recent_completions [c1; c2] = get_most_recent_completions [c2]
  /\ get_most_recent_completions [c2; c1] = get_most_recent_completions [c2].
Proof.
  intros (ts1 & Hr1 & Hp1) (ts2 & Hr2 & Hp2) Hlt.
  unfold get_most_recent_completions. cbn [for_each].
  rewrite !update_most_recent_eq, Hr1, Hr2, Hp1, Hp2. cbn [bind].
  unfold is_more_recent at 1 3. cbn [Dict.get Dict.empty bind Dict.set].
  rewrite !update_most_recent_eq, Hr1, Hr2, Hp1, Hp2. cbn [bind].
  unfold is_more_recent. cbn [Dict.get]. rewrite String.eqb_refl.
  cbn [Details.timestamp]. unfold Datetime.gtb.
  destruct (Z.gtb_spec t2 t1) as [_|H]; [|lia].
  destruct (Z.gtb_spec t1 t2) as [H|_]; [lia|].
  cbn [Dict.set bind]. rewrite String.eqb_refl. split; reflexivity.
Qed.

Lemma get_expired_or_expiring_trainings_one name cs cs' ref :
  get_most_recent_completions cs = get_most_recent_completions cs' ->
  get_expired_or_expiring_trainings [Person.make name (Some cs)] ref
  = get_expired_or_expiring_trainings [Person.make name (Some cs')] ref.
Proof.
  intros H. unfold get_expired_or_expiring_trainings. cbn [for_each].
  unfold check_person. cbn [Person.get_completions Person.completions].
  rewrite H. reflexivity.
Qed.

(** C1. When the day 30 days after the reference date is a date (the
    reference date is at most 9999-12-01) and every person for whom the
    algorithm of the specification has an entry has a name,
    [get_expired_or_expiring_trainings] computes what that algorithm
    computes: per person the most recent completion of each training (the
    completion with the largest parsed timestamp, the first of those that
    share it), no status for a training whose resolved [expires] is
    absent, the status from the two ordered tests, the flagged trainings
    in the order in which the trainings are first encountered, and one
    entry per person with at least one flagged training, in input order;
    it raises exactly when the algorithm has an error.  Whatever the
    input, no entry of the output has an empty list of trainings, and of
    two completions of one training with different dates the later one
    alone decides, in whichever order they stand. *)
Theorem get_expired_or_expiring_trainings_refines (data : list Person.t)
  (reference_date : Datetime.t) :
  (Datetime.in_range reference_date ->
   Datetime.toordinal reference_date + 30 <= Datetime.MAXORDINAL ->
   (forall p e, In p data -> Spec.entry reference_date p = Ok (Some e) ->
                Person.name p <> None) ->
   match get_expired_or_expiring_trainings data reference_date with
   | Ok results => Spec.report data reference_date = Ok (map Spec.of_report results)
   | Raise e => Spec.report data reference_date = Raise e
   end)
  /\ (forall results,
        get_expired_or_expiring_trainings data reference_date = Ok results ->
        Forall (fun r => Report.trainings r <> []) results)
  /\ (forall name n c1 c2 t1 t2,
        dated_for n t1 c1 -> dated_for n t2 c2 -> t1 < t2 ->
        get_expired_or_expiring_trainings [Person.make name (Some [c1; c2])]
          reference_date
        = get_expired_or_expiring_trainings [Person.make name (Some [c2])]
            reference_date
        /\ get_expired_or_expiring_trainings [Person.make name (Some [c2; c1])]
             reference_date
           = get_expired_or_expiring_trainings [Person.make name (Some [c2])]
               reference_date).
Proof.
  assert (E : get_expired_or_expiring_trainings data reference_date
              = Loops.report data reference_date).
  { unfold get_expired_or_expiring_trainings. rewrite check_person_loop.
    destruct (Loops.report data reference_date); reflexivity. }
  split; [|split].
  - intros [H0 _] Hmax Hn. rewrite E. exact (report_eq _ _ H0 Hmax Hn).
  - rewrite E. apply loops_report_flagged.
  - intros name n c1 c2 t1 t2 H1 H2 Hlt.
    destruct (get_most_recent_completions_two _ _ _ _ _ H1 H2 Hlt) as [G1 G2].
    split; apply get_expired_or_expiring_trainings_one; assumption.
Qed.

Lemma get_expired_or_expiring_trainings_refines_witness :
  Spec.report [alice; bob; carol] new_year_2025
  = Ok [Spec.Entry.make (Some "Alice") [Flag.make "X-Ray Safety" "expires soon"];
        Spec.Entry.make (Some "Bob") [Flag.make "Lab Safety" "expired"]]
  /\ Forall (fun r => Report.trainings r <> [])
       [Report.make "Alice" [Flag.make "X-Ray Safety" "expires soon"];
        Report.make "Bob" [Flag.make "Lab Safety" "expired"]]
  /\ get_expired_or_expiring_trainings [Person.make (Some "Pat") (Some [early; late])]
       new_year_2025
     = Ok [Report.make "Pat" [Flag.make "Lab Safety" "expires soon"]]
  /\ get_expired_or_expiring_trainings [Person.make (Some "Pat") (Some [late; early])]
       new_year_2025
     = Ok [Report.make "Pat" [Flag.make "Lab Safety" "expires soon"]].
Proof.
  destruct (get_expired_or_expiring_trainings_refines [alice; bob; carol] new_year_2025)
    as (Hspec & Hflagged & Htwo).
  split; [|split].
  - apply Hspec.
    + vm_compute. split; congruence.
    + vm_compute. congruence.
    + intros p e [<-|[<-|[<-|[]]]]; cbn; discriminate.
  - apply Hflagged. reflexivity.
  - apply (Htwo (Some "Pat") "Lab Safety" early late
             (Datetime.of_ordinal (Datetime.ymd2ord 2022 3 1))
             (Datetime.of_ordinal (Datetime.ymd2ord 2023 3 1))).
    + exists "3/1/2022". split; reflexivity.
    + exists "3/1/2023". split; reflexivity.
    + vm_compute. reflexivity.
Defined.

(** Where the program leaves the algorithm.  A person without [name]
    whose training has expired has an entry in the report of the
    specification, and the program ends with [KeyError]; a training that
    expires on 9999-12-31 is expiring on 9999-12-15, and the program ends
    with [OverflowError], the day 30 days later being no date. *)
Lemma expiry_report_leaves_the_algorithm :
  (Spec.report [alice; nameless] new_year_2025
   = Ok [Spec.Entry.make (Some "Alice") [Flag.make "X-Ray Safety" "expires soon"];
         Spec.Entry.make None [Flag.make "Lab Safety" "expired"]]
   /\ get_expired_or_expiring_trainings [alice; nameless] new_year_2025
      = Raise KeyError)
  /\ (Datetime.in_range mid_december_9999
      /\ Spec.report [last_day_person] mid_december_9999
         = Ok [Spec.Entry.make (Some "Alice") [Flag.make "X-Ray Safety" "expires soon"]]
      /\ get_expired_or_expiring_trainings [last_day_person] mid_december_9999
         = Raise OverflowError).
Proof.
  split; [split; reflexivity|].
  split; [vm_compute; split; congruence|]. split; reflexivity.
Qed.

(** * Task 2: completions in a fiscal year *)

Lemma table_ext {V : Type} ks (f g : string -> V) :
  (forall k, In k ks -> f k = g k) -> table ks f = table ks g.
Proof.
  intros H. apply map_ext_in. intros k Hk. rewrite (H k Hk). reflexivity.
Qed.

Lemma get_table {V : Type} ks (f : string -> V) n :
  Dict.get (table ks f) n = if existsb (String.eqb n) ks then Some (f n) else None.
Proof.
  induction ks as [|k ks IH]; simpl; [reflexivity|].
  rewrite (String.eqb_sym n k).
  destruct (String.eqb_spec k n) as [->|Hne]; simpl; [reflexivity | exact IH].
Qed.

Lemma set_table {V : Type} ks (f : string -> V) n v :
  NoDup ks -> In n ks ->
  Dict.set (table ks f) n v = table ks (fun k => if String.eqb k n then v else f k).
Proof.
  induction ks as [|k ks IH]; simpl; [intros _ []|].
  intros Hnd Hin. inversion Hnd as [|? ? Hk Hnd']; subst.
  destruct (String.eqb_spec k n) as [->|Hne].
  - f_equal. apply map_ext_in. intros t Ht.
    destruct (String.eqb_spec t n) as [->|_]; [contradiction | reflexivity].
  - f_equal. apply IH; [exact Hnd'|]. destruct Hin; [contradiction | assumption].
Qed.

Lemma existsb_eqb_In n ks : existsb (String.eqb n) ks = true <-> In n ks.
Proof.
  rewrite existsb_exists. split.
  - intros [x [Hx E]]. apply String.eqb_eq in E. subst. exact Hx.
  - intros H. exists n. split; [exact H | apply String.eqb_refl].
Qed.

Lemma keys_table {V : Type} ks (f : string -> V) : Dict.keys (table ks f) = ks.
Proof.
  unfold Dict.keys, table. rewrite map_map. simpl. apply map_id.
Qed.

(** The first occurrences. *)
Lemma NoDup_filter {A : Type} (f : A -> bool) l : NoDup l -> NoDup (filter f l).
Proof.
  induction 1 as [|x l Hx Hnd IH]; simpl; [constructor|].
  destruct (f x); [|exact IH]. constructor; [|exact IH].
  rewrite filter_In. tauto.
Qed.

Lemma NoDup_first_occurrences l : NoDup (first_occurrences l).
Proof.
  induction l as [|x l IH]; simpl; constructor.
  - rewrite filter_In. intros [_ H]. rewrite String.eqb_refl in H. discriminate.
  - apply NoDup_filter, IH.
Qed.

Lemma first_occurrences_NoDup l : NoDup l -> first_occurrences l = l.
Proof.
  induction 1 as [|x l Hx Hnd IH]; simpl; [reflexivity|].
  rewrite IH. f_equal. apply forallb_filter_id. apply forallb_forall.
  intros y Hy. destruct (String.eqb_spec y x) as [->|_]; [contradiction | reflexivity].
Qed.

Lemma existsb_first_occurrences n l :
  existsb (String.eqb n) (first_occurrences l) = existsb (String.eqb n) l.
Proof.
  apply eq_true_iff_eq. rewrite !existsb_eqb_In. apply In_first_occurrences.
Qed.

(** The dictionary comprehension [{training: [] for training in trainings}]. *)
Lemma set_same {V : Type} (d : Dict.t V) k v : Dict.get d k = Some v -> Dict.set d k v = d.
Proof.
  induction d as [|[k' v'] d IH]; simpl; [discriminate|].
  destruct (String.eqb k' k); [intros [= ->]; reflexivity|].
  intros H. rewrite (IH H). reflexivity.
Qed.

Lemma get_app {V : Type} (d1 d2 : Dict.t V) k :
  Dict.get (d1 ++ d2) k
  = match Dict.get d1 k with
    | Some v => Some v
    | None => Dict.get d2 k
    end.
Proof.
  induction d1 as [|[k' v'] d1 IH]; simpl; [reflexivity|].
  destruct (String.eqb k' k); [reflexivity | exact IH].
Qed.

Lemma filter_filter_and {A : Type} (f g : A -> bool) l :
  filter f (filter g l) = filter (fun x => g x && f x) l.
Proof.
  induction l as [|x l IH]; simpl; [reflexivity|].
  destruct (g x); simpl; [destruct (f x); rewrite IH; reflexivity | exact IH].
Qed.

Lemma comprehension_from trainings : forall d : Dict.t (list string),
  (forall k v, Dict.get d k = Some v -> v = []) ->
  fold_left (fun d training => Dict.set d training []) trainings d
  = d ++ table (filter (fun t => negb (Dict.contains d t)) (first_occurrences trainings))
           (fun _ => []).
Proof.
  induction trainings as [|x l IH]; intros d Hd; simpl.
  - rewrite app_nil_r. reflexivity.
  - unfold Dict.contains at 1. destruct (Dict.get d x) as [v|] eqn:E; simpl.
    + rewrite (Hd _ _ E) in E. rewrite (set_same _ _ _ E), (IH d Hd).
      f_equal. f_equal. rewrite filter_filter_and. apply filter_ext. intros y.
      destruct (String.eqb_spec y x) as [->|_]; simpl; [|reflexivity].
      unfold Dict.contains. rewrite E. reflexivity.
    + rewrite (set_absent _ _ _ E), IH.
      * rewrite <- app_assoc. simpl. f_equal. f_equal. f_equal.
        rewrite filter_filter_and. apply filter_ext. intros y.
        unfold Dict.contains. rewrite get_app. simpl.
        rewrite (String.eqb_sym y x).
        destruct (Dict.get d y), (String.eqb x y); reflexivity.
      * intros k v. rewrite get_app. destruct (Dict.get d k) eqn:Ek.
        -- intros [= <-]. exact (Hd _ _ Ek).
        -- simpl. destruct (String.eqb x k); [congruence | discriminate].
Qed.

Lemma comprehension trainings :
  fold_left (fun d training => Dict.set d training []) trainings Dict.empty
  = table (first_occurrences trainings) (fun _ => @nil string).
Proof.
  rewrite comprehension_from by (intros k v; discriminate).
  simpl. f_equal. apply forallb_filter_id. apply forallb_forall. reflexivity.
Qed.

(** The fiscal window exists exactly for the fiscal years 2 .. 9999. *)
Lemma fiscal_bounds fiscal_year :
  if (2 <=? fiscal_year) && (fiscal_year <=? 9999)
  then Datetime.make (fiscal_year - 1) 7 1 = Ok (fiscal_start_of fiscal_year)
       /\ Datetime.make fiscal_year 6 30 = Ok (fiscal_end_of fiscal_year)
  else (exists e, Datetime.make (fiscal_year - 1) 7 1 = Raise e)
       \/ (exists e, Datetime.make fiscal_year 6 30 = Raise e).
Proof.
  unfold fiscal_start_of, fiscal_end_of.
  destruct (Z.leb_spec 2 fiscal_year), (Z.leb_spec fiscal_year 9999); simpl.
  - assert (H1 : Datetime.valid_date (fiscal_year - 1) 7 1 = true).
    { apply valid_date_spec. unfold Datetime.days_in_month. eval_month. lia. }
    assert (H2 : Datetime.valid_date fiscal_year 6 30 = true).
    { apply valid_date_spec. unfold Datetime.days_in_month. eval_month. lia. }
    rewrite (make_valid _ _ _ H1), (make_valid _ _ _ H2). split; reflexivity.
  - right. eexists. apply make_invalid; [lia | lia |].
    destruct (Datetime.valid_date fiscal_year 6 30) eqn:E; [|reflexivity].
    apply valid_date_spec in E. lia.
  - left. eexists. apply make_invalid; [lia | lia |].
    destruct (Datetime.valid_date (fiscal_year - 1) 7 1) eqn:E; [|reflexivity].
    apply valid_date_spec in E. lia.
  - left. eexists. apply make_invalid; [lia | lia |].
    destruct (Datetime.valid_date (fiscal_year - 1) 7 1) eqn:E; [|reflexivity].
    apply valid_date_spec in E. lia.
Qed.

Lemma of_ordinal_le a b : Datetime.of_ordinal a <= Datetime.of_ordinal b <-> a <= b.
Proof. unfold Datetime.of_ordinal, Datetime.us_per_day. lia. Qed.

Lemma fiscal_bounds_valid fiscal_year :
  2 <= fiscal_year <= 9999 ->
  Datetime.valid_date (fiscal_year - 1) 7 1 = true
  /\ Datetime.valid_date fiscal_year 6 30 = true.
Proof.
  intros H. split; apply valid_date_spec; unfold Datetime.days_in_month; eval_month; lia.
Qed.

(** In terms of the calendar: a date lies in the window of fiscal year
    [fiscal_year] exactly when it is in July to December of the year
    before, or in January to June of the year itself. *)
Lemma in_fiscal_year_calendar fiscal_year y m d :
  2 <= fiscal_year <= 9999 ->
  Datetime.valid_date y m d = true ->
  in_fiscal_year fiscal_year (Datetime.of_ordinal (Datetime.ymd2ord y m d)) = true
  <-> (y = fiscal_year - 1 /\ 7 <= m) \/ (y = fiscal_year /\ m <= 6).
Proof.
  intros Hfy Hv. destruct (fiscal_bounds_valid fiscal_year Hfy) as [Hs He].
  pose proof Hv as Hv'. apply valid_date_spec in Hv'. destruct Hv' as (Hy & Hm & Hd).
  assert (Hd30 : m = 6 -> d <= 30).
  { intros ->. unfold Datetime.days_in_month in Hd. eval_month. lia. }
  unfold in_fiscal_year, Datetime.leb, fiscal_start_of, fiscal_end_of.
  rewrite andb_true_iff, !Z.leb_le, !of_ordinal_le. split.
  - intros [H1 H2].
    destruct (Z.lt_trichotomy y (fiscal_year - 1)) as [Hlt|[Heq|Hgt]].
    + pose proof (ymd2ord_lt y m d (fiscal_year - 1) 7 1 Hv Hs ltac:(lia)). lia.
    + destruct (Z.le_gt_cases 7 m); [left; lia|].
      pose proof (ymd2ord_lt y m d (fiscal_year - 1) 7 1 Hv Hs ltac:(lia)). lia.
    + destruct (Z.lt_trichotomy y fiscal_year) as [Hlt|[Heq|Hgt']]; [lia| |].
      * destruct (Z.le_gt_cases m 6); [right; lia|].
        pose proof (ymd2ord_lt fiscal_year 6 30 y m d He Hv ltac:(lia)). lia.
      * pose proof (ymd2ord_lt fiscal_year 6 30 y m d He Hv ltac:(lia)). lia.
  - intros [[Ey Hm7]|[Ey Hm6]].
    + split.
      * destruct (Z.eq_dec m 7) as [->|Hne].
        -- destruct (Z.eq_dec d 1) as [->|Hd1]; [subst y; lia|].
           pose proof (ymd2ord_lt (fiscal_year - 1) 7 1 y 7 d Hs Hv ltac:(lia)). lia.
        -- pose proof (ymd2ord_lt (fiscal_year - 1) 7 1 y m d Hs Hv ltac:(lia)). lia.
      * pose proof (ymd2ord_lt y m d fiscal_year 6 30 Hv He ltac:(lia)). lia.
    + split.
      * pose proof (ymd2ord_lt (fiscal_year - 1) 7 1 y m d Hs Hv ltac:(lia)). lia.
      * destruct (Z.eq_dec m 6) as [->|Hne].
        -- destruct (Z.eq_dec d 30) as [->|Hd2]; [subst y; lia|].
           pose proof (ymd2ord_lt y 6 d fiscal_year 6 30 Hv He ltac:(lia)). lia.
        -- pose proof (ymd2ord_lt y m d fiscal_year 6 30 Hv He ltac:(lia)). lia.
Qed.

(** A string that parses is a date of the calendar. *)
Lemma strptime_calendar s x :
  strptime s = Ok x ->
  exists y m d,
    Datetime.valid_date y m d = true
    /\ x = Datetime.of_ordinal (Datetime.ymd2ord y m d).
Proof.
  unfold strptime, Strptime.strptime.
  destruct (Strptime.re_match s) as [[[[m d] y] [|a r]]|]; try discriminate.
  intros H. apply make_Ok in H. exists y, m, d. exact H.
Qed.

Section FiscalLoop.
Variable fiscal_year : Z.
Variable ks : list string.
Hypothesis ks_NoDup : NoDup ks.

(** One completion of one person, on a dictionary with the requested keys. *)
Lemma check_completion_table p f c :
  if completion_ok fiscal_year ks p c
  then check_completion (fiscal_start_of fiscal_year) (fiscal_end_of fiscal_year) p
         (table ks f) c
       = Ok (table ks (fun t =>
               f t ++ (if qualifies fiscal_year t c then name_list p else [])))
  else exists e,
       check_completion (fiscal_start_of fiscal_year) (fiscal_end_of fiscal_year) p
         (table ks f) c = Raise e.
Proof.
  assert (Hid : forall g : string -> list string,
             (forall t, In t ks -> g t = []) ->
             @Ok (Dict.t (list string)) (table ks f)
             = Ok (table ks (fun t => f t ++ g t))).
  { intros g Hg. f_equal. apply table_ext. intros t Ht.
    rewrite (Hg t Ht), app_nil_r. reflexivity. }
  unfold completion_ok, examined, check_completion, qualifies.
  destruct (Completion.name c) as [n|]; [|apply (Hid (fun _ => [])); reflexivity].
  destruct (truthy (Completion.timestamp c)) as [ts|];
    [|apply (Hid (fun _ => [])); reflexivity].
  unfold Dict.contains. rewrite get_table.
  destruct (existsb (String.eqb n) ks) eqn:Ein.
  - destruct (strptime ts) as [d|e]; cbn [bind]; [|exists e; reflexivity].
    fold (in_fiscal_year fiscal_year d).
    destruct (in_fiscal_year fiscal_year d).
    + unfold Person.getitem_name, name_list.
      destruct (Person.name p) as [pn|]; cbn [bind]; [|exists KeyError; reflexivity].
      unfold append_to. rewrite get_table, Ein.
      rewrite set_table by (try assumption; apply existsb_eqb_In; exact Ein).
      f_equal. apply table_ext. intros t _. rewrite (String.eqb_sym t n).
      destruct (String.eqb_spec n t) as [->|_]; simpl;
        [reflexivity | rewrite app_nil_r; reflexivity].
    + apply (Hid (fun t => if String.eqb n t && false then name_list p else [])).
      intros t _. rewrite andb_false_r. reflexivity.
  - apply (Hid (fun t =>
      if String.eqb n t
         && match strptime ts with
            | Ok d => in_fiscal_year fiscal_year d
            | Raise _ => false
            end
      then name_list p else [])).
    intros t Ht. destruct (String.eqb_spec n t) as [->|_]; [|reflexivity].
    apply existsb_eqb_In in Ht. congruence.
Qed.

(** The completions of one person. *)
Lemma check_completions_table p cs : forall f,
  if forallb (completion_ok fiscal_year ks p) cs
  then for_each (check_completion (fiscal_start_of fiscal_year)
                   (fiscal_end_of fiscal_year) p) cs (table ks f)
       = Ok (table ks (fun t =>
               f t ++ flat_map
                        (fun c => if qualifies fiscal_year t c then name_list p else [])
                        cs))
  else exists e,
       for_each (check_completion (fiscal_start_of fiscal_year)
                   (fiscal_end_of fiscal_year) p) cs (table ks f) = Raise e.
Proof.
  induction cs as [|c cs IH]; intros f; cbn [forallb for_each flat_map].
  - f_equal. apply table_ext. intros t _. rewrite app_nil_r. reflexivity.
  - pose proof (check_completion_table p f c) as Hc.
    destruct (completion_ok fiscal_year ks p c); cbn [andb].
    + rewrite Hc. cbn [bind].
      specialize (IH (fun t =>
        f t ++ (if qualifies fiscal_year t c then name_list p else []))).
      destruct (forallb (completion_ok fiscal_year ks p) cs).
      * rewrite IH. f_equal. apply table_ext. intros t _.
        rewrite <- app_assoc. reflexivity.
      * exact IH.
    + destruct Hc as [e ->]. exists e. reflexivity.
Qed.

(** The people. *)
Lemma check_people_table data : forall f,
  if forallb (fun p => forallb (completion_ok fiscal_year ks p) (Person.get_completions p))
       data
  then for_each
         (fun training_results person =>
            for_each (check_completion (fiscal_start_of fiscal_year)
                        (fiscal_end_of fiscal_year) person)
              (Person.get_completions person) training_results)
         data (table ks f)
       = Ok (table ks (fun t => f t ++ completers fiscal_year t data))
  else exists e,
       for_each
         (fun training_results person =>
            for_each (check_completion (fiscal_start_of fiscal_year)
                        (fiscal_end_of fiscal_year) person)
              (Person.get_completions person) training_results)
         data (table ks f)
       = Raise e.
Proof.
  induction data as [|p data IH]; intros f; cbn [forallb for_each completers flat_map].
  - f_equal. apply table_ext. intros t _. rewrite app_nil_r. reflexivity.
  - pose proof (check_completions_table p (Person.get_completions p) f) as Hp.
    destruct (forallb (completion_ok fiscal_year ks p) (Person.get_completions p));
      cbn [andb].
    + rewrite Hp. cbn [bind].
      specialize (IH (fun t =>
        f t ++ flat_map
                 (fun c => if qualifies fiscal_year t c then name_list p else [])
                 (Person.get_completions p))).
      destruct (forallb _ data).
      * rewrite IH. f_equal. apply table_ext. intros t _.
        unfold completers. rewrite <- app_assoc. reflexivity.
      * exact IH.
    + destruct Hp as [e ->]. exists e. reflexivity.
Qed.

End FiscalLoop.

Lemma forallb_ext {A : Type} (f g : A -> bool) (l : list A) :
  (forall x, f x = g x) -> forallb f l = forallb g l.
Proof.
  intros H. induction l as [|x l IH]; simpl; [reflexivity|].
  rewrite H, IH. reflexivity.
Qed.

Lemma completion_ok_first_occurrences fiscal_year trainings p c :
  completion_ok fiscal_year (first_occurrences trainings) p c
  = completion_ok fiscal_year trainings p c.
Proof.
  unfold completion_ok, examined.
  destruct (Completion.name c); [|reflexivity].
  destruct (truthy (Completion.timestamp c)); [|reflexivity].
  rewrite existsb_first_occurrences. reflexivity.
Qed.

(** The filter on every input. *)
Lemma get_completed_trainings_eq data trainings fiscal_year :
  if well_formed data trainings fiscal_year
  then get_completed_trainings data trainings fiscal_year
       = Ok (fiscal_report data trainings fiscal_year)
  else exists e, get_completed_trainings data trainings fiscal_year = Raise e.
Proof.
  unfold well_formed, get_completed_trainings. rewrite comprehension.
  pose proof (fiscal_bounds fiscal_year) as Hb.
  destruct ((2 <=? fiscal_year) && (fiscal_year <=? 9999)); cbn [andb].
  - destruct Hb as [-> ->]. cbn [bind].
    pose proof (check_people_table fiscal_year (first_occurrences trainings)
                  (NoDup_first_occurrences trainings) data (fun _ => [])) as H.
    rewrite (forallb_ext _
               (fun p => forallb (completion_ok fiscal_year trainings p)
                           (Person.get_completions p))) in H.
    + exact H.
    + intros p. apply forallb_ext. intros c. apply completion_ok_first_occurrences.
  - destruct Hb as [[e ->] | [e Hb]]; [exists e; reflexivity|].
    destruct (Datetime.make (fiscal_year - 1) 7 1); cbn [bind];
      [rewrite Hb|]; eexists; reflexivity.
Qed.

Lemma keys_fiscal_report data trainings fiscal_year :
  Dict.keys (fiscal_report data trainings fiscal_year) = first_occurrences trainings.
Proof. apply keys_table. Qed.

Lemma get_fiscal_report data trainings fiscal_year t :
  In t trainings ->
  Dict.get (fiscal_report data trainings fiscal_year) t
  = Some (completers fiscal_year t data).
Proof.
  intros Ht. unfold fiscal_report.
  fold (table (first_occurrences trainings) (fun t => completers fiscal_year t data)).
  rewrite get_table, existsb_first_occurrences.
  destruct (existsb (String.eqb t) trainings) eqn:E; [reflexivity|].
  apply existsb_eqb_In in Ht. congruence.
Qed.

(** C2. On every input on which it returns (and it returns exactly on the
    well-formed ones) [get_completed_trainings] returns the mapping whose
    keys are the requested training names in the order given, each once
    (so the list itself when it has no repetition), every one of them
    present, and whose value at a training is the list of the names of the
    people, in input order, with one name per completion whose [name] is
    that training, whose [timestamp] is present and parses, and whose date
    lies in the window from July 1 of the previous year to June 30 of the
    fiscal year, both included: the dates of July to December of the
    previous year and of January to June of the fiscal year. *)
Theorem get_completed_trainings_correct (data : list Person.t)
  (trainings : list string) (fiscal_year : Z) :
  (if well_formed data trainings fiscal_year
   then get_completed_trainings data trainings fiscal_year
        = Ok (fiscal_report data trainings fiscal_year)
   else exists e, get_completed_trainings data trainings fiscal_year = Raise e)
  /\ Dict.keys (fiscal_report data trainings fiscal_year) = first_occurrences trainings
  /\ (NoDup trainings ->
      Dict.keys (fiscal_report data trainings fiscal_year) = trainings)
  /\ (forall t, In t trainings ->
      Dict.get (fiscal_report data trainings fiscal_year) t
      = Some (completers fiscal_year t data))
  /\ (forall y m d,
      2 <= fiscal_year <= 9999 ->
      Datetime.valid_date y m d = true ->
      in_fiscal_year fiscal_year (Datetime.of_ordinal (Datetime.ymd2ord y m d)) = true
      <-> (y = fiscal_year - 1 /\ 7 <= m) \/ (y = fiscal_year /\ m <= 6)).
Proof.
  split; [apply get_completed_trainings_eq|].
  split; [apply keys_fiscal_report|].
  split; [|split].
  - intros H. rewrite keys_fiscal_report. apply first_occurrences_NoDup, H.
  - intros t Ht. apply get_fiscal_report, Ht.
  - intros y m d. apply in_fiscal_year_calendar.
Qed.

Lemma get_completed_trainings_correct_witness :
  get_completed_trainings [dana; erin; carol]
    ["Lab Safety"; "Welding"; "Lab Safety"; "X-Ray Safety"] 2024
  = Ok [("Lab Safety", ["Dana"; "Dana"; "Erin"]); ("Welding", ["Dana"]);
        ("X-Ray Safety", [])]
  /\ Dict.keys (fiscal_report [dana; erin; carol] ["Lab Safety"; "Welding"] 2024)
     = ["Lab Safety"; "Welding"].
Proof.
  split.
  - exact (proj1 (get_completed_trainings_correct [dana; erin; carol]
                    ["Lab Safety"; "Welding"; "Lab Safety"; "X-Ray Safety"] 2024)).
  - apply (proj1 (proj2 (proj2 (get_completed_trainings_correct [dana; erin; carol]
                                  ["Lab Safety"; "Welding"] 2024)))).
    repeat (constructor; [simpl; intuition discriminate|]). constructor.
Defined.

(** * No deduplication in the fiscal-year report *)

Lemma flat_map_repeat {A : Type} (q : A -> bool) (x : string) (cs : list A) :
  flat_map (fun c => if q c then [x] else []) cs = repeat x (length (filter q cs)).
Proof.
  induction cs as [|c cs IH]; simpl; [reflexivity|].
  destruct (q c); simpl; rewrite IH; reflexivity.
Qed.

Lemma completers_app fiscal_year t data1 data2 :
  completers fiscal_year t (data1 ++ data2)
  = completers fiscal_year t data1 ++ completers fiscal_year t data2.
Proof. apply flat_map_app. Qed.

Lemma completers_person fiscal_year t p pname :
  Person.name p = Some pname ->
  completers fiscal_year t [p]
  = repeat pname (length (filter (qualifies fiscal_year t) (Person.get_completions p))).
Proof.
  intros H. unfold completers, name_list. simpl. rewrite H, app_nil_r.
  apply flat_map_repeat.
Qed.

Lemma count_occ_completers_others fiscal_year t data pname :
  (forall q, In q data -> Person.name q <> Some pname) ->
  count_occ string_dec (completers fiscal_year t data) pname = O.
Proof.
  intros H. apply count_occ_not_In. unfold completers. rewrite in_flat_map.
  intros (q & Hq & Hin). rewrite in_flat_map in Hin. destruct Hin as (c & _ & Hc).
  destruct (qualifies fiscal_year t c); [|destruct Hc].
  unfold name_list in Hc. destruct (Person.name q) as [n|] eqn:E; [|destruct Hc].
  destruct Hc as [->|[]]. exact (H q Hq E).
Qed.

(** C6. When [get_completed_trainings] returns, a person contributes to
    the list of a requested training their name once per qualifying
    completion, in place and without deduplication: a person with [k]
    completions of that training in the window has their name [k] times
    in a row there, between the names from the people before and after;
    when nobody else bears that name, the name occurs exactly [k] times
    in the list. *)
Theorem get_completed_trainings_no_dedup (data1 data2 : list Person.t) (p : Person.t)
  (pname : string) (trainings : list string) (fiscal_year : Z) (t : string)
  (m : Dict.t (list string)) :
  In t trainings ->
  Person.name p = Some pname ->
  get_completed_trainings (data1 ++ p :: data2) trainings fiscal_year = Ok m ->
  Dict.get m t
  = Some (completers fiscal_year t data1
          ++ repeat pname
               (length (filter (qualifies fiscal_year t) (Person.get_completions p)))
          ++ completers fiscal_year t data2)
  /\ ((forall q, In q (data1 ++ data2) -> Person.name q <> Some pname) ->
      forall l, Dict.get m t = Some l ->
      count_occ string_dec l pname
      = length (filter (qualifies fiscal_year t) (Person.get_completions p))).
Proof.
  intros Ht Hp Hm.
  pose proof (get_completed_trainings_eq (data1 ++ p :: data2) trainings fiscal_year)
    as Heq.
  destruct (well_formed (data1 ++ p :: data2) trainings fiscal_year).
  2:{ destruct Heq as [e He]. congruence. }
  rewrite Heq in Hm. injection Hm as <-.
  assert (E : Dict.get (fiscal_report (data1 ++ p :: data2) trainings fiscal_year) t
              = Some (completers fiscal_year t data1
                      ++ repeat pname
                           (length (filter (qualifies fiscal_year t)
                                      (Person.get_completions p)))
                      ++ completers fiscal_year t data2)).
  { rewrite (get_fiscal_report _ _ _ _ Ht). f_equal.
    change (p :: data2) with ([p] ++ data2).
    rewrite !completers_app, (completers_person _ _ _ _ Hp). reflexivity. }
  split; [exact E|].
  intros Hothers l Hl. rewrite E in Hl. injection Hl as <-.
  rewrite !count_occ_app, count_occ_repeat_eq by reflexivity.
  rewrite !count_occ_completers_others; [lia | |];
    intros q Hq; apply Hothers; apply in_or_app; [right | left]; exact Hq.
Qed.

Lemma get_completed_trainings_no_dedup_witness :
  Dict.get [("Lab Safety", ["Erin"; "Dana"; "Dana"; "Erin"]); ("X-Ray Safety", [])]
    "Lab Safety"
  = Some (completers 2024 "Lab Safety" [erin]
          ++ repeat "Dana"
               (length (filter (qualifies 2024 "Lab Safety") (Person.get_completions dana)))
          ++ completers 2024 "Lab Safety" [erin])
  /\ ((forall q, In q ([erin] ++ [erin]) -> Person.name q <> Some "Dana") ->
      forall l,
      Dict.get [("Lab Safety", ["Erin"; "Dana"; "Dana"; "Erin"]); ("X-Ray Safety", [])]
        "Lab Safety" = Some l ->
      count_occ string_dec l "Dana"
      = length (filter (qualifies 2024 "Lab Safety") (Person.get_completions dana))).
Proof.
  apply (get_completed_trainings_no_dedup [erin] [erin] dana "Dana"
           ["Lab Safety"; "X-Ray Safety"] 2024 "Lab Safety").
  - simpl. left. reflexivity.
  - reflexivity.
  - vm_compute. reflexivity.
Defined.

(** * Malformed dates *)

Lemma forallb_false_In {A : Type} (f : A -> bool) (l : list A) (x : A) :
  In x l -> f x = false -> forallb f l = false.
Proof.
  intros Hin Hx. destruct (forallb f l) eqn:E; [|reflexivity].
  rewrite forallb_forall in E. rewrite (E x Hin) in Hx. discriminate.
Qed.

(** One completion that raises makes the filter raise. *)
Lemma get_completed_trainings_ill_formed data trainings fiscal_year p c :
  In p data -> In c (Person.get_completions p) ->
  completion_ok fiscal_year trainings p c = false ->
  exists e, get_completed_trainings data trainings fiscal_year = Raise e.
Proof.
  intros Hp Hc Hok.
  pose proof (get_completed_trainings_eq data trainings fiscal_year) as H.
  replace (well_formed data trainings fiscal_year) with false in H; [exact H|].
  symmetry. unfold well_formed. apply andb_false_iff. right.
  apply (forallb_false_In _ _ p Hp). exact (forallb_false_In _ _ c Hc Hok).
Qed.

(** One timestamp that is read and does not parse makes the resolver raise. *)
Lemma get_most_recent_completions_malformed cs c n ts :
  In c cs -> reading c = Some (n, ts) -> strptime ts = Raise ValueError ->
  get_most_recent_completions cs = Raise ValueError.
Proof.
  intros Hc Hr Hp.
  pose proof (get_most_recent_completions_total cs) as H.
  replace (forallb parses cs) with false in H; [exact H|].
  symmetry. apply (forallb_false_In _ _ c Hc). unfold parses. rewrite Hr, Hp.
  reflexivity.
Qed.

(** A person at whom [check_person] raises makes the report raise. *)
Lemma get_expired_or_expiring_trainings_raises data ref p :
  In p data ->
  (forall results, exists e, check_person ref results p = Raise e) ->
  exists e, get_expired_or_expiring_trainings data ref = Raise e.
Proof.
  intros Hp Hraise.
  apply (for_each_raises (check_person ref) (fun _ => True) p data); auto.
Qed.

(** C8. A date string that is parsed and is malformed ends the report with
    an exception, in each place where one is parsed: the non-empty
    timestamp of a completion of a requested training in
    [get_completed_trainings]; the non-empty timestamp of a completion
    with a non-empty name in [get_most_recent_completions], and so in
    [get_expired_or_expiring_trainings]; the non-empty [expires] of a most
    recent completion in [get_expired_or_expiring_trainings]. *)
Theorem malformed_date_is_fatal :
  (forall data trainings fiscal_year p c n ts,
      In p data -> In c (Person.get_completions p) ->
      Completion.name c = Some n -> In n trainings ->
      truthy (Completion.timestamp c) = Some ts ->
      strptime ts = Raise ValueError ->
      exists e, get_completed_trainings data trainings fiscal_year = Raise e)
  /\ (forall cs c n ts,
         In c cs ->
         truthy (Completion.name c) = Some n ->
         truthy (Completion.timestamp c) = Some ts ->
         strptime ts = Raise ValueError ->
         get_most_recent_completions cs = Raise ValueError)
  /\ (forall data reference_date p c n ts,
         In p data -> In c (Person.get_completions p) ->
         truthy (Completion.name c) = Some n ->
         truthy (Completion.timestamp c) = Some ts ->
         strptime ts = Raise ValueError ->
         exists e, get_expired_or_expiring_trainings data reference_date = Raise e)
  /\ (forall data reference_date p most_recent training_name details expiry_str,
         In p data ->
         get_most_recent_completions (Person.get_completions p) = Ok most_recent ->
         In (training_name, details) (Dict.items most_recent) ->
         truthy (Details.expires details) = Some expiry_str ->
         strptime expiry_str = Raise ValueError ->
         exists e, get_expired_or_expiring_trainings data reference_date = Raise e).
Proof.
  assert (Hres : forall cs c n ts,
    In c cs ->
    truthy (Completion.name c) = Some n ->
    truthy (Completion.timestamp c) = Some ts ->
    strptime ts = Raise ValueError ->
    get_most_recent_completions cs = Raise ValueError).
  { intros cs c n ts Hc Hn Hts Hp.
    apply (get_most_recent_completions_malformed cs c n ts Hc); [|exact Hp].
    unfold reading. rewrite Hn, Hts. reflexivity. }
  split; [|split; [exact Hres|split]].
  - intros data trainings fiscal_year p c n ts Hp Hc Hn Hin Hts Hparse.
    apply (get_completed_trainings_ill_formed data trainings fiscal_year p c Hp Hc).
    unfold completion_ok, examined. rewrite Hn, Hts.
    apply existsb_eqb_In in Hin. rewrite Hin, Hparse. reflexivity.
  - intros data ref p c n ts Hp Hc Hn Hts Hparse.
    apply (get_expired_or_expiring_trainings_raises data ref p Hp).
    intros results. exists ValueError. unfold check_person.
    rewrite (Hres _ c n ts Hc Hn Hts Hparse). reflexivity.
  - intros data ref p m n d e Hp Hm Hin He Hparse.
    apply (get_expired_or_expiring_trainings_raises data ref p Hp).
    intros results. unfold check_person. rewrite Hm. cbn [bind].
    destruct (for_each_raises (check_training ref) (fun _ => True) (n, d) (Dict.items m))
      with (s := @nil Flag.t) as [e' He']; auto.
    + intros acc _. exists ValueError. unfold check_training.
      rewrite He, Hparse. reflexivity.
    + exists e'. rewrite He'. reflexivity.
Qed.

Lemma malformed_date_is_fatal_witness :
  (exists e, get_completed_trainings [erin; mallory] ["Lab Safety"] 2024 = Raise e)
  /\ get_most_recent_completions (Person.get_completions mallory) = Raise ValueError
  /\ (exists e, get_expired_or_expiring_trainings [erin; mallory] october_first = Raise e)
  /\ (exists e, get_expired_or_expiring_trainings [erin; trent] october_first = Raise e).
Proof.
  destruct malformed_date_is_fatal as (H1 & H2 & H3 & H4).
  split; [|split; [|split]].
  - apply (H1 [erin; mallory] ["Lab Safety"] 2024 mallory
             (Completion.make (Some "Lab Safety") (Some "2023-07-01") None)
             "Lab Safety" "2023-07-01");
      simpl; try reflexivity; auto.
  - apply (H2 (Person.get_completions mallory)
             (Completion.make (Some "Lab Safety") (Some "2023-07-01") None)
             "Lab Safety" "2023-07-01");
      simpl; try reflexivity; auto.
  - apply (H3 [erin; mallory] october_first mallory
             (Completion.make (Some "Lab Safety") (Some "2023-07-01") None)
             "Lab Safety" "2023-07-01");
      simpl; try reflexivity; auto.
  - apply (H4 [erin; trent] october_first trent
             [("Lab Safety", Details.make (Datetime.of_ordinal 738702) (Some "July 2024"))]
             "Lab Safety"
             (Details.make (Datetime.of_ordinal 738702) (Some "July 2024")) "July 2024");
      simpl; try reflexivity; auto.
Defined.

(** * The person's name *)

(** The count does not read the names of the people. *)
Lemma get_training_count_ignores_names data :
  get_training_count (map without_name data) = get_training_count data.
Proof.
  rewrite !get_training_count_flat. f_equal.
  unfold all_completions. rewrite flat_map_concat_map, map_map.
  rewrite <- flat_map_concat_map. reflexivity.
Qed.

(** C9, as amended. Two report functions read the person's [name] with an
    unguarded lookup, each only when it has something to report for the
    person: [get_completed_trainings] raises when a person without [name]
    has a qualifying completion of a requested training, and
    [get_expired_or_expiring_trainings] raises when a person without
    [name] has at least one flagged training.  [get_training_count] never
    reads the field: it cannot raise, and it returns the same counts when
    every [name] is taken away. *)
Theorem person_name_is_required_when_reported :
  (forall data trainings fiscal_year p c t,
      In p data -> Person.name p = None ->
      In c (Person.get_completions p) -> In t trainings ->
      qualifies fiscal_year t c = true ->
      exists e, get_completed_trainings data trainings fiscal_year = Raise e)
  /\ (forall data reference_date p most_recent flag flags,
         In p data -> Person.name p = None ->
         get_most_recent_completions (Person.get_completions p) = Ok most_recent ->
         for_each (check_training reference_date) (Dict.items most_recent) []
         = Ok (flag :: flags) ->
         exists e, get_expired_or_expiring_trainings data reference_date = Raise e)
  /\ (forall data,
         get_training_count (map without_name data) = get_training_count data).
Proof.
  split; [|split].
  - intros data trainings fiscal_year p c t Hp Hname Hc Ht Hq.
    apply (get_completed_trainings_ill_formed data trainings fiscal_year p c Hp Hc).
    unfold qualifies in Hq. unfold completion_ok, examined.
    destruct (Completion.name c) as [n|]; [|discriminate].
    destruct (truthy (Completion.timestamp c)) as [ts|]; [|discriminate].
    apply andb_true_iff in Hq. destruct Hq as [Hn Hd].
    apply String.eqb_eq in Hn. subst n.
    apply existsb_eqb_In in Ht. rewrite Ht.
    destruct (strptime ts) as [d|]; [|discriminate].
    rewrite Hd, Hname. reflexivity.
  - intros data ref p m flag flags Hp Hname Hm Hflags.
    apply (get_expired_or_expiring_trainings_raises data ref p Hp).
    intros results. exists KeyError. unfold check_person.
    rewrite Hm. cbn [bind]. rewrite Hflags. cbn [bind].
    unfold Person.getitem_name. rewrite Hname. reflexivity.
  - apply get_training_count_ignores_names.
Qed.

Lemma person_name_is_required_when_reported_witness :
  (exists e, get_completed_trainings [erin; nameless] ["Lab Safety"] 2023 = Raise e)
  /\ (exists e, get_expired_or_expiring_trainings [erin; nameless] october_first = Raise e)
  /\ get_training_count (map without_name [erin; nameless])
     = get_training_count [erin; nameless].
Proof.
  destruct person_name_is_required_when_reported as (H1 & H2 & H3).
  split; [|split].
  - apply (H1 [erin; nameless] ["Lab Safety"] 2023 nameless
             (Completion.make (Some "Lab Safety") (Some "9/30/2022") (Some "9/30/2023"))
             "Lab Safety");
      simpl; try reflexivity; auto.
  - apply (H2 [erin; nameless] october_first nameless
             [("Lab Safety", Details.make (Datetime.of_ordinal 738428) (Some "9/30/2023"))]
             (Flag.make "Lab Safety" "expired") []);
      simpl; try reflexivity; auto.
  - apply H3.
Defined.

(** A person without [name] whose only training has expired: the expiry
    report, too, ends with [KeyError], so [get_completed_trainings] is not
    the only report function that needs the field. *)
Lemma expiry_report_needs_name :
  Person.name nameless = None
  /\ get_expired_or_expiring_trainings [nameless] october_first = Raise KeyError.
Proof. split; reflexivity. Qed.

(** * People without a [completions] field *)

(** A person with no completions is passed over by each report. *)
Lemma get_completed_trainings_skip data1 p data2 trainings fiscal_year :
  Person.get_completions p = [] ->
  get_completed_trainings (data1 ++ p :: data2) trainings fiscal_year
  = get_completed_trainings (data1 ++ data2) trainings fiscal_year.
Proof.
  intros H. unfold get_completed_trainings.
  destruct (Datetime.make (fiscal_year - 1) 7 1); cbn [bind]; [|reflexivity].
  destruct (Datetime.make fiscal_year 6 30); cbn [bind]; [|reflexivity].
  rewrite !for_each_app. cbn [for_each]. rewrite H. cbn [for_each bind]. reflexivity.
Qed.

Lemma get_expired_or_expiring_trainings_skip data1 p data2 ref :
  Person.get_completions p = [] ->
  get_expired_or_expiring_trainings (data1 ++ p :: data2) ref
  = get_expired_or_expiring_trainings (data1 ++ data2) ref.
Proof.
  intros H. unfold get_expired_or_expiring_trainings.
  rewrite !for_each_app. cbn [for_each]. unfold check_person at 2. rewrite H.
  reflexivity.
Qed.

Lemma get_training_count_skip data1 p data2 :
  Person.get_completions p = [] ->
  get_training_count (data1 ++ p :: data2) = get_training_count (data1 ++ data2).
Proof.
  intros H. rewrite !get_training_count_flat. unfold all_completions.
  rewrite !flat_map_app. simpl. rewrite H. reflexivity.
Qed.

Lemma filled_same p q :
  filled p q ->
  Person.name q = Person.name p /\ Person.get_completions q = Person.get_completions p.
Proof.
  intros [->|[H ->]]; [split; reflexivity|].
  unfold Person.get_completions. rewrite H. split; reflexivity.
Qed.

Lemma all_completions_filled data data' :
  Forall2 filled data data' -> all_completions data' = all_completions data.
Proof.
  induction 1 as [|p q data data' Hpq _ IH]; simpl; [reflexivity|].
  destruct (filled_same _ _ Hpq) as [_ ->]. rewrite IH. reflexivity.
Qed.

(** A loop over the people whose body does not tell [p] from [q]. *)
Lemma for_each_filled {S : Type} (body : S -> Person.t -> result S) data data' :
  (forall p q s, filled p q -> body s q = body s p) ->
  Forall2 filled data data' ->
  forall s, for_each body data' s = for_each body data s.
Proof.
  intros Hbody. induction 1 as [|p q data data' Hpq _ IH]; intros s; simpl;
    [reflexivity|].
  rewrite (Hbody p q s Hpq). destruct (body s p); simpl; [apply IH | reflexivity].
Qed.

Lemma check_completion_name fs fe p q tr c :
  Person.name q = Person.name p ->
  check_completion fs fe q tr c = check_completion fs fe p tr c.
Proof.
  intros H. unfold check_completion, Person.getitem_name. rewrite H. reflexivity.
Qed.

(** C10. A person without the [completions] field counts as a person with
    an empty list of completions in all three report functions: putting
    the empty list in the place of the absent field, for any of the
    people, changes no output; and such a person adds nothing and raises
    nothing, whatever the person's [name]: the outputs are those of the
    dataset without the person. *)
Theorem absent_completions_is_empty (data data' : list Person.t)
  (trainings : list string) (fiscal_year : Z) (reference_date : Datetime.t) :
  Forall2 filled data data' ->
  (get_training_count data' = get_training_count data
   /\ get_completed_trainings data' trainings fiscal_year
      = get_completed_trainings data trainings fiscal_year
   /\ get_expired_or_expiring_trainings data' reference_date
      = get_expired_or_expiring_trainings data reference_date)
  /\ (forall data1 data2 name,
      data = data1 ++ Person.make name None :: data2 ->
      get_training_count data = get_training_count (data1 ++ data2)
      /\ get_completed_trainings data trainings fiscal_year
         = get_completed_trainings (data1 ++ data2) trainings fiscal_year
      /\ get_expired_or_expiring_trainings data reference_date
         = get_expired_or_expiring_trainings (data1 ++ data2) reference_date).
Proof.
  intros H. split; [split; [|split]|].
  - rewrite !get_training_count_flat, (all_completions_filled _ _ H). reflexivity.
  - unfold get_completed_trainings.
    destruct (Datetime.make (fiscal_year - 1) 7 1); cbn [bind]; [|reflexivity].
    destruct (Datetime.make fiscal_year 6 30); cbn [bind]; [|reflexivity].
    apply for_each_filled; [|exact H].
    intros p q s Hpq. destruct (filled_same _ _ Hpq) as [Hn ->].
    apply for_each_ext. intros tr c _. apply check_completion_name, Hn.
  - unfold get_expired_or_expiring_trainings.
    apply for_each_filled; [|exact H].
    intros p q s Hpq. destruct (filled_same _ _ Hpq) as [Hn Hc].
    unfold check_person, Person.getitem_name. rewrite Hn, Hc. reflexivity.
  - intros data1 data2 name ->. split; [|split].
    + apply get_training_count_skip. reflexivity.
    + apply get_completed_trainings_skip. reflexivity.
    + apply get_expired_or_expiring_trainings_skip. reflexivity.
Qed.

Lemma absent_completions_is_empty_witness :
  (get_training_count [dana; Person.make (Some "Carol") (Some []); erin]
   = get_training_count [dana; carol; erin]
   /\ get_completed_trainings [dana; Person.make (Some "Carol") (Some []); erin]
        ["Lab Safety"] 2024
      = get_completed_trainings [dana; carol; erin] ["Lab Safety"] 2024
   /\ get_expired_or_expiring_trainings
        [dana; Person.make (Some "Carol") (Some []); erin] october_first
      = get_expired_or_expiring_trainings [dana; carol; erin] october_first)
  /\ (forall data1 data2 name,
      [dana; carol; erin] = data1 ++ Person.make name None :: data2 ->
      get_training_count [dana; carol; erin] = get_training_count (data1 ++ data2)
      /\ get_completed_trainings [dana; carol; erin] ["Lab Safety"] 2024
         = get_completed_trainings (data1 ++ data2) ["Lab Safety"] 2024
      /\ get_expired_or_expiring_trainings [dana; carol; erin] october_first
         = get_expired_or_expiring_trainings (data1 ++ data2) october_first).
Proof.
  apply (absent_completions_is_empty [dana; carol; erin]
           [dana; Person.make (Some "Carol") (Some []); erin]
           ["Lab Safety"] 2024 october_first).
  constructor; [left; reflexivity|].
  constructor; [right; split; reflexivity|].
  constructor; [left; reflexivity|].
  constructor.
Defined.

(** * Runs on sample data *)

(** The date parser on some strings. *)
Example strptime_samples :
  strptime "10/1/2023" = Ok october_first
  /\ strptime "10/01/2023" = Ok october_first
  /\ strptime "2/29/2024" = Datetime.make 2024 2 29
  /\ strptime "2/29/2023" = Raise ValueError
  /\ strptime "13/01/2023" = Raise ValueError
  /\ strptime "1/ 5/2023" = Datetime.make 2023 1 5
  /\ strptime "1/5/20231" = Raise ValueError
  /\ strptime "1/5/0000" = Raise ValueError
  /\ strptime "2023-10-01" = Raise ValueError
  /\ strptime "" = Raise ValueError
  /\ strptime "12/31/9999" = Ok last_day.
Proof. repeat split. Qed.

(** The three reports on three people. *)
Example reports_samples :
  get_training_count [alice; bob; carol] = [("X-Ray Safety", 2%nat); ("Lab Safety", 4%nat)]
  /\ get_completed_trainings [alice; bob; carol] ["Lab Safety"; "Welding"] 2024
     = Ok [("Lab Safety", ["Alice"; "Bob"]); ("Welding", [])]
  /\ get_expired_or_expiring_trainings [alice; bob; carol] new_year_2025
     = Ok [Report.make "Alice" [Flag.make "X-Ray Safety" "expires soon"];
           Report.make "Bob" [Flag.make "Lab Safety" "expired"]]
  /\ get_expired_or_expiring_trainings [alice; bob; carol] october_first = Ok [].
Proof. repeat split. Qed.

(** The window of fiscal year 2024: 2023-07-01 and 2024-06-30 are in it,
    the days before and after are not. *)
Example fiscal_window_2024 :
  map (qualifies 2024 "Lab Safety") (Person.get_completions dana)
  = [true; false; true; false; false]
  /\ get_completed_trainings [dana] ["Lab Safety"] 2024
     = Ok [("Lab Safety", ["Dana"; "Dana"])]
  /\ get_completed_trainings [dana] ["Lab Safety"] 1 = Raise ValueError
  /\ get_completed_trainings [dana] ["Lab Safety"] 10000 = Raise ValueError.
Proof. repeat split. Qed.

(** Of two completions of one training the later one decides: Alice's
    X-Ray Safety of 2023 expired on 2024-01-15, the one of 2024 expires on
    2025-01-15, and on 2025-01-01 the training is expiring, not expired. *)
Example later_completion_decides :
  get_most_recent_completions (Person.get_completions alice)
  = Ok [("X-Ray Safety",
         Details.make (Datetime.of_ordinal (Datetime.ymd2ord 2024 1 15))
           (Some "01/15/2025"));
        ("Lab Safety",
         Details.make (Datetime.of_ordinal (Datetime.ymd2ord 2023 7 1)) None)]
  /\ get_expired_or_expiring_trainings [alice] new_year_2025
     = Ok [Report.make "Alice" [Flag.make "X-Ray Safety" "expires soon"]].
Proof. repeat split. Qed.

(** Two spellings of one date are a tie, and the first completion seen
    wins it: on such lists the order of the list shows in the result. *)
Example same_date_two_spellings :
  strptime "01/05/2024" = strptime "1/5/2024"
  /\ get_most_recent_completions [padded; unpadded]
     = Ok [("Lab Safety",
            Details.make (Datetime.of_ordinal (Datetime.ymd2ord 2024 1 5))
              (Some "01/05/2025"))]
  /\ get_most_recent_completions [unpadded; padded]
     = Ok [("Lab Safety",
            Details.make (Datetime.of_ordinal (Datetime.ymd2ord 2024 1 5))
              (Some "01/05/2026"))].
Proof. repeat split. Qed.

(** An empty string is treated like an absent field, and is never parsed:
    an empty [name] is not counted, an empty [name] or [timestamp] is not
    resolved, an empty [timestamp] is not a completion of the fiscal year,
    and an empty [expires] gives no status. *)
Example empty_fields_are_skipped :
  get_training_count [frank] = [("Lab Safety", 1%nat); ("Welding", 1%nat)]
  /\ get_most_recent_completions (Person.get_completions frank)
     = Ok [("Welding",
            Details.make (Datetime.of_ordinal (Datetime.ymd2ord 2024 1 5)) (Some ""))]
  /\ get_completed_trainings [frank] ["Lab Safety"; "Welding"] 2024
     = Ok [("Lab Safety", []); ("Welding", ["Frank"])]
  /\ get_expired_or_expiring_trainings [frank] new_year_2025 = Ok [].
Proof. repeat split. Qed.

(** * Further properties of the count *)

Lemma count_completion_keys names d c :
  Dict.keys d = first_occurrences names ->
  Dict.keys (count_completion d c)
  = first_occurrences
      (names ++ match truthy (Completion.name c) with Some n => [n] | None => [] end).
Proof.
  intros Hk. unfold count_completion, increment.
  destruct (truthy (Completion.name c)) as [n|]; [|rewrite app_nil_r; exact Hk].
  rewrite first_occurrences_snoc.
  destruct (Dict.get d n) as [k|] eqn:Eg.
  - rewrite keys_set_present by congruence.
    destruct (in_dec string_dec n names) as [_|Hout]; [exact Hk|].
    exfalso. apply Hout. apply In_first_occurrences. rewrite <- Hk.
    destruct (in_dec string_dec n (Dict.keys d)) as [H|H]; [exact H|].
    apply get_None_keys in H. congruence.
  - rewrite (keys_set_absent _ _ _ Eg), Hk.
    destruct (in_dec string_dec n names) as [Hin|_]; [|reflexivity].
    exfalso. apply get_None_keys in Eg. apply Eg. rewrite Hk.
    apply In_first_occurrences. exact Hin.
Qed.

Lemma count_fold_keys cs :
  Dict.keys (fold_left count_completion cs Dict.empty)
  = first_occurrences
      (flat_map
         (fun c => match truthy (Completion.name c) with Some n => [n] | None => [] end)
         cs).
Proof.
  induction cs as [|c cs IH] using rev_ind; [reflexivity|].
  rewrite fold_left_app, flat_map_app. simpl. rewrite app_nil_r.
  apply count_completion_keys. exact IH.
Qed.

(** X1. The keys of the count stand in the order in which the training
    names are first met in the dataset. *)
Theorem get_training_count_key_order (data : list Person.t) :
  Dict.keys (get_training_count data) = first_occurrences (counted_names data).
Proof. rewrite get_training_count_flat. apply count_fold_keys. Qed.

(** The count of a training, 0 when it is no key. *)
Lemma count_of_get_training_count data n :
  count_of (get_training_count data) n
  = length (filter (carries n) (all_completions data)).
Proof.
  unfold count_of. rewrite get_training_count_flat, get_count_fold. simpl.
  destruct (length (filter (carries n) (all_completions data))); reflexivity.
Qed.

(** X2. Counting is additive over datasets: the count of a training in
    two datasets put one after the other is the sum of its counts in
    each (a training that is no key counting 0). *)
Theorem get_training_count_app (data1 data2 : list Person.t) (n : string) :
  count_of (get_training_count (data1 ++ data2)) n
  = (count_of (get_training_count data1) n + count_of (get_training_count data2) n)%nat.
Proof.
  rewrite !count_of_get_training_count. unfold all_completions.
  rewrite flat_map_app, filter_app, length_app. reflexivity.
Qed.

Lemma length_filter_Permutation {A : Type} (f : A -> bool) (l1 l2 : list A) :
  Permutation l1 l2 -> length (filter f l1) = length (filter f l2).
Proof.
  intros H. induction H; simpl.
  - reflexivity.
  - destruct (f x); simpl; congruence.
  - destruct (f x), (f y); reflexivity.
  - congruence.
Qed.

(** X3. The counts do not depend on the order of the people: on two
    datasets that are permutations of each other every training has the
    same count (the order of the keys may differ). *)
Theorem get_training_count_Permutation (data1 data2 : list Person.t) :
  Permutation data1 data2 ->
  forall n, Dict.get (get_training_count data1) n = Dict.get (get_training_count data2) n.
Proof.
  intros H n. rewrite !get_training_count_flat, !get_count_fold.
  rewrite (length_filter_Permutation (carries n) (all_completions data1)
             (all_completions data2)); [reflexivity|].
  unfold all_completions. apply Permutation_flat_map, H.
Qed.

Lemma get_training_count_Permutation_witness :
  Dict.get (get_training_count [alice; bob; carol]) "Lab Safety"
  = Dict.get (get_training_count [carol; bob; alice]) "Lab Safety".
Proof.
  apply (get_training_count_Permutation [alice; bob; carol] [carol; bob; alice]).
  apply (Permutation_rev [alice; bob; carol]).
Defined.

(** * Further properties of the fiscal-year report *)

(** ** Loops with an invariant *)

Lemma for_each_Raise {A S : Type} (body : S -> A -> result S) (P : exn -> Prop)
  (l : list A) :
  (forall s x e, In x l -> body s x = Raise e -> P e) ->
  forall s e, for_each body l s = Raise e -> P e.
Proof.
  induction l as [|x l IH]; intros H s e; simpl; [discriminate|].
  destruct (body s x) as [s'|e'] eqn:E; simpl.
  - apply IH. intros s0 y e0 Hy. apply H. right. exact Hy.
  - intros [= <-]. exact (H s x e' (or_introl eq_refl) E).
Qed.

Lemma for_each_inv {A S : Type} (body : S -> A -> result S) (I : S -> Prop)
  (l : list A) :
  (forall s x s', I s -> body s x = Ok s' -> I s') ->
  forall s s', I s -> for_each body l s = Ok s' -> I s'.
Proof.
  intros Hstep. induction l as [|x l IH]; intros s s' Hs; simpl.
  - intros [= <-]. exact Hs.
  - destruct (body s x) as [s1|e] eqn:E; simpl; [|discriminate].
    apply IH. exact (Hstep _ _ _ Hs E).
Qed.

Lemma for_each_inv_ext {A S : Type} (f g : S -> A -> result S) (I : S -> Prop)
  (l : list A) :
  (forall s x s', I s -> g s x = Ok s' -> I s') ->
  (forall s x, I s -> In x l -> f s x = g s x) ->
  forall s, I s -> for_each f l s = for_each g l s.
Proof.
  intros Hstep. induction l as [|x l IH]; intros Hfg s Hs; simpl; [reflexivity|].
  rewrite (Hfg s x Hs (or_introl eq_refl)).
  destruct (g s x) as [s'|e] eqn:E; simpl; [|reflexivity].
  apply IH; [|exact (Hstep _ _ _ Hs E)].
  intros s0 y Hs0 Hy. apply Hfg; [exact Hs0 | right; exact Hy].
Qed.

Lemma for_each_filter_inv {A S : Type} (body : S -> A -> result S) (keep : A -> bool)
  (I : S -> Prop) (l : list A) :
  (forall s x s', I s -> body s x = Ok s' -> I s') ->
  (forall s x, I s -> keep x = false -> body s x = Ok s) ->
  forall s, I s -> for_each body (filter keep l) s = for_each body l s.
Proof.
  intros Hstep Hskip. induction l as [|x l IH]; intros s Hs; simpl; [reflexivity|].
  destruct (keep x) eqn:K; simpl.
  - destruct (body s x) as [s'|e] eqn:E; simpl; [|reflexivity].
    apply IH. exact (Hstep _ _ _ Hs E).
  - rewrite (Hskip s x Hs K). simpl. apply IH, Hs.
Qed.

Lemma for_each_map {A B S : Type} (body : S -> B -> result S) (g : A -> B)
  (l : list A) (s : S) :
  for_each body (map g l) s = for_each (fun s x => body s (g x)) l s.
Proof.
  revert s. induction l as [|x l IH]; intros s; simpl; [reflexivity|].
  destruct (body s (g x)); simpl; [apply IH | reflexivity].
Qed.

(** ** The exceptions of the filter *)

Lemma make_Raise y m d e :
  1 <= m <= 12 -> 1 <= d <= 31 ->
  Datetime.make y m d = Raise e ->
  e = if Datetime.fits_int y then ValueError else OverflowError.
Proof.
  intros Hm Hd. destruct (Datetime.valid_date y m d) eqn:Ev.
  - rewrite (make_valid _ _ _ Ev). discriminate.
  - rewrite (make_invalid _ _ _ Hm Hd Ev). intros [= <-]. reflexivity.
Qed.

(** The two dates of the window: the first one decides on the exception. *)
Lemma fiscal_window_Raise fiscal_year :
  (exists fs fe, Datetime.make (fiscal_year - 1) 7 1 = Ok fs
                 /\ Datetime.make fiscal_year 6 30 = Ok fe
                 /\ 2 <= fiscal_year <= 9999)
  \/ ((fiscal_year < 2 \/ 9999 < fiscal_year)
      /\ (fs <- Datetime.make (fiscal_year - 1) 7 1 ;;
          fe <- Datetime.make fiscal_year 6 30 ;; Ok (fs, fe))
         = Raise (if Datetime.fits_int (fiscal_year - 1)
                  then ValueError else OverflowError)).
Proof.
  pose proof (fiscal_bounds fiscal_year) as B.
  destruct (Z.leb_spec 2 fiscal_year) as [H2|H2],
           (Z.leb_spec fiscal_year 9999) as [H9|H9]; cbn [andb] in B.
  - left. destruct B as [B1 B2]. eexists. eexists.
    split; [exact B1 | split; [exact B2 | lia]].
  - right. split; [lia|].
    destruct (Datetime.make (fiscal_year - 1) 7 1) as [fs|e1] eqn:E1; cbn [bind].
    + apply make_Ok in E1. destruct E1 as [Ev _]. apply valid_date_spec in Ev.
      assert (Ef : Datetime.fits_int (fiscal_year - 1) = true).
      { apply fits_int_spec. unfold Datetime.INT_MIN, Datetime.INT_MAX. lia. }
      rewrite Ef.
      destruct (Datetime.make fiscal_year 6 30) as [fe|e2] eqn:E2; cbn [bind].
      * apply make_Ok in E2. destruct E2 as [Ev2 _]. apply valid_date_spec in Ev2. lia.
      * apply make_Raise in E2; [|lia|lia]. rewrite E2.
        replace (Datetime.fits_int fiscal_year) with true; [reflexivity|].
        symmetry. apply fits_int_spec. unfold Datetime.INT_MIN, Datetime.INT_MAX. lia.
    + apply make_Raise in E1; [|lia|lia]. rewrite E1. reflexivity.
  - right. split; [lia|].
    destruct (Datetime.make (fiscal_year - 1) 7 1) as [fs|e1] eqn:E1; cbn [bind].
    + apply make_Ok in E1. destruct E1 as [Ev _]. apply valid_date_spec in Ev. lia.
    + apply make_Raise in E1; [|lia|lia]. rewrite E1. reflexivity.
  - lia.
Qed.

Lemma check_completion_Raise fs fe p tr c e :
  check_completion fs fe p tr c = Raise e ->
  e = ValueError \/ (e = KeyError /\ Person.name p = None).
Proof.
  unfold check_completion.
  destruct (Completion.name c) as [n|]; [|discriminate].
  destruct (truthy (Completion.timestamp c)) as [ts|]; [|discriminate].
  unfold Dict.contains. destruct (Dict.get tr n) as [l|] eqn:Eg; [|discriminate].
  destruct (strptime ts) as [d|e'] eqn:Ep; cbn [bind].
  - destruct (Datetime.leb fs d && Datetime.leb d fe); [|discriminate].
    unfold Person.getitem_name. destruct (Person.name p); cbn [bind].
    + unfold append_to. rewrite Eg. discriminate.
    + intros [= <-]. right. split; reflexivity.
  - intros [= <-]. left. exact (strptime_raises _ _ Ep).
Qed.

(** The function in terms of its window. *)
Lemma get_completed_trainings_window data trainings fiscal_year :
  get_completed_trainings data trainings fiscal_year
  = (w <- (fs <- Datetime.make (fiscal_year - 1) 7 1 ;;
           fe <- Datetime.make fiscal_year 6 30 ;; Ok (fs, fe)) ;;
     for_each
       (fun training_results person =>
          for_each (check_completion (fst w) (snd w) person)
            (Person.get_completions person) training_results)
       data
       (fold_left (fun d training => Dict.set d training []) trainings Dict.empty)).
Proof.
  unfold get_completed_trainings.
  destruct (Datetime.make (fiscal_year - 1) 7 1); cbn [bind]; [|reflexivity].
  destruct (Datetime.make fiscal_year 6 30); reflexivity.
Qed.

Lemma get_completed_trainings_Raise data trainings fiscal_year e :
  get_completed_trainings data trainings fiscal_year = Raise e ->
  e = ValueError
  \/ (e = KeyError /\ exists p, In p data /\ Person.name p = None)
  \/ (e = OverflowError
      /\ (fiscal_year - 1 < Datetime.INT_MIN \/ Datetime.INT_MAX < fiscal_year - 1)).
Proof.
  rewrite get_completed_trainings_window.
  destruct (fiscal_window_Raise fiscal_year)
    as [(fs & fe & -> & -> & _) | [_ ->]]; cbn [bind fst snd].
  - intros H.
    refine (for_each_Raise _
              (fun e => e = ValueError
                        \/ (e = KeyError /\ exists p, In p data /\ Person.name p = None)
                        \/ (e = OverflowError
                            /\ (fiscal_year - 1 < Datetime.INT_MIN
                                \/ Datetime.INT_MAX < fiscal_year - 1)))
              data _ _ e H).
    intros tr p e0 Hp Hinner.
    refine (for_each_Raise _
              (fun e => e = ValueError
                        \/ (e = KeyError /\ exists p, In p data /\ Person.name p = None)
                        \/ (e = OverflowError
                            /\ (fiscal_year - 1 < Datetime.INT_MIN
                                \/ Datetime.INT_MAX < fiscal_year - 1)))
              (Person.get_completions p) _ tr e0 Hinner).
    intros tr' c e1 _ Hc.
    destruct (check_completion_Raise _ _ _ _ _ _ Hc) as [->|[-> Hn]]; [left; reflexivity|].
    right. left. split; [reflexivity|]. exists p. split; assumption.
  - destruct (Datetime.fits_int (fiscal_year - 1)) eqn:Ef; intros [= <-].
    + left. reflexivity.
    + right. right. split; [reflexivity|].
      destruct (Z.le_gt_cases Datetime.INT_MIN (fiscal_year - 1)) as [Hlo|Hlo]; [|lia].
      destruct (Z.le_gt_cases (fiscal_year - 1) Datetime.INT_MAX) as [Hhi|Hhi]; [|lia].
      assert (E : Datetime.fits_int (fiscal_year - 1) = true)
        by (apply fits_int_spec; split; assumption).
      congruence.
Qed.

(** X4. [get_completed_trainings] ends with no exception other than
    [ValueError], [KeyError] and [OverflowError]; with [KeyError] only
    when some person of the dataset has no [name] (the key of a requested
    training is always there when a name is appended to its list), and
    with [OverflowError] only when the year before the fiscal year does
    not fit a C [int]. *)
Theorem get_completed_trainings_exceptions (data : list Person.t)
  (trainings : list string) (fiscal_year : Z) (e : exn) :
  get_completed_trainings data trainings fiscal_year = Raise e ->
  e = ValueError
  \/ (e = KeyError /\ exists p, In p data /\ Person.name p = None)
  \/ (e = OverflowError
      /\ (fiscal_year - 1 < Datetime.INT_MIN \/ Datetime.INT_MAX < fiscal_year - 1)).
Proof. apply get_completed_trainings_Raise. Qed.

Lemma get_completed_trainings_exceptions_witness :
  KeyError = ValueError
  \/ (KeyError = KeyError /\ exists p, In p [erin; nameless] /\ Person.name p = None)
  \/ (KeyError = OverflowError
      /\ (2023 - 1 < Datetime.INT_MIN \/ Datetime.INT_MAX < 2023 - 1)).
Proof.
  apply (get_completed_trainings_exceptions [erin; nameless] ["Lab Safety"] 2023).
  reflexivity.
Defined.

(** X5. A fiscal year below 2 or above 9999 has no window in the date
    type: [get_completed_trainings] raises on it, whatever the dataset and
    the trainings, the empty ones included; it raises [ValueError] when
    the year before the fiscal year fits a C [int], and [OverflowError]
    when it does not. *)
Theorem get_completed_trainings_fiscal_year_bounds (data : list Person.t)
  (trainings : list string) (fiscal_year : Z) :
  fiscal_year < 2 \/ 9999 < fiscal_year ->
  get_completed_trainings data trainings fiscal_year
  = Raise (if Datetime.fits_int (fiscal_year - 1) then ValueError else OverflowError).
Proof.
  intros H. rewrite get_completed_trainings_window.
  destruct (fiscal_window_Raise fiscal_year)
    as [(fs & fe & _ & _ & Hr) | [_ ->]]; [lia | reflexivity].
Qed.

Lemma get_completed_trainings_fiscal_year_bounds_witness :
  get_completed_trainings [] [] 1 = Raise ValueError
  /\ get_completed_trainings [dana] ["Lab Safety"] 10000 = Raise ValueError
  /\ get_completed_trainings [dana] ["Lab Safety"] 2147483649 = Raise OverflowError
  /\ get_completed_trainings [dana] ["Lab Safety"] (-2147483648) = Raise OverflowError.
Proof.
  split; [|split; [|split]].
  - apply (get_completed_trainings_fiscal_year_bounds [] [] 1). left. lia.
  - apply (get_completed_trainings_fiscal_year_bounds [dana] ["Lab Safety"] 10000).
    right. lia.
  - apply (get_completed_trainings_fiscal_year_bounds [dana] ["Lab Safety"] 2147483649).
    right. lia.
  - apply (get_completed_trainings_fiscal_year_bounds [dana] ["Lab Safety"] (-2147483648)).
    left. lia.
Defined.

(** ** Trainings that were not requested *)

Lemma keys_are_comprehension trainings :
  keys_are trainings
    (fold_left (fun d training => Dict.set d training []) trainings Dict.empty).
Proof.
  intros n. rewrite comprehension. unfold Dict.contains. rewrite get_table.
  rewrite existsb_first_occurrences.
  destruct (existsb (String.eqb n) trainings); reflexivity.
Qed.

Lemma keys_are_check_completion trainings fs fe p tr c tr' :
  keys_are trainings tr -> check_completion fs fe p tr c = Ok tr' ->
  keys_are trainings tr'.
Proof.
  intros Hk. unfold check_completion.
  destruct (Completion.name c) as [n|]; [|intros [= <-]; exact Hk].
  destruct (truthy (Completion.timestamp c)) as [ts|]; [|intros [= <-]; exact Hk].
  destruct (Dict.contains tr n) eqn:Ec; [|intros [= <-]; exact Hk].
  destruct (strptime ts) as [d|]; cbn [bind]; [|discriminate].
  destruct (Datetime.leb fs d && Datetime.leb d fe); [|intros [= <-]; exact Hk].
  destruct (Person.getitem_name p) as [pn|]; cbn [bind]; [|discriminate].
  unfold append_to. destruct (Dict.get tr n) as [l|] eqn:Eg; [|discriminate].
  intros [= <-] k. rewrite <- (Hk k). unfold Dict.contains. rewrite get_set.
  destruct (String.eqb_spec n k) as [<-|_]; [rewrite Eg|]; reflexivity.
Qed.

Lemma keys_are_check_completions trainings fs fe p cs tr tr' :
  keys_are trainings tr ->
  for_each (check_completion fs fe p) cs tr = Ok tr' ->
  keys_are trainings tr'.
Proof.
  apply (for_each_inv (check_completion fs fe p) (keys_are trainings)).
  intros s x s'. apply keys_are_check_completion.
Qed.

Lemma check_completion_not_requested trainings fs fe p tr c :
  keys_are trainings tr -> requested trainings c = false ->
  check_completion fs fe p tr c = Ok tr.
Proof.
  intros Hk. unfold requested, check_completion.
  destruct (Completion.name c) as [n|]; [|reflexivity].
  destruct (truthy (Completion.timestamp c)); [|reflexivity].
  rewrite (Hk n). intros ->. reflexivity.
Qed.

(** X6. Completions of trainings that were not requested play no part in
    [get_completed_trainings], not even through a malformed timestamp:
    the result, value or exception, is the one on the dataset in which
    every person keeps only the completions of the requested trainings. *)
Theorem get_completed_trainings_ignores_other_trainings (data : list Person.t)
  (trainings : list string) (fiscal_year : Z) :
  get_completed_trainings (map (restrict_to trainings) data) trainings fiscal_year
  = get_completed_trainings data trainings fiscal_year.
Proof.
  unfold get_completed_trainings.
  destruct (Datetime.make (fiscal_year - 1) 7 1) as [fs|]; cbn [bind]; [|reflexivity].
  destruct (Datetime.make fiscal_year 6 30) as [fe|]; cbn [bind]; [|reflexivity].
  rewrite for_each_map.
  apply (for_each_inv_ext _ _ (keys_are trainings)).
  - intros tr p tr'. apply keys_are_check_completions.
  - intros tr p Hk _. unfold restrict_to at 2.
    change (Person.get_completions
              (Person.make (Person.name p)
                 (Some (filter (requested trainings) (Person.get_completions p)))))
      with (filter (requested trainings) (Person.get_completions p)).
    rewrite (for_each_ext (check_completion fs fe (restrict_to trainings p))
               (check_completion fs fe p))
      by (intros s c _; apply check_completion_name; reflexivity).
    apply (for_each_filter_inv _ _ (keys_are trainings)); [| |exact Hk].
    + intros s c s'. apply keys_are_check_completion.
    + intros s c. apply check_completion_not_requested.
  - apply keys_are_comprehension.
Qed.

(** ** Fewer trainings, more people *)

Lemma completion_ok_incl fiscal_year trainings trainings' p c :
  (forall t, In t trainings' -> In t trainings) ->
  completion_ok fiscal_year trainings p c = true ->
  completion_ok fiscal_year trainings' p c = true.
Proof.
  intros Hincl. unfold completion_ok, examined.
  destruct (Completion.name c) as [n|]; [|reflexivity].
  destruct (truthy (Completion.timestamp c)) as [ts|]; [|reflexivity].
  destruct (existsb (String.eqb n) trainings') eqn:E'; [|reflexivity].
  apply existsb_eqb_In, Hincl, existsb_eqb_In in E'. rewrite E'. exact (fun H => H).
Qed.

Lemma well_formed_incl data trainings trainings' fiscal_year :
  (forall t, In t trainings' -> In t trainings) ->
  well_formed data trainings fiscal_year = true ->
  well_formed data trainings' fiscal_year = true.
Proof.
  intros Hincl. unfold well_formed. rewrite !andb_true_iff, !forallb_forall.
  intros [Hfy H]. split; [exact Hfy|]. intros p Hp.
  specialize (H p Hp). rewrite forallb_forall in *. intros c Hc.
  exact (completion_ok_incl _ _ _ _ _ Hincl (H c Hc)).
Qed.

Lemma get_completed_trainings_Ok data trainings fiscal_year m :
  get_completed_trainings data trainings fiscal_year = Ok m ->
  well_formed data trainings fiscal_year = true
  /\ m = fiscal_report data trainings fiscal_year.
Proof.
  intros H. pose proof (get_completed_trainings_eq data trainings fiscal_year) as E.
  destruct (well_formed data trainings fiscal_year).
  - split; [reflexivity | congruence].
  - destruct E as [e E]. congruence.
Qed.

Lemma get_completed_trainings_well_formed data trainings fiscal_year :
  well_formed data trainings fiscal_year = true ->
  get_completed_trainings data trainings fiscal_year
  = Ok (fiscal_report data trainings fiscal_year).
Proof.
  intros H. pose proof (get_completed_trainings_eq data trainings fiscal_year) as E.
  rewrite H in E. exact E.
Qed.

(** X7. Asking for fewer trainings cannot bring in an exception and
    changes no list: when [get_completed_trainings] returns for a list of
    trainings, it returns for every list made of some of them, with the
    same list of names at each of these. *)
Theorem get_completed_trainings_fewer_trainings (data : list Person.t)
  (trainings trainings' : list string) (fiscal_year : Z) (m : Dict.t (list string)) :
  (forall t, In t trainings' -> In t trainings) ->
  get_completed_trainings data trainings fiscal_year = Ok m ->
  exists m',
    get_completed_trainings data trainings' fiscal_year = Ok m'
    /\ forall t, In t trainings' -> Dict.get m' t = Dict.get m t.
Proof.
  intros Hincl H. apply get_completed_trainings_Ok in H. destruct H as [Hwf ->].
  exists (fiscal_report data trainings' fiscal_year). split.
  - apply get_completed_trainings_well_formed.
    exact (well_formed_incl _ _ _ _ Hincl Hwf).
  - intros t Ht. rewrite !get_fiscal_report; [reflexivity | apply Hincl, Ht | exact Ht].
Qed.

Lemma get_completed_trainings_fewer_trainings_witness :
  exists m',
    get_completed_trainings [dana; erin; carol] ["Welding"] 2024 = Ok m'
    /\ forall t, In t ["Welding"] ->
       Dict.get m' t
       = Dict.get [("Lab Safety", ["Dana"; "Dana"; "Erin"]); ("Welding", ["Dana"])] t.
Proof.
  apply (get_completed_trainings_fewer_trainings [dana; erin; carol]
           ["Lab Safety"; "Welding"] ["Welding"] 2024).
  - simpl. intros t [<-|[]]. right. left. reflexivity.
  - reflexivity.
Defined.

Lemma well_formed_app data1 data2 trainings fiscal_year :
  well_formed (data1 ++ data2) trainings fiscal_year
  = well_formed data1 trainings fiscal_year && well_formed data2 trainings fiscal_year.
Proof.
  unfold well_formed. rewrite forallb_app.
  destruct ((2 <=? fiscal_year) && (fiscal_year <=? 9999)); simpl; [reflexivity|].
  reflexivity.
Qed.

(** X8. The fiscal-year report of two datasets put one after the other:
    when [get_completed_trainings] returns on each, it returns on the
    whole, with the same keys, and the list of each requested training is
    the list from the first dataset followed by the list from the second. *)
Theorem get_completed_trainings_app (data1 data2 : list Person.t)
  (trainings : list string) (fiscal_year : Z) (m1 m2 : Dict.t (list string)) :
  get_completed_trainings data1 trainings fiscal_year = Ok m1 ->
  get_completed_trainings data2 trainings fiscal_year = Ok m2 ->
  exists m,
    get_completed_trainings (data1 ++ data2) trainings fiscal_year = Ok m
    /\ Dict.keys m = Dict.keys m1
    /\ forall t, In t trainings ->
       exists l1 l2,
         Dict.get m1 t = Some l1 /\ Dict.get m2 t = Some l2
         /\ Dict.get m t = Some (l1 ++ l2).
Proof.
  intros H1 H2. apply get_completed_trainings_Ok in H1, H2.
  destruct H1 as [W1 ->], H2 as [W2 ->].
  exists (fiscal_report (data1 ++ data2) trainings fiscal_year). split; [|split].
  - apply get_completed_trainings_well_formed. rewrite well_formed_app, W1, W2.
    reflexivity.
  - rewrite !keys_fiscal_report. reflexivity.
  - intros t Ht. exists (completers fiscal_year t data1), (completers fiscal_year t data2).
    rewrite !get_fiscal_report by exact Ht. rewrite completers_app.
    repeat split; reflexivity.
Qed.

Lemma get_completed_trainings_app_witness :
  exists m,
    get_completed_trainings ([dana] ++ [erin; dana]) ["Lab Safety"] 2024 = Ok m
    /\ Dict.keys m = Dict.keys [("Lab Safety", ["Dana"; "Dana"])]
    /\ forall t, In t ["Lab Safety"] ->
       exists l1 l2,
         Dict.get [("Lab Safety", ["Dana"; "Dana"])] t = Some l1
         /\ Dict.get [("Lab Safety", ["Erin"; "Dana"; "Dana"])] t = Some l2
         /\ Dict.get m t = Some (l1 ++ l2).
Proof.
  apply (get_completed_trainings_app [dana] [erin; dana] ["Lab Safety"] 2024);
    reflexivity.
Defined.

(** ** One fiscal year per completion *)

Lemma qualifies_named fiscal_year t c : qualifies fiscal_year t c = true -> named t c = true.
Proof.
  unfold qualifies, named. destruct (Completion.name c) as [n|]; [|discriminate].
  destruct (truthy (Completion.timestamp c)); [|discriminate].
  intros H. apply andb_true_iff in H. exact (proj1 H).
Qed.

Lemma qualifies_one_year fy1 fy2 t c :
  2 <= fy1 <= 9999 -> 2 <= fy2 <= 9999 ->
  qualifies fy1 t c = true -> qualifies fy2 t c = true -> fy1 = fy2.
Proof.
  intros R1 R2. unfold qualifies.
  destruct (Completion.name c) as [n|]; [|discriminate].
  destruct (truthy (Completion.timestamp c)) as [ts|]; [|discriminate].
  destruct (strptime ts) as [x|] eqn:Ep; [|rewrite andb_false_r; discriminate].
  destruct (strptime_calendar _ _ Ep) as (y & m & d & Hv & ->).
  rewrite !andb_true_iff. intros [_ H1] [_ H2].
  apply (in_fiscal_year_calendar fy1 y m d R1 Hv) in H1.
  apply (in_fiscal_year_calendar fy2 y m d R2 Hv) in H2. lia.
Qed.

Lemma well_formed_range data trainings fiscal_year :
  well_formed data trainings fiscal_year = true -> 2 <= fiscal_year <= 9999.
Proof.
  unfold well_formed. rewrite !andb_true_iff, !Z.leb_le. tauto.
Qed.

Lemma length_flat_map_if {A B : Type} (q : A -> bool) (nl : list B) (cs : list A) :
  (length nl <= 1)%nat ->
  (length (flat_map (fun c => if q c then nl else []) cs) <= length (filter q cs))%nat.
Proof.
  intros H. induction cs as [|c cs IH]; simpl; [lia|].
  rewrite length_app. destruct (q c); simpl; lia.
Qed.

Lemma length_completers_le fiscal_year t data :
  (length (completers fiscal_year t data)
   <= length (filter (qualifies fiscal_year t) (all_completions data)))%nat.
Proof.
  unfold completers, all_completions.
  induction data as [|p data IH]; simpl; [lia|].
  rewrite filter_app, !length_app.
  pose proof (length_flat_map_if (qualifies fiscal_year t) (name_list p)
                (Person.get_completions p)) as H.
  assert (Hn : (length (name_list p) <= 1)%nat)
    by (unfold name_list; destruct (Person.name p); simpl; lia).
  specialize (H Hn). lia.
Qed.

Lemma length_filter_disjoint {A : Type} (q1 q2 r : A -> bool) (l : list A) :
  (forall x, q1 x = true -> r x = true) ->
  (forall x, q2 x = true -> r x = true) ->
  (forall x, q1 x = true -> q2 x = true -> False) ->
  (length (filter q1 l) + length (filter q2 l) <= length (filter r l))%nat.
Proof.
  intros H1 H2 H12. induction l as [|x l IH]; simpl; [lia|].
  specialize (H1 x). specialize (H2 x). specialize (H12 x).
  destruct (q1 x), (q2 x), (r x); simpl; try lia;
    solve [exfalso; auto | specialize (H1 eq_refl); discriminate
          | specialize (H2 eq_refl); discriminate].
Qed.

(** X9. A completion is listed in at most one fiscal year: over two
    different fiscal years on which [get_completed_trainings] returns, the
    two lists of a requested training have together at most as many names
    as the dataset has completions of that training. *)
Theorem get_completed_trainings_one_fiscal_year (data : list Person.t)
  (trainings : list string) (fy1 fy2 : Z) (t : string)
  (m1 m2 : Dict.t (list string)) (l1 l2 : list string) :
  fy1 <> fy2 ->
  In t trainings ->
  get_completed_trainings data trainings fy1 = Ok m1 ->
  get_completed_trainings data trainings fy2 = Ok m2 ->
  Dict.get m1 t = Some l1 ->
  Dict.get m2 t = Some l2 ->
  (length l1 + length l2 <= length (filter (named t) (all_completions data)))%nat.
Proof.
  intros Hne Ht H1 H2 G1 G2.
  apply get_completed_trainings_Ok in H1, H2.
  destruct H1 as [W1 ->], H2 as [W2 ->].
  rewrite (get_fiscal_report _ _ _ _ Ht) in G1.
  rewrite (get_fiscal_report _ _ _ _ Ht) in G2.
  injection G1 as <-. injection G2 as <-.
  pose proof (length_completers_le fy1 t data).
  pose proof (length_completers_le fy2 t data).
  pose proof (length_filter_disjoint (qualifies fy1 t) (qualifies fy2 t) (named t)
                (all_completions data)
                (qualifies_named fy1 t) (qualifies_named fy2 t)) as D.
  assert (Hd : forall c, qualifies fy1 t c = true -> qualifies fy2 t c = true -> False).
  { intros c Q1 Q2. apply Hne.
    exact (qualifies_one_year fy1 fy2 t c (well_formed_range _ _ _ W1)
             (well_formed_range _ _ _ W2) Q1 Q2). }
  specialize (D Hd). lia.
Qed.

Lemma get_completed_trainings_one_fiscal_year_witness :
  (length ["Dana"; "Dana"] + length ["Dana"]
   <= length (filter (named "Lab Safety") (all_completions [dana])))%nat.
Proof.
  apply (get_completed_trainings_one_fiscal_year [dana] ["Lab Safety"] 2024 2025
           "Lab Safety" [("Lab Safety", ["Dana"; "Dana"])] [("Lab Safety", ["Dana"])]);
    try reflexivity.
  - discriminate.
  - left. reflexivity.
Defined.

(** * Further properties of the resolver *)

Lemma for_each_fixed {A S : Type} (body : S -> A -> result S) (l : list A) (s : S) :
  (forall x, In x l -> body s x = Ok s) -> for_each body l s = Ok s.
Proof.
  induction l as [|x l IH]; intros H; simpl; [reflexivity|].
  rewrite (H x (or_introl eq_refl)). simpl. apply IH.
  intros y Hy. apply H. right. exact Hy.
Qed.

Lemma get_most_recent_completions_Raise cs e :
  get_most_recent_completions cs = Raise e -> e = ValueError.
Proof.
  pose proof (get_most_recent_completions_total cs) as T.
  destruct (forallb parses cs); [destruct T as [m ->]; discriminate|].
  rewrite T. congruence.
Qed.

Lemma get_most_recent_completions_parses cs m :
  get_most_recent_completions cs = Ok m -> forallb parses cs = true.
Proof.
  pose proof (get_most_recent_completions_total cs) as T.
  destruct (forallb parses cs); [reflexivity|]. rewrite T. discriminate.
Qed.

(** A completion of the list changes nothing in the mapping resolved from
    the list. *)
Lemma update_most_recent_seen cs m c :
  get_most_recent_completions cs = Ok m -> In c cs -> update_most_recent m c = Ok m.
Proof.
  intros Hm Hc. pose proof (get_most_recent_completions_parses _ _ Hm) as Hp.
  rewrite forallb_forall in Hp. specialize (Hp c Hc). unfold parses in Hp.
  destruct (get_most_recent_completions_resolves _ _ Hm) as [_ Hr].
  rewrite update_most_recent_eq.
  destruct (reading c) as [[n ts]|] eqn:Er; [|reflexivity].
  destruct (strptime ts) as [t|] eqn:Et; [|discriminate]. cbn [bind].
  specialize (Hr n). unfold is_more_recent.
  destruct (Dict.get m n) as [d|].
  - assert (Hd : dated_for n t c) by (exists ts; split; assumption).
    pose proof (most_recent_of_bound _ _ _ _ _ Hr Hc Hd) as B.
    unfold Datetime.gtb. destruct (Z.gtb_spec t (Details.timestamp d)); [lia|].
    reflexivity.
  - exfalso. exact (Hr c ts Hc Er).
Qed.

(** X10. Completions that were already in the list change nothing when
    they are given again: [get_most_recent_completions] on a list followed
    by completions taken from it is [get_most_recent_completions] on the
    list, key order and exception included. *)
Theorem get_most_recent_completions_again (cs cs' : list Completion.t) :
  incl cs' cs ->
  get_most_recent_completions (cs ++ cs') = get_most_recent_completions cs.
Proof.
  intros Hincl. unfold get_most_recent_completions at 1. rewrite for_each_app.
  fold (get_most_recent_completions cs).
  destruct (get_most_recent_completions cs) as [m|e] eqn:E; cbn [bind]; [|reflexivity].
  apply for_each_fixed. intros c Hc.
  exact (update_most_recent_seen cs m c E (Hincl c Hc)).
Qed.

Lemma get_most_recent_completions_again_witness :
  get_most_recent_completions
    (Person.get_completions alice ++ rev (Person.get_completions alice))
  = get_most_recent_completions (Person.get_completions alice).
Proof.
  apply get_most_recent_completions_again.
  intros c Hc. apply in_rev. exact Hc.
Defined.

Lemma extends_refl m : extends m m.
Proof.
  split; [exists []; rewrite app_nil_r; reflexivity|].
  intros n d H. exists d. split; [exact H | lia].
Qed.

Lemma extends_trans m1 m2 m3 : extends m1 m2 -> extends m2 m3 -> extends m1 m3.
Proof.
  intros [[r1 K1] G1] [[r2 K2] G2]. split.
  - exists (r1 ++ r2). rewrite K2, K1, app_assoc. reflexivity.
  - intros n d H. destruct (G1 n d H) as (d' & H' & L1).
    destruct (G2 n d' H') as (d'' & H'' & L2). exists d''. split; [exact H'' | lia].
Qed.

Lemma update_most_recent_extends m c m' : update_most_recent m c = Ok m' -> extends m m'.
Proof.
  rewrite update_most_recent_eq.
  destruct (reading c) as [[n ts]|]; [|intros [= <-]; apply extends_refl].
  destruct (strptime ts) as [t|]; cbn [bind]; [|discriminate].
  unfold is_more_recent. destruct (Dict.get m n) as [d0|] eqn:Eg.
  - unfold Datetime.gtb. destruct (Z.gtb_spec t (Details.timestamp d0)) as [Hgt|Hle];
      intros [= <-]; [|apply extends_refl].
    split.
    + exists []. rewrite app_nil_r. apply keys_set_present. congruence.
    + intros k d H. rewrite get_set. destruct (String.eqb_spec n k) as [<-|_].
      * rewrite Eg in H. injection H as <-. eexists. split; [reflexivity|]. simpl. lia.
      * exists d. split; [exact H | lia].
  - intros [= <-]. split.
    + exists [n]. apply keys_set_absent, Eg.
    + intros k d H. rewrite get_set. destruct (String.eqb_spec n k) as [<-|_].
      * congruence.
      * exists d. split; [exact H | lia].
Qed.

(** X11. More completions never take a training away nor make its entry
    older: when [get_most_recent_completions] returns on a list and on the
    list with more completions after it, the second mapping has the keys
    of the first, first and in the same order, and at each of them a
    timestamp that is not earlier. *)
Theorem get_most_recent_completions_extends (cs cs' : list Completion.t)
  (m m' : Dict.t Details.t) :
  get_most_recent_completions cs = Ok m ->
  get_most_recent_completions (cs ++ cs') = Ok m' ->
  (exists rest, Dict.keys m' = Dict.keys m ++ rest)
  /\ forall n d, Dict.get m n = Some d ->
       exists d', Dict.get m' n = Some d'
                  /\ Details.timestamp d <= Details.timestamp d'.
Proof.
  intros H. unfold get_most_recent_completions at 1. rewrite for_each_app.
  fold (get_most_recent_completions cs). rewrite H. cbn [bind].
  apply (for_each_inv update_most_recent (extends m) cs'); [|apply extends_refl].
  intros s c s' Hs Hc.
  exact (extends_trans _ _ _ Hs (update_most_recent_extends _ _ _ Hc)).
Qed.

Lemma get_most_recent_completions_extends_witness :
  (exists rest,
      Dict.keys
        [("Lab Safety",
          Details.make (Datetime.of_ordinal (Datetime.ymd2ord 2024 1 5))
            (Some "01/05/2025"));
         ("X-Ray Safety",
          Details.make (Datetime.of_ordinal (Datetime.ymd2ord 2024 1 15))
            (Some "01/15/2025"))]
      = Dict.keys
          [("Lab Safety",
            Details.make (Datetime.of_ordinal (Datetime.ymd2ord 2023 7 1)) None)]
        ++ rest)
  /\ forall n d,
       Dict.get
         [("Lab Safety",
           Details.make (Datetime.of_ordinal (Datetime.ymd2ord 2023 7 1)) None)] n
       = Some d ->
       exists d',
         Dict.get
           [("Lab Safety",
             Details.make (Datetime.of_ordinal (Datetime.ymd2ord 2024 1 5))
               (Some "01/05/2025"));
            ("X-Ray Safety",
             Details.make (Datetime.of_ordinal (Datetime.ymd2ord 2024 1 15))
               (Some "01/15/2025"))] n
         = Some d'
         /\ Details.timestamp d <= Details.timestamp d'.
Proof.
  apply (get_most_recent_completions_extends
           [Completion.make (Some "Lab Safety") (Some "7/1/2023") None]
           [padded;
            Completion.make (Some "X-Ray Safety") (Some "01/15/2024") (Some "01/15/2025")]);
    reflexivity.
Defined.

(** * Further properties of the expiry report *)

Lemma get_expired_or_expiring_trainings_loops data ref :
  get_expired_or_expiring_trainings data ref = Loops.report data ref.
Proof.
  unfold get_expired_or_expiring_trainings. rewrite check_person_loop.
  destruct (Loops.report data ref); reflexivity.
Qed.

(** ** Where an entry of the report comes from *)

Lemma report_In data ref : forall rs r,
  Loops.report data ref = Ok rs -> In r rs ->
  exists p, In p data /\ Loops.entry ref p = Ok (Some r).
Proof.
  induction data as [|p data IH]; simpl; intros rs r.
  - intros [= <-] [].
  - destruct (Loops.entry ref p) as [e|] eqn:Ee; cbn [bind]; [|discriminate].
    destruct (Loops.report data ref) as [rs0|]; cbn [bind]; [|discriminate].
    intros [= <-] Hin.
    assert (Hrest : In r rs0 -> exists q, (p = q \/ In q data)
                                        /\ Loops.entry ref q = Ok (Some r)).
    { intros H. destruct (IH rs0 r eq_refl H) as (q & Hq & Eq).
      exists q. split; [right; exact Hq | exact Eq]. }
    destruct e as [x|]; [|exact (Hrest Hin)].
    destruct Hin as [<-|Hin]; [|exact (Hrest Hin)].
    exists p. split; [left; reflexivity | exact Ee].
Qed.

Lemma report_entry data ref : forall rs p,
  Loops.report data ref = Ok rs -> In p data ->
  exists e, Loops.entry ref p = Ok e /\ forall r, e = Some r -> In r rs.
Proof.
  induction data as [|q data IH]; simpl; intros rs p; [intros _ []|].
  destruct (Loops.entry ref q) as [e|] eqn:Ee; cbn [bind]; [|discriminate].
  destruct (Loops.report data ref) as [rs0|]; cbn [bind]; [|discriminate].
  intros [= <-] [<-|Hin].
  - exists e. split; [exact Ee|]. intros r ->. left. reflexivity.
  - destruct (IH rs0 p eq_refl Hin) as (e' & Ee' & H). exists e'.
    split; [exact Ee'|]. intros r Hr. specialize (H r Hr).
    destruct e; [right|]; exact H.
Qed.

Lemma entry_Some ref p r :
  Loops.entry ref p = Ok (Some r) ->
  exists m,
    get_most_recent_completions (Person.get_completions p) = Ok m
    /\ Loops.flags ref (Dict.items m) = Ok (Report.trainings r)
    /\ Person.name p = Some (Report.name r)
    /\ Report.trainings r <> [].
Proof.
  unfold Loops.entry.
  destruct (get_most_recent_completions (Person.get_completions p)) as [m|] eqn:Em;
    cbn [bind]; [|discriminate].
  destruct (Loops.flags ref (Dict.items m)) as [[|f fs]|] eqn:Ef; cbn [bind];
    try discriminate.
  unfold Person.getitem_name. destruct (Person.name p) as [n|]; cbn [bind];
    [|discriminate].
  intros [= <-]. exists m. simpl.
  split; [reflexivity|]. split; [exact Ef|]. split; [reflexivity | discriminate].
Qed.

Lemma flags_In ref items : forall fs f,
  Loops.flags ref items = Ok fs -> In f fs ->
  exists d, In (Flag.training f, d) items
            /\ Loops.status ref d = Ok (Some (Flag.status f)).
Proof.
  induction items as [|[n d] items IH]; cbn [Loops.flags]; intros fs f.
  - intros [= <-] [].
  - destruct (Loops.status ref d) as [s|] eqn:Es; cbn [bind]; [|discriminate].
    destruct (Loops.flags ref items) as [fs0|]; cbn [bind]; [|discriminate].
    intros [= <-] Hin.
    assert (Hrest : In f fs0 ->
                    exists d0, In (Flag.training f, d0) ((n, d) :: items)
                               /\ Loops.status ref d0 = Ok (Some (Flag.status f))).
    { intros H. destruct (IH fs0 f eq_refl H) as (d0 & Hd0 & Ed0).
      exists d0. split; [right; exact Hd0 | exact Ed0]. }
    destruct s as [st|]; [|exact (Hrest Hin)].
    destruct Hin as [<-|Hin]; [|exact (Hrest Hin)].
    exists d. split; [left; reflexivity | exact Es].
Qed.

Lemma flags_item ref items : forall fs n d,
  Loops.flags ref items = Ok fs -> In (n, d) items ->
  exists s, Loops.status ref d = Ok s
            /\ forall st, s = Some st -> In (Flag.make n st) fs.
Proof.
  induction items as [|[n0 d0] items IH]; cbn [Loops.flags]; intros fs n d;
    [intros _ []|].
  destruct (Loops.status ref d0) as [s|] eqn:Es; cbn [bind]; [|discriminate].
  destruct (Loops.flags ref items) as [fs0|]; cbn [bind]; [|discriminate].
  intros [= <-] [[= <- <-]|Hin].
  - exists s. split; [exact Es|]. intros st ->. left. reflexivity.
  - destruct (IH fs0 n d eq_refl Hin) as (s' & Es' & H). exists s'.
    split; [exact Es'|]. intros st Hst. specialize (H st Hst).
    destruct s; [right|]; exact H.
Qed.

Lemma status_values ref d st :
  Loops.status ref d = Ok (Some st) -> st = "expired" \/ st = "expires soon".
Proof.
  unfold Loops.status. destruct (truthy (Details.expires d)); [|discriminate].
  destruct (strptime s) as [x|]; cbn [bind]; [|discriminate].
  destruct (Datetime.gtb ref x); [intros [= <-]; left; reflexivity|].
  destruct (Datetime.add_days ref 30) as [l|]; cbn [bind]; [|discriminate].
  destruct (Datetime.leb x l); [intros [= <-]; right; reflexivity | discriminate].
Qed.

Lemma flags_trainings ref items : forall fs,
  Loops.flags ref items = Ok fs -> subseq (map Flag.training fs) (map fst items).
Proof.
  induction items as [|[n d] items IH]; cbn [Loops.flags]; intros fs.
  - intros [= <-]. constructor.
  - destruct (Loops.status ref d) as [s|]; cbn [bind]; [|discriminate].
    destruct (Loops.flags ref items) as [fs0|]; cbn [bind]; [|discriminate].
    intros [= <-]. specialize (IH fs0 eq_refl).
    destruct s; simpl; [apply subseq_take | apply subseq_skip]; exact IH.
Qed.

Lemma subseq_In {A : Type} (l1 l2 : list A) x : subseq l1 l2 -> In x l1 -> In x l2.
Proof.
  induction 1 as [|y l1 l2 _ IH|y l1 l2 _ IH]; simpl; [tauto | tauto |].
  intros [E|H]; [left; exact E | right; exact (IH H)].
Qed.

Lemma subseq_NoDup {A : Type} (l1 l2 : list A) : subseq l1 l2 -> NoDup l2 -> NoDup l1.
Proof.
  induction 1 as [|y l1 l2 _ IH|y l1 l2 Hs IH]; intros Hnd.
  - constructor.
  - inversion Hnd; subst. apply IH. assumption.
  - inversion Hnd as [|? ? Hy Hnd']; subst. constructor; [|apply IH; exact Hnd'].
    intros H. apply Hy. exact (subseq_In _ _ _ Hs H).
Qed.

Lemma subseq_length {A : Type} (l1 l2 : list A) :
  subseq l1 l2 -> (length l1 <= length l2)%nat.
Proof. induction 1; simpl; lia. Qed.

(** X12. In what [get_expired_or_expiring_trainings] returns every status
    is "expired" or "expires soon", and no person has the same training
    twice. *)
Theorem get_expired_or_expiring_trainings_entries (data : list Person.t)
  (reference_date : Datetime.t) (results : list Report.t) :
  get_expired_or_expiring_trainings data reference_date = Ok results ->
  Forall
    (fun r =>
       NoDup (map Flag.training (Report.trainings r))
       /\ Forall (fun f => Flag.status f = "expired" \/ Flag.status f = "expires soon")
            (Report.trainings r))
    results.
Proof.
  rewrite get_expired_or_expiring_trainings_loops. intros H.
  apply Forall_forall. intros r Hr.
  destruct (report_In _ _ _ _ H Hr) as (p & _ & Ee).
  destruct (entry_Some _ _ _ Ee) as (m & Hm & Hf & _).
  split.
  - apply (subseq_NoDup _ _ (flags_trainings _ _ _ Hf)).
    destruct (get_most_recent_completions_resolves _ _ Hm) as [Hnd _]. exact Hnd.
  - apply Forall_forall. intros f Hin.
    destruct (flags_In _ _ _ _ Hf Hin) as (d & _ & Es).
    exact (status_values _ _ _ Es).
Qed.

Lemma get_expired_or_expiring_trainings_entries_witness :
  Forall
    (fun r =>
       NoDup (map Flag.training (Report.trainings r))
       /\ Forall (fun f => Flag.status f = "expired" \/ Flag.status f = "expires soon")
            (Report.trainings r))
    [Report.make "Alice" [Flag.make "X-Ray Safety" "expires soon"];
     Report.make "Bob" [Flag.make "Lab Safety" "expired"]].
Proof.
  apply (get_expired_or_expiring_trainings_entries [alice; bob; carol] new_year_2025).
  reflexivity.
Defined.

Lemma report_names data ref : forall rs,
  Loops.report data ref = Ok rs ->
  subseq (map (fun r => Some (Report.name r)) rs) (map Person.name data).
Proof.
  induction data as [|p data IH]; simpl; intros rs.
  - intros [= <-]. constructor.
  - destruct (Loops.entry ref p) as [e|] eqn:Ee; cbn [bind]; [|discriminate].
    destruct (Loops.report data ref) as [rs0|]; cbn [bind]; [|discriminate].
    intros [= <-]. specialize (IH rs0 eq_refl).
    destruct e as [r|]; [|apply subseq_skip; exact IH].
    destruct (entry_Some _ _ _ Ee) as (_ & _ & _ & Hn & _). simpl. rewrite Hn.
    apply subseq_take. exact IH.
Qed.

(** X13. [get_expired_or_expiring_trainings] reports people in the order
    of the dataset, each at most once per occurrence there: the names of
    its entries are the [name] fields of the dataset with some of them
    left out, so there are at most as many entries as people. *)
Theorem get_expired_or_expiring_trainings_names (data : list Person.t)
  (reference_date : Datetime.t) (results : list Report.t) :
  get_expired_or_expiring_trainings data reference_date = Ok results ->
  subseq (map (fun r => Some (Report.name r)) results) (map Person.name data)
  /\ (length results <= length data)%nat.
Proof.
  rewrite get_expired_or_expiring_trainings_loops. intros H.
  pose proof (report_names _ _ _ H) as S. split; [exact S|].
  apply subseq_length in S. rewrite !length_map in S. exact S.
Qed.

Lemma get_expired_or_expiring_trainings_names_witness :
  subseq
    (map (fun r => Some (Report.name r))
       [Report.make "Alice" [Flag.make "X-Ray Safety" "expires soon"];
        Report.make "Bob" [Flag.make "Lab Safety" "expired"]])
    (map Person.name [alice; bob; carol])
  /\ (length
        [Report.make "Alice" [Flag.make "X-Ray Safety" "expires soon"];
         Report.make "Bob" [Flag.make "Lab Safety" "expired"]]
      <= length [alice; bob; carol])%nat.
Proof.
  apply (get_expired_or_expiring_trainings_names [alice; bob; carol] new_year_2025).
  reflexivity.
Defined.

(** X14. The expiry report of two datasets put one after the other is
    the report of the first followed by the report of the second, and it
    ends with the exception of the first that raises: no person's entry
    depends on the other people. *)
Theorem get_expired_or_expiring_trainings_app (data1 data2 : list Person.t)
  (reference_date : Datetime.t) :
  get_expired_or_expiring_trainings (data1 ++ data2) reference_date
  = (r1 <- get_expired_or_expiring_trainings data1 reference_date ;;
     r2 <- get_expired_or_expiring_trainings data2 reference_date ;;
     Ok (r1 ++ r2)).
Proof.
  unfold get_expired_or_expiring_trainings. rewrite for_each_app.
  destruct (for_each (check_person reference_date) data1 []) as [r1|]; cbn [bind];
    [|reflexivity].
  rewrite !check_person_loop.
  destruct (Loops.report data2 reference_date); reflexivity.
Qed.

(** ** The exceptions of the expiry report *)

Lemma status_Raise ref d e :
  0 <= ref -> Datetime.toordinal ref + 30 <= Datetime.MAXORDINAL ->
  Loops.status ref d = Raise e -> e = ValueError.
Proof.
  intros H0 Hmax. unfold Loops.status.
  destruct (truthy (Details.expires d)) as [s|]; [|discriminate].
  destruct (strptime s) as [x|e'] eqn:Ep; cbn [bind];
    [|intros [= <-]; exact (strptime_raises _ _ Ep)].
  destruct (Datetime.gtb ref x); [discriminate|].
  rewrite (add_days_30 ref H0 Hmax). cbn [bind].
  destruct (Datetime.leb x (ref + 30 * Datetime.us_per_day)); discriminate.
Qed.

Lemma flags_Raise ref items e :
  0 <= ref -> Datetime.toordinal ref + 30 <= Datetime.MAXORDINAL ->
  Loops.flags ref items = Raise e -> e = ValueError.
Proof.
  intros H0 Hmax. induction items as [|[n d] items IH]; cbn [Loops.flags];
    [discriminate|].
  destruct (Loops.status ref d) as [s|e'] eqn:Es; cbn [bind];
    [|intros [= <-]; exact (status_Raise _ _ _ H0 Hmax Es)].
  destruct (Loops.flags ref items) as [fs|e']; cbn [bind]; [discriminate|].
  intros [= <-]. apply IH. reflexivity.
Qed.

Lemma entry_Raise ref p e :
  0 <= ref -> Datetime.toordinal ref + 30 <= Datetime.MAXORDINAL ->
  Loops.entry ref p = Raise e ->
  e = ValueError \/ (e = KeyError /\ Person.name p = None).
Proof.
  intros H0 Hmax. unfold Loops.entry.
  destruct (get_most_recent_completions (Person.get_completions p)) as [m|e'] eqn:Em;
    cbn [bind]; [|intros [= <-]; left; exact (get_most_recent_completions_Raise _ _ Em)].
  destruct (Loops.flags ref (Dict.items m)) as [[|f fs]|e'] eqn:Ef; cbn [bind].
  - discriminate.
  - unfold Person.getitem_name. destruct (Person.name p); cbn [bind]; [discriminate|].
    intros [= <-]. right. split; reflexivity.
  - intros [= <-]. left. exact (flags_Raise _ _ _ H0 Hmax Ef).
Qed.

Lemma get_expired_or_expiring_trainings_Raise data ref e :
  0 <= ref -> Datetime.toordinal ref + 30 <= Datetime.MAXORDINAL ->
  get_expired_or_expiring_trainings data ref = Raise e ->
  e = ValueError \/ (e = KeyError /\ exists p, In p data /\ Person.name p = None).
Proof.
  intros H0 Hmax. rewrite get_expired_or_expiring_trainings_loops.
  induction data as [|p data IH]; simpl; [discriminate|].
  destruct (Loops.entry ref p) as [x|e'] eqn:Ee; cbn [bind].
  - destruct (Loops.report data ref) as [rs|e']; cbn [bind]; [discriminate|].
    intros [= <-]. destruct (IH eq_refl) as [->|[-> (q & Hq & Hn)]];
      [left; reflexivity|].
    right. split; [reflexivity|]. exists q. split; [right; exact Hq | exact Hn].
  - intros [= <-]. destruct (entry_Raise _ _ _ H0 Hmax Ee) as [->|[-> Hn]];
      [left; reflexivity|].
    right. split; [reflexivity|]. exists p. split; [left; reflexivity | exact Hn].
Qed.

(** X15. With a reference date of the date type that is at most
    9999-12-01, [get_expired_or_expiring_trainings] never ends with
    [OverflowError]: an exception is [ValueError], or [KeyError] and then
    some person of the dataset has no [name]. *)
Theorem get_expired_or_expiring_trainings_exceptions (data : list Person.t)
  (reference_date : Datetime.t) (e : exn) :
  Datetime.in_range reference_date ->
  Datetime.toordinal reference_date + 30 <= Datetime.MAXORDINAL ->
  get_expired_or_expiring_trainings data reference_date = Raise e ->
  e = ValueError \/ (e = KeyError /\ exists p, In p data /\ Person.name p = None).
Proof.
  intros [H0 _]. apply get_expired_or_expiring_trainings_Raise. exact H0.
Qed.

Lemma get_expired_or_expiring_trainings_exceptions_witness :
  KeyError = ValueError
  \/ (KeyError = KeyError /\ exists p, In p [erin; nameless] /\ Person.name p = None).
Proof.
  apply (get_expired_or_expiring_trainings_exceptions [erin; nameless] october_first).
  - vm_compute. split; congruence.
  - vm_compute. congruence.
  - reflexivity.
Defined.

(** ** The report as time passes *)

Lemma status_later ref ref' d st s' :
  ref <= ref' ->
  Loops.status ref d = Ok (Some st) ->
  Loops.status ref' d = Ok s' ->
  exists st', s' = Some st' /\ (st = "expired" -> st' = "expired").
Proof.
  intros Hle. unfold Loops.status.
  destruct (truthy (Details.expires d)) as [s|]; [|discriminate].
  destruct (strptime s) as [x|]; cbn [bind]; [|discriminate].
  unfold Datetime.gtb, Datetime.leb, Datetime.add_days.
  destruct (Z.gtb_spec ref x) as [Hgt|Hngt].
  - intros [= <-]. destruct (Z.gtb_spec ref' x); [|lia].
    intros [= <-]. exists "expired". split; [reflexivity | exact (fun H => H)].
  - destruct ((0 <? Datetime.toordinal (ref + 30 * Datetime.us_per_day))
              && (Datetime.toordinal (ref + 30 * Datetime.us_per_day)
                  <=? Datetime.MAXORDINAL)); cbn [bind]; [|discriminate].
    destruct (Z.leb_spec x (ref + 30 * Datetime.us_per_day)); [|discriminate].
    intros [= <-].
    destruct (Z.gtb_spec ref' x).
    + intros [= <-]. exists "expired". split; [reflexivity | discriminate].
    + destruct ((0 <? Datetime.toordinal (ref' + 30 * Datetime.us_per_day))
                && (Datetime.toordinal (ref' + 30 * Datetime.us_per_day)
                    <=? Datetime.MAXORDINAL)); cbn [bind]; [|discriminate].
      destruct (Z.leb_spec x (ref' + 30 * Datetime.us_per_day)); [|lia].
      intros [= <-]. exists "expires soon". split; [reflexivity | discriminate].
Qed.

(** X16. What is flagged stays flagged as time passes: when
    [get_expired_or_expiring_trainings] returns for a reference date and
    for a later one, every training flagged for a person in the first
    report is flagged for a person of that name in the second, and
    "expired" stays "expired". *)
Theorem get_expired_or_expiring_trainings_later (data : list Person.t)
  (reference_date later_date : Datetime.t) (results later_results : list Report.t) :
  reference_date <= later_date ->
  get_expired_or_expiring_trainings data reference_date = Ok results ->
  get_expired_or_expiring_trainings data later_date = Ok later_results ->
  forall r f, In r results -> In f (Report.trainings r) ->
  exists r' f',
    In r' later_results /\ Report.name r' = Report.name r
    /\ In f' (Report.trainings r') /\ Flag.training f' = Flag.training f
    /\ (Flag.status f = "expired" -> Flag.status f' = "expired").
Proof.
  rewrite !get_expired_or_expiring_trainings_loops. intros Hle H H' r f Hr Hf.
  destruct (report_In _ _ _ _ H Hr) as (p & Hp & Ee).
  destruct (entry_Some _ _ _ Ee) as (m & Hm & Hfl & Hn & _).
  destruct (flags_In _ _ _ _ Hfl Hf) as (d & Hd & Es).
  destruct (report_entry _ _ _ _ H' Hp) as (e' & Ee' & Hin').
  unfold Loops.entry in Ee'. rewrite Hm in Ee'. cbn [bind] in Ee'.
  destruct (Loops.flags later_date (Dict.items m)) as [fs'|] eqn:Efl';
    cbn [bind] in Ee'; [|discriminate].
  destruct (flags_item _ _ _ _ _ Efl' Hd) as (s' & Es' & Hs').
  destruct (status_later _ _ _ _ _ Hle Es Es') as (st' & -> & Hst).
  specialize (Hs' st' eq_refl).
  destruct fs' as [|f0 fs0]; [destruct Hs'|].
  unfold Person.getitem_name in Ee'. rewrite Hn in Ee'. cbn [bind] in Ee'.
  injection Ee' as <-.
  exists (Report.make (Report.name r) (f0 :: fs0)), (Flag.make (Flag.training f) st').
  split; [apply Hin'; reflexivity|]. split; [reflexivity|].
  split; [exact Hs'|]. split; [reflexivity | exact Hst].
Qed.

Lemma get_expired_or_expiring_trainings_later_witness :
  exists r' f',
    In r' [Report.make "Alice" [Flag.make "X-Ray Safety" "expires soon"];
           Report.make "Bob" [Flag.make "Lab Safety" "expired"]]
    /\ Report.name r' = "Bob"
    /\ In f' (Report.trainings r') /\ Flag.training f' = "Lab Safety"
    /\ ("expires soon" = "expired" -> Flag.status f' = "expired").
Proof.
  apply (get_expired_or_expiring_trainings_later [alice; bob; carol]
           (Datetime.of_ordinal (Datetime.ymd2ord 2023 10 2)) new_year_2025
           [Report.make "Bob" [Flag.make "Lab Safety" "expires soon"]]
           [Report.make "Alice" [Flag.make "X-Ray Safety" "expires soon"];
            Report.make "Bob" [Flag.make "Lab Safety" "expired"]]
           ltac:(vm_compute; congruence) eq_refl eq_refl
           (Report.make "Bob" [Flag.make "Lab Safety" "expires soon"])
           (Flag.make "Lab Safety" "expires soon")).
  - left. reflexivity.
  - left. reflexivity.
Defined.

(** ** The reports against each other *)

Lemma In_read_names n cs :
  In n (read_names cs) -> exists c ts, In c cs /\ reading c = Some (n, ts).
Proof.
  unfold read_names. rewrite in_flat_map. intros (c & Hc & Hin).
  destruct (reading c) as [[n' ts]|] eqn:Er; [|destruct Hin].
  destruct Hin as [<-|[]]. exists c, ts. split; [exact Hc | exact Er].
Qed.

Lemma reading_name c n ts : reading c = Some (n, ts) -> truthy (Completion.name c) = Some n.
Proof.
  unfold reading. destruct (truthy (Completion.name c)); [|discriminate].
  destruct (truthy (Completion.timestamp c)); [|discriminate].
  intros [= -> _]. reflexivity.
Qed.

(** X17. Every training that [get_expired_or_expiring_trainings] flags is
    a key of [get_training_count] on the same dataset. *)
Theorem flagged_trainings_are_counted (data : list Person.t)
  (reference_date : Datetime.t) (results : list Report.t) :
  get_expired_or_expiring_trainings data reference_date = Ok results ->
  forall r f, In r results -> In f (Report.trainings r) ->
  In (Flag.training f) (Dict.keys (get_training_count data)).
Proof.
  rewrite get_expired_or_expiring_trainings_loops. intros H r f Hr Hf.
  destruct (report_In _ _ _ _ H Hr) as (p & Hp & Ee).
  destruct (entry_Some _ _ _ Ee) as (m & Hm & Hfl & _).
  pose proof (subseq_In _ _ _ (flags_trainings _ _ _ Hfl) (in_map Flag.training _ _ Hf))
    as Hk.
  change (map fst (Dict.items m)) with (Dict.keys m) in Hk.
  rewrite (get_most_recent_completions_keys _ _ Hm) in Hk.
  apply In_first_occurrences, In_read_names in Hk. destruct Hk as (c & ts & Hc & Er).
  rewrite get_training_count_flat, count_fold_keys. apply In_first_occurrences.
  apply in_flat_map. exists c. split.
  - unfold all_completions. apply in_flat_map. exists p. split; assumption.
  - rewrite (reading_name _ _ _ Er). left. reflexivity.
Qed.

Lemma flagged_trainings_are_counted_witness :
  In "Lab Safety" (Dict.keys (get_training_count [alice; bob; carol])).
Proof.
  apply (flagged_trainings_are_counted [alice; bob; carol] new_year_2025
           [Report.make "Alice" [Flag.make "X-Ray Safety" "expires soon"];
            Report.make "Bob" [Flag.make "Lab Safety" "expired"]]
           eq_refl
           (Report.make "Bob" [Flag.make "Lab Safety" "expired"])
           (Flag.make "Lab Safety" "expired")).
  - right. left. reflexivity.
  - left. reflexivity.
Defined.

(** X18. [get_completed_trainings] lists no name out of nowhere: every
    name in the list of a training is the [name] of a person of the
    dataset who has a completion of that training. *)
Theorem get_completed_trainings_names (data : list Person.t)
  (trainings : list string) (fiscal_year : Z) (m : Dict.t (list string))
  (t : string) (l : list string) (x : string) :
  get_completed_trainings data trainings fiscal_year = Ok m ->
  Dict.get m t = Some l ->
  In x l ->
  exists p c,
    In p data /\ Person.name p = Some x
    /\ In c (Person.get_completions p) /\ Completion.name c = Some t.
Proof.
  intros H G Hx. apply get_completed_trainings_Ok in H. destruct H as [_ ->].
  unfold fiscal_report in G.
  fold (table (first_occurrences trainings) (fun t => completers fiscal_year t data)) in G.
  rewrite get_table in G.
  destruct (existsb (String.eqb t) (first_occurrences trainings)); [|discriminate].
  injection G as <-. unfold completers in Hx.
  apply in_flat_map in Hx. destruct Hx as (p & Hp & Hx).
  apply in_flat_map in Hx. destruct Hx as (c & Hc & Hx).
  destruct (qualifies fiscal_year t c) eqn:Q; [|destruct Hx].
  unfold name_list in Hx. destruct (Person.name p) as [n|] eqn:En; [|destruct Hx].
  destruct Hx as [->|[]]. exists p, c. repeat split; try assumption.
  apply qualifies_named in Q. unfold named in Q.
  destruct (Completion.name c) as [n|]; [|discriminate].
  apply String.eqb_eq in Q. congruence.
Qed.

Lemma get_completed_trainings_names_witness :
  exists p c,
    In p [dana; erin; carol] /\ Person.name p = Some "Erin"
    /\ In c (Person.get_completions p) /\ Completion.name c = Some "Lab Safety".
Proof.
  apply (get_completed_trainings_names [dana; erin; carol] ["Lab Safety"] 2024
           [("Lab Safety", ["Dana"; "Dana"; "Erin"])] "Lab Safety"
           ["Dana"; "Dana"; "Erin"] "Erin"); try reflexivity.
  right. right. left. reflexivity.
Defined.

(** * Clean data *)

Lemma reading_timestamp c n ts :
  reading c = Some (n, ts) -> truthy (Completion.timestamp c) = Some ts.
Proof.
  unfold reading. destruct (truthy (Completion.name c)); [|discriminate].
  destruct (truthy (Completion.timestamp c)); [|discriminate].
  intros [= _ ->]. reflexivity.
Qed.

Lemma completion_ok_clean fiscal_year trainings p c :
  clean p -> In c (Person.get_completions p) ->
  completion_ok fiscal_year trainings p c = true.
Proof.
  intros [Hn Hc] Hin. destruct (Hc c Hin) as [Hts _].
  unfold completion_ok, examined.
  destruct (Completion.name c) as [n|]; [|reflexivity].
  destruct (truthy (Completion.timestamp c)) as [ts|]; [|reflexivity].
  destruct (existsb (String.eqb n) trainings); [|reflexivity].
  destruct (Hts ts eq_refl) as [d ->].
  destruct (in_fiscal_year fiscal_year d); [|reflexivity].
  destruct (Person.name p); [reflexivity | contradiction].
Qed.

Lemma well_formed_clean data trainings fiscal_year :
  (forall p, In p data -> clean p) ->
  2 <= fiscal_year <= 9999 ->
  well_formed data trainings fiscal_year = true.
Proof.
  intros Hclean Hfy. unfold well_formed. rewrite !andb_true_iff, !Z.leb_le.
  split; [lia|]. apply forallb_forall. intros p Hp. apply forallb_forall. intros c Hc.
  exact (completion_ok_clean _ _ _ _ (Hclean p Hp) Hc).
Qed.

(** Erin's record is clean. *)
Lemma clean_erin : forall p, In p [erin] -> clean p.
Proof.
  intros p [<-|[]]. split; [discriminate|].
  intros c [<-|[]]. split.
  - intros ts [= <-]. eexists. reflexivity.
  - intros e. discriminate.
Qed.

(** X19. On clean data (every person has a [name], every non-empty
    timestamp and expiry date parses) and a fiscal year from 2 to 9999,
    [get_completed_trainings] returns, whatever trainings are requested. *)
Theorem get_completed_trainings_returns (data : list Person.t)
  (trainings : list string) (fiscal_year : Z) :
  (forall p, In p data -> clean p) ->
  2 <= fiscal_year <= 9999 ->
  exists m, get_completed_trainings data trainings fiscal_year = Ok m.
Proof.
  intros Hclean Hfy. eexists. apply get_completed_trainings_well_formed.
  exact (well_formed_clean _ _ _ Hclean Hfy).
Qed.

Lemma get_completed_trainings_returns_witness :
  exists m, get_completed_trainings [erin] ["Lab Safety"; "Welding"] 2024 = Ok m.
Proof.
  apply get_completed_trainings_returns; [exact clean_erin | lia].
Defined.

Lemma items_get {V : Type} (d : Dict.t V) k v :
  NoDup (Dict.keys d) -> In (k, v) (Dict.items d) -> Dict.get d k = Some v.
Proof.
  unfold Dict.items. induction d as [|[k' v'] d IH]; simpl; [intros _ []|].
  intros Hnd [[= -> ->]|Hin].
  - rewrite String.eqb_refl. reflexivity.
  - inversion Hnd as [|? ? Hk' Hnd']; subst.
    destruct (String.eqb_spec k' k) as [->|Hne].
    + exfalso. apply Hk'. exact (in_map fst _ _ Hin).
    + exact (IH Hnd' Hin).
Qed.

Lemma flags_Ok ref items :
  (forall n d, In (n, d) items -> exists s, Loops.status ref d = Ok s) ->
  exists fs, Loops.flags ref items = Ok fs.
Proof.
  induction items as [|[n d] items IH]; intros H; cbn [Loops.flags];
    [eexists; reflexivity|].
  destruct (H n d (or_introl eq_refl)) as [s ->]. cbn [bind].
  destruct IH as [fs ->]; [|eexists; reflexivity].
  intros n0 d0 Hin. apply (H n0 d0). right. exact Hin.
Qed.

Lemma entry_clean ref p :
  0 <= ref -> Datetime.toordinal ref + 30 <= Datetime.MAXORDINAL ->
  clean p -> exists e, Loops.entry ref p = Ok e.
Proof.
  intros H0 Hmax [Hn Hc]. unfold Loops.entry.
  pose proof (get_most_recent_completions_total (Person.get_completions p)) as T.
  replace (forallb parses (Person.get_completions p)) with true in T.
  2:{ symmetry. apply forallb_forall. intros c Hin. unfold parses.
      destruct (reading c) as [[n ts]|] eqn:Er; [|reflexivity].
      destruct (proj1 (Hc c Hin) ts (reading_timestamp _ _ _ Er)) as [d ->].
      reflexivity. }
  destruct T as [m Hm]. rewrite Hm. cbn [bind].
  destruct (get_most_recent_completions_resolves _ _ Hm) as [Hnd Hr].
  destruct (flags_Ok ref (Dict.items m)) as [fs ->].
  - intros n d Hin. pose proof (items_get _ _ _ Hnd Hin) as G.
    specialize (Hr n). rewrite G in Hr.
    destruct (most_recent_of_winner _ _ _ Hr) as (c & Hcin & _ & He).
    unfold Loops.status. rewrite He.
    destruct (truthy (Completion.expires c)) as [e|] eqn:Et; [|eexists; reflexivity].
    destruct (proj2 (Hc c Hcin) e Et) as [x ->]. cbn [bind].
    destruct (Datetime.gtb ref x); [eexists; reflexivity|].
    rewrite (add_days_30 ref H0 Hmax). cbn [bind].
    destruct (Datetime.leb x (ref + 30 * Datetime.us_per_day)); eexists; reflexivity.
  - cbn [bind]. destruct fs; [eexists; reflexivity|].
    unfold Person.getitem_name. destruct (Person.name p); [|contradiction].
    eexists. reflexivity.
Qed.

Lemma get_expired_or_expiring_trainings_clean data ref :
  0 <= ref -> Datetime.toordinal ref + 30 <= Datetime.MAXORDINAL ->
  (forall p, In p data -> clean p) ->
  exists results, get_expired_or_expiring_trainings data ref = Ok results.
Proof.
  intros H0 Hmax. rewrite get_expired_or_expiring_trainings_loops.
  induction data as [|p data IH]; intros Hclean; simpl; [eexists; reflexivity|].
  destruct (entry_clean ref p H0 Hmax (Hclean p (or_introl eq_refl))) as [e ->].
  cbn [bind]. destruct IH as [rs ->]; [|eexists; reflexivity].
  intros q Hq. apply Hclean. right. exact Hq.
Qed.

(** X20. On clean data and a reference date of the date type that is at
    most 9999-12-01, [get_expired_or_expiring_trainings] returns. *)
Theorem get_expired_or_expiring_trainings_returns (data : list Person.t)
  (reference_date : Datetime.t) :
  (forall p, In p data -> clean p) ->
  Datetime.in_range reference_date ->
  Datetime.toordinal reference_date + 30 <= Datetime.MAXORDINAL ->
  exists results, get_expired_or_expiring_trainings data reference_date = Ok results.
Proof.
  intros Hclean [H0 _] Hmax.
  exact (get_expired_or_expiring_trainings_clean _ _ H0 Hmax Hclean).
Qed.

Lemma get_expired_or_expiring_trainings_returns_witness :
  exists results, get_expired_or_expiring_trainings [erin] october_first = Ok results.
Proof.
  apply get_expired_or_expiring_trainings_returns.
  - exact clean_erin.
  - vm_compute. split; congruence.
  - vm_compute. congruence.
Defined.

(** * The program *)

Lemma reference_date_october : Main.reference_date = Ok october_first.
Proof. reflexivity. Qed.

Lemma october_first_bounds :
  0 <= october_first /\ Datetime.toordinal october_first + 30 <= Datetime.MAXORDINAL.
Proof. vm_compute. split; congruence. Qed.

(** X21. The program ends with no exception other than [ValueError] and
    [KeyError] ([KeyError] only when a person has no [name]): its fiscal
    year and its reference date are in range.  When it ends with an
    exception, the count has been written, the expiry report has not, and
    the fiscal-year report has been written exactly when the exception
    came from the expiry report. *)
Theorem main_exceptions (data : list Person.t) (e : exn) :
  snd (Main.main data) = Some e ->
  (e = ValueError \/ (e = KeyError /\ exists p, In p data /\ Person.name p = None))
  /\ ((map fst (fst (Main.main data)) = ["task_1_training_count.json"]
       /\ get_completed_trainings data Main.trainings Main.fiscal_year = Raise e)
      \/ (map fst (fst (Main.main data))
          = ["task_1_training_count.json"; "task_2_completed_trainings.json"]
          /\ get_expired_or_expiring_trainings data october_first = Raise e)).
Proof.
  unfold Main.main. rewrite reference_date_october.
  destruct (get_completed_trainings data Main.trainings Main.fiscal_year)
    as [r2|e2] eqn:E2; simpl.
  - destruct (get_expired_or_expiring_trainings data october_first) as [r3|e3] eqn:E3;
      simpl; [discriminate|].
    intros [= <-]. split; [|right; split; reflexivity].
    destruct october_first_bounds as [H0 Hmax].
    exact (get_expired_or_expiring_trainings_Raise _ _ _ H0 Hmax E3).
  - intros [= <-]. split; [|left; split; reflexivity].
    destruct (get_completed_trainings_Raise _ _ _ _ E2) as [H|[H|[_ H]]];
      [left; exact H | right; exact H |].
    exfalso. revert H. vm_compute. intros [H|H]; discriminate H.
Qed.

Lemma main_exceptions_witness :
  (KeyError = ValueError
   \/ (KeyError = KeyError /\ exists p, In p [erin; nameless] /\ Person.name p = None))
  /\ ((map fst (fst (Main.main [erin; nameless])) = ["task_1_training_count.json"]
       /\ get_completed_trainings [erin; nameless] Main.trainings Main.fiscal_year
          = Raise KeyError)
      \/ (map fst (fst (Main.main [erin; nameless]))
          = ["task_1_training_count.json"; "task_2_completed_trainings.json"]
          /\ get_expired_or_expiring_trainings [erin; nameless] october_first
             = Raise KeyError)).
Proof.
  apply (main_exceptions [erin; nameless] KeyError). reflexivity.
Defined.

(** X22. On clean data the program writes its three files, in the order
    of the tasks, and ends without an exception. *)
Theorem main_completes (data : list Person.t) :
  (forall p, In p data -> clean p) ->
  exists training_results results,
    Main.main data
    = ([("task_1_training_count.json", Counts (get_training_count data));
        ("task_2_completed_trainings.json", Completed training_results);
        ("task_3_expired_or_expiring_trainings.json", Expiring results)],
       None).
Proof.
  intros Hclean. unfold Main.main. rewrite reference_date_october.
  rewrite (get_completed_trainings_well_formed data Main.trainings Main.fiscal_year)
    by (apply well_formed_clean; [exact Hclean | unfold Main.fiscal_year; lia]).
  destruct october_first_bounds as [H0 Hmax].
  destruct (get_expired_or_expiring_trainings_clean data october_first H0 Hmax Hclean)
    as [rs ->].
  eexists. eexists. reflexivity.
Qed.

Lemma main_completes_witness :
  exists training_results results,
    Main.main [erin]
    = ([("task_1_training_count.json", Counts (get_training_count [erin]));
        ("task_2_completed_trainings.json", Completed training_results);
        ("task_3_expired_or_expiring_trainings.json", Expiring results)],
       None).
Proof. apply main_completes. exact clean_erin. Defined.
